(** * HabitFlow: the persistence and analytics engine of [database.py]

    A shallow embedding of the SQLite-backed data layer (habits, habit
    completions, tasks) and of the derived analytics (streaks, month
    calendar, rates), followed by the properties of the specification.

    Conventions.
    - Python [int] and SQLite INTEGER are [Z]; TEXT and [str] are [string]
      (ASCII bytes); a nullable column is an [option].
    - A table is the list of its rows in storage order, together with its
      AUTOINCREMENT counter.
    - A Python exception is [None] in the [option] monad.
    - [date.today()] is an explicit argument: the proleptic Gregorian
      ordinal of the current day. *)

From Stdlib Require Import ZArith QArith Qcanon Ascii String.
From stdpp Require Import base tactics option list numbers sorting gmap strings.

Local Open Scope Z_scope.

(** ** Characters and decimal text *)

Module Text.

(** The value of an ASCII decimal digit, from its code point. *)
Definition digit_of_char (c : ascii) : option Z :=
  let code := Z.of_N (N_of_ascii c) in
  if (48 <=? code) && (code <=? 57) then Some (code - 48) else None.

Definition is_digit (c : ascii) : bool :=
  match digit_of_char c with
  | Some _ => true
  | None => false
  end.

Definition char_of_digit (n : Z) : ascii :=
  match n with
  | 0 => "0" | 1 => "1" | 2 => "2" | 3 => "3" | 4 => "4"
  | 5 => "5" | 6 => "6" | 7 => "7" | 8 => "8" | _ => "9"
  end%char.

(** [str(n)] for a non-negative [n]: the decimal digits, most significant
    first.  [fuel] bounds the number of digits after the first. *)
Fixpoint str_digits (fuel : nat) (n : Z) (acc : string) : string :=
  let acc' := String (char_of_digit (n `mod` 10)) acc in
  match fuel with
  | O => acc'
  | S f => if n <? 10 then acc' else str_digits f (n `div` 10) acc'
  end.

Definition str_nat (n : Z) : string :=
  str_digits (Z.to_nat (Z.log2 n)) n "".

Fixpoint zeros (k : nat) : string :=
  match k with
  | O => ""
  | S k' => String "0" (zeros k')
  end.

Definition zfill (w : nat) (s : string) : string :=
  zeros (w - String.length s) +:+ s.

(** The format specification [0{w}d], as in [f"{n:04d}"] and ["%02d" % n]:
    sign-aware zero padding to a minimum width. *)
Definition format_0wd (w : nat) (n : Z) : string :=
  if n <? 0 then String "-" (zfill (w - 1) (str_nat (- n)))
  else zfill w (str_nat n).

(** [s.split(sep)] for a one-character separator. *)
Fixpoint split_go (sep : ascii) (cur : string) (s : string) : list string :=
  match s with
  | EmptyString => [String.rev cur]
  | String c s' =>
      if Ascii.eqb c sep then String.rev cur :: split_go sep "" s'
      else split_go sep (String c cur) s'
  end.

Definition split (sep : ascii) (s : string) : list string := split_go sep "" s.

(** [int(s)], base 10: blanks around the number are dropped, a sign may
    lead, and single underscores may separate digits.  [None] is
    [ValueError]. *)
Definition is_space (c : ascii) : bool :=
  let code := Z.of_N (N_of_ascii c) in
  ((9 <=? code) && (code <=? 13)) || ((28 <=? code) && (code <=? 32)).

Fixpoint lstrip (s : string) : string :=
  match s with
  | EmptyString => EmptyString
  | String c s' => if is_space c then lstrip s' else s
  end.

Definition strip (s : string) : string :=
  String.rev (lstrip (String.rev (lstrip s))).

Fixpoint int_digits (s : string) (acc : Z) (after_digit : bool) : option Z :=
  match s with
  | EmptyString => if after_digit then Some acc else None
  | String c s' =>
      if Ascii.eqb c "_" then
        if after_digit then int_digits s' acc false else None
      else d ← digit_of_char c; int_digits s' (10 * acc + d) true
  end.

Definition py_int (s : string) : option Z :=
  match strip s with
  | String c s' =>
      if Ascii.eqb c "-" then Z.opp <$> int_digits s' 0 false
      else if Ascii.eqb c "+" then int_digits s' 0 false
      else int_digits (String c s') 0 false
  | EmptyString => None
  end.

Fixpoint prefixb (p s : string) : bool :=
  match p, s with
  | EmptyString, _ => true
  | String a p', String b s' => Ascii.eqb a b && prefixb p' s'
  | String _ _, EmptyString => false
  end.

(** SQLite's [LIKE]: [%] matches any run of characters, [_] any single
    character, every other character matches itself, ASCII letters without
    regard to case. *)
Definition lower (c : ascii) : ascii :=
  let n := N_of_ascii c in
  if ((65 <=? n) && (n <=? 90))%N then ascii_of_N (n + 32) else c.

Fixpoint like (p : string) : string → bool :=
  match p with
  | EmptyString => λ s, match s with EmptyString => true | _ => false end
  | String c p' =>
      if Ascii.eqb c "%" then
        fix star (s : string) : bool :=
          like p' s || match s with
                       | EmptyString => false
                       | String _ s' => star s'
                       end
      else if Ascii.eqb c "_" then
        λ s, match s with EmptyString => false | String _ s' => like p' s' end
      else
        λ s, match s with
             | EmptyString => false
             | String d s' => Ascii.eqb (lower c) (lower d) && like p' s'
             end
  end.

End Text.

(** ** The [datetime.date] operations the module uses *)

Module Date.
Import Text.

Record date := mk_date { year : Z; month : Z; day : Z }.

Definition is_leap (y : Z) : bool :=
  (y `mod` 4 =? 0) && (negb (y `mod` 100 =? 0) || (y `mod` 400 =? 0)).

Definition DAYS_IN_MONTH : list Z :=
  [-1; 31; 28; 31; 30; 31; 30; 31; 31; 30; 31; 30; 31].

Definition DAYS_BEFORE_MONTH : list Z :=
  [-1; 0; 31; 59; 90; 120; 151; 181; 212; 243; 273; 304; 334].

Definition days_before_year (y : Z) : Z :=
  let y := y - 1 in y * 365 + y `div` 4 - y `div` 100 + y `div` 400.

Definition days_in_month (y m : Z) : Z :=
  if (m =? 2) && is_leap y then 29 else nth (Z.to_nat m) DAYS_IN_MONTH 0.

Definition days_before_month (y m : Z) : Z :=
  nth (Z.to_nat m) DAYS_BEFORE_MONTH 0 + (if (2 <? m) && is_leap y then 1 else 0).

Definition ymd2ord (y m d : Z) : Z :=
  days_before_year y + days_before_month y m + d.

Definition DI400Y : Z := 146097.
Definition DI100Y : Z := 36524.
Definition DI4Y : Z := 1461.

Definition ord2ymd (n : Z) : date :=
  let n := n - 1 in
  let n400 := n `div` DI400Y in
  let n := n `mod` DI400Y in
  let y := n400 * 400 + 1 in
  let n100 := n `div` DI100Y in
  let n := n `mod` DI100Y in
  let n4 := n `div` DI4Y in
  let n := n `mod` DI4Y in
  let n1 := n `div` 365 in
  let n := n `mod` 365 in
  let y := y + n100 * 100 + n4 * 4 + n1 in
  if (n1 =? 4) || (n100 =? 4) then mk_date (y - 1) 12 31
  else
    let leapyear := (n1 =? 3) && (negb (n4 =? 24) || (n100 =? 3)) in
    let m := Z.shiftr (n + 50) 5 in
    let preceding :=
      nth (Z.to_nat m) DAYS_BEFORE_MONTH 0
      + (if (2 <? m) && leapyear then 1 else 0) in
    if n <? preceding then
      let m := m - 1 in
      let preceding :=
        preceding - (nth (Z.to_nat m) DAYS_IN_MONTH 0
                     + (if (m =? 2) && leapyear then 1 else 0)) in
      mk_date y m (n - preceding + 1)
    else mk_date y m (n - preceding + 1).

Definition MAXORDINAL : Z := 3652059.

(** The check made by the [date] constructor. *)
Definition valid_date (dt : date) : bool :=
  (1 <=? year dt) && (year dt <=? 9999)
  && (1 <=? month dt) && (month dt <=? 12)
  && (1 <=? day dt) && (day dt <=? days_in_month (year dt) (month dt)).

Definition toordinal (dt : date) : Z := ymd2ord (year dt) (month dt) (day dt).

(** [date.fromordinal(n)]; [None] is its [ValueError]. *)
Definition fromordinal (n : Z) : option date :=
  if (1 <=? n) && (n <=? MAXORDINAL) then Some (ord2ymd n) else None.

(** [d.isoformat()], and [d.strftime("%Y-%m-%d")], which agrees with it for
    the four-digit years of every date from 1000-01-01 on. *)
Definition isoformat (dt : date) : string :=
  format_0wd 4 (year dt) +:+ "-" +:+ format_0wd 2 (month dt)
  +:+ "-" +:+ format_0wd 2 (day dt).

(** Date comparison, as [sorted] uses it: year, then month, then day. *)
Definition date_leb (a b : date) : bool :=
  (year a <? year b)
  || ((year a =? year b)
      && ((month a <? month b)
          || ((month a =? month b) && (day a <=? day b)))).

(** [datetime.strptime(s, "%Y-%m-%d").date()].  The directives are the
    regular expressions [\d\d\d\d], [1[0-2]|0[1-9]|[1-9]] and
    [3[01]|[12]\d|0[1-9]|[1-9]| [1-9]]; the whole string must be consumed
    and the fields must form a date.  [None] is [ValueError]. *)
Definition parse_year (s : string) : option (Z * string) :=
  match s with
  | String a (String b (String c (String d rest))) =>
      a ← digit_of_char a; b ← digit_of_char b;
      c ← digit_of_char c; d ← digit_of_char d;
      Some (1000 * a + 100 * b + 10 * c + d, rest)
  | _ => None
  end.

Definition parse_month (s : string) : option (Z * string) :=
  match s with
  | EmptyString => None
  | String a rest =>
      match digit_of_char a with
      | None => None
      | Some 1 =>
          match rest with
          | String b rest' =>
              match digit_of_char b with
              | Some k => if k <=? 2 then Some (10 + k, rest') else Some (1, rest)
              | None => Some (1, rest)
              end
          | EmptyString => Some (1, rest)
          end
      | Some 0 =>
          match rest with
          | String b rest' =>
              match digit_of_char b with
              | Some k => if 1 <=? k then Some (k, rest') else None
              | None => None
              end
          | EmptyString => None
          end
      | Some k => Some (k, rest)
      end
  end.

Definition parse_day (s : string) : option (Z * string) :=
  match s with
  | EmptyString => None
  | String a rest =>
      match digit_of_char a with
      | None =>
          if Ascii.eqb a " " then
            match rest with
            | String b rest' =>
                match digit_of_char b with
                | Some k => if 1 <=? k then Some (k, rest') else None
                | None => None
                end
            | EmptyString => None
            end
          else None
      | Some 3 =>
          match rest with
          | String b rest' =>
              match digit_of_char b with
              | Some k => if k <=? 1 then Some (30 + k, rest') else Some (3, rest)
              | None => Some (3, rest)
              end
          | EmptyString => Some (3, rest)
          end
      | Some 0 =>
          match rest with
          | String b rest' =>
              match digit_of_char b with
              | Some k => if 1 <=? k then Some (k, rest') else None
              | None => None
              end
          | EmptyString => None
          end
      | Some k =>
          if k <=? 2 then
            match rest with
            | String b rest' =>
                match digit_of_char b with
                | Some j => Some (10 * k + j, rest')
                | None => Some (k, rest)
                end
            | EmptyString => Some (k, rest)
            end
          else Some (k, rest)
      end
  end.

Definition expect (c : ascii) (s : string) : option string :=
  match s with
  | String a rest => if Ascii.eqb a c then Some rest else None
  | EmptyString => None
  end.

Definition strptime (s : string) : option date :=
  '(y, s) ← parse_year s;
  s ← expect "-" s;
  '(m, s) ← parse_month s;
  s ← expect "-" s;
  '(d, s) ← parse_day s;
  match s with
  | EmptyString =>
      let dt := mk_date y m d in
      if valid_date dt then Some dt else None
  | _ => None
  end.

(** A stored date in the canonical form [YYYY-MM-DD]: it denotes a date and
    is that date's ISO rendering. *)
Definition is_iso_date (s : string) : bool :=
  match strptime s with
  | Some dt => String.eqb (isoformat dt) s
  | None => false
  end.

End Date.

Import Text Date.

(** ** The store: schema, tables and SQL statements *)

Module Store.

Record habit := mk_habit {
  h_id : Z;
  h_name : string;
  h_icon : string;
  h_color : string;
  h_created_at : string;
  h_sort_order : option Z
}.

Record completion := mk_completion {
  hc_id : Z;
  hc_habit_id : Z;
  hc_date : string;
  hc_completed : Z
}.

Record task := mk_task {
  t_id : Z;
  t_title : string;
  t_date : string;
  t_completed : Z;
  t_priority : string;
  t_start_time : option string;
  t_end_time : option string;
  t_created_at : string
}.

(** Which tables exist, and which of the later-added columns they have. *)
Record schema := mk_schema {
  tbl_habits : bool;
  tbl_completions : bool;
  tbl_tasks : bool;
  tbl_settings : bool;
  col_start_time : bool;
  col_end_time : bool;
  col_sort_order : bool
}.

Record store := mk_store {
  sch : schema;
  habits : list habit;
  habits_seq : Z;
  completions : list completion;
  completions_seq : Z;
  tasks : list task;
  tasks_seq : Z;
  settings : gmap string string
}.

Definition set_sch (st : store) (s : schema) : store :=
  mk_store s (habits st) (habits_seq st) (completions st) (completions_seq st)
    (tasks st) (tasks_seq st) (settings st).
Definition set_habits (st : store) (hs : list habit) : store :=
  mk_store (sch st) hs (habits_seq st) (completions st) (completions_seq st)
    (tasks st) (tasks_seq st) (settings st).
Definition set_completions (st : store) (cs : list completion) : store :=
  mk_store (sch st) (habits st) (habits_seq st) cs (completions_seq st)
    (tasks st) (tasks_seq st) (settings st).
Definition set_tasks (st : store) (ts : list task) : store :=
  mk_store (sch st) (habits st) (habits_seq st) (completions st)
    (completions_seq st) ts (tasks_seq st) (settings st).

Definition set_sort_order (h : habit) (o : option Z) : habit :=
  mk_habit (h_id h) (h_name h) (h_icon h) (h_color h) (h_created_at h) o.

(** A database file that does not exist yet. *)
Definition empty_schema : schema :=
  mk_schema false false false false false false false.
Definition empty_store : store :=
  mk_store empty_schema [] 0 [] 0 [] 0 ∅.

(** A connection as [get_connection] opens it.  [sqlite3.connect] leaves
    SQLite's per-connection [foreign_keys] pragma at its default, off, and
    the module never issues [PRAGMA foreign_keys = ON]. *)
Record connection := mk_connection { foreign_keys : bool }.
Definition get_connection : connection := mk_connection false.

(** The integers SQLite stores: signed, 64 bits. *)
Definition sqlite_int (n : Z) : bool := (- 2 ^ 63 <=? n) && (n <? 2 ^ 63).

(** [cursor.execute(sql, params)] on an [int] parameter.  [None] is the
    [OverflowError] that [sqlite3] raises, before the statement runs, for a
    Python [int] outside that range.  A function that raises does not reach
    its [conn.commit()]: what it had executed is rolled back when the
    connection goes away, and the database keeps the state it had. *)
Definition bind_int (n : Z) : option Z :=
  if sqlite_int n then Some n else None.

(** *** Schema statements of [init_database] *)

(** [CREATE TABLE IF NOT EXISTS habits (id, name, icon, color, created_at)] *)
Definition create_table_habits (st : store) : store :=
  let s := sch st in
  if tbl_habits s then st
  else set_sch st (mk_schema true (tbl_completions s) (tbl_tasks s)
                     (tbl_settings s) (col_start_time s) (col_end_time s) false).

Definition create_table_completions (st : store) : store :=
  let s := sch st in
  if tbl_completions s then st
  else set_sch st (mk_schema (tbl_habits s) true (tbl_tasks s) (tbl_settings s)
                     (col_start_time s) (col_end_time s) (col_sort_order s)).

(** [CREATE TABLE IF NOT EXISTS tasks (..., start_time TEXT, end_time TEXT, ...)] *)
Definition create_table_tasks (st : store) : store :=
  let s := sch st in
  if tbl_tasks s then st
  else set_sch st (mk_schema (tbl_habits s) (tbl_completions s) true
                     (tbl_settings s) true true (col_sort_order s)).

Definition create_table_settings (st : store) : store :=
  let s := sch st in
  if tbl_settings s then st
  else set_sch st (mk_schema (tbl_habits s) (tbl_completions s) (tbl_tasks s)
                     true (col_start_time s) (col_end_time s) (col_sort_order s)).

(** [ALTER TABLE tasks ADD COLUMN start_time TEXT]; [None] is the
    [OperationalError] for a duplicate column (or a missing table). *)
Definition alter_add_start_time (st : store) : option store :=
  let s := sch st in
  if tbl_tasks s && negb (col_start_time s) then
    Some (set_sch
            (set_tasks st
               ((λ t, mk_task (t_id t) (t_title t) (t_date t) (t_completed t)
                        (t_priority t) None (t_end_time t) (t_created_at t))
                  <$> tasks st))
            (mk_schema (tbl_habits s) (tbl_completions s) (tbl_tasks s)
               (tbl_settings s) true (col_end_time s) (col_sort_order s)))
  else None.

Definition alter_add_end_time (st : store) : option store :=
  let s := sch st in
  if tbl_tasks s && negb (col_end_time s) then
    Some (set_sch
            (set_tasks st
               ((λ t, mk_task (t_id t) (t_title t) (t_date t) (t_completed t)
                        (t_priority t) (t_start_time t) None (t_created_at t))
                  <$> tasks st))
            (mk_schema (tbl_habits s) (tbl_completions s) (tbl_tasks s)
               (tbl_settings s) (col_start_time s) true (col_sort_order s)))
  else None.

(** [ALTER TABLE habits ADD COLUMN sort_order INTEGER DEFAULT 0]: existing
    rows read the default. *)
Definition alter_add_sort_order (st : store) : option store :=
  let s := sch st in
  if tbl_habits s && negb (col_sort_order s) then
    Some (set_sch
            (set_habits st ((λ h, set_sort_order h (Some 0)) <$> habits st))
            (mk_schema (tbl_habits s) (tbl_completions s) (tbl_tasks s)
               (tbl_settings s) (col_start_time s) (col_end_time s) true))
  else None.

(** [try: stmt  except: pass] *)
Definition try_pass (stmt : store → option store) (st : store) : store :=
  default st (stmt st).

(** [UPDATE habits SET sort_order = id WHERE sort_order = 0 OR sort_order IS NULL] *)
Definition lacks_sort_order (h : habit) : bool :=
  match h_sort_order h with
  | None => true
  | Some o => o =? 0
  end.

Definition backfill_sort_order (st : store) : store :=
  set_habits st
    ((λ h, if lacks_sort_order h then set_sort_order h (Some (h_id h)) else h)
       <$> habits st).

Definition init_database (st : store) : store :=
  let st := create_table_habits st in
  let st := create_table_completions st in
  let st := create_table_tasks st in
  let st := try_pass alter_add_start_time st in
  let st := try_pass alter_add_end_time st in
  let st := try_pass alter_add_sort_order st in
  let st := backfill_sort_order st in
  create_table_settings st.

(** *** Habits *)

(** [ORDER BY sort_order, id]: NULL sorts before every integer. *)
Definition sort_order_leb (a b : option Z) : bool :=
  match a, b with
  | None, _ => true
  | Some _, None => false
  | Some x, Some y => x <=? y
  end.

Definition sort_order_ltb (a b : option Z) : bool :=
  match a, b with
  | None, None => false
  | None, Some _ => true
  | Some _, None => false
  | Some x, Some y => x <? y
  end.

Definition habit_leb (a b : habit) : bool :=
  sort_order_ltb (h_sort_order a) (h_sort_order b)
  || (sort_order_leb (h_sort_order a) (h_sort_order b) && (h_id a <=? h_id b)).

Definition habit_le (a b : habit) : Prop := habit_leb a b = true.

#[global] Instance habit_le_dec : RelDecision habit_le :=
  λ a b, decide (habit_leb a b = true).

Definition get_all_habits (st : store) : list habit :=
  merge_sort habit_le (habits st).

(** [INSERT INTO habits (name, icon, color)]: the id is the next value of
    the AUTOINCREMENT sequence, [sort_order] takes its default and
    [created_at] the current timestamp [now]. *)
Definition create_habit (st : store) (now name icon color : string)
  : store * (Z * string * string * string) :=
  let habit_id := habits_seq st + 1 in
  let row :=
    mk_habit habit_id name icon color now
      (if col_sort_order (sch st) then Some 0 else None) in
  (mk_store (sch st) (habits st ++ [row]) habit_id (completions st)
     (completions_seq st) (tasks st) (tasks_seq st) (settings st),
   (habit_id, name, icon, color)).

(** [DELETE FROM habit_completions WHERE habit_id = ?] *)
Definition sql_delete_completions_of (st : store) (habit_id : Z) : store :=
  set_completions st (filter (λ c, hc_habit_id c ≠ habit_id) (completions st)).

(** [DELETE FROM habits WHERE id = ?], with the number of rows deleted.  The
    [ON DELETE CASCADE] clause of [habit_completions] acts only on a
    connection that enforces foreign keys. *)
Definition sql_delete_habit (conn : connection) (st : store) (habit_id : Z)
  : store * Z :=
  let rowcount := Z.of_nat (length (filter (λ h, h_id h = habit_id) (habits st))) in
  let st := set_habits st (filter (λ h, h_id h ≠ habit_id) (habits st)) in
  (if foreign_keys conn then sql_delete_completions_of st habit_id else st,
   rowcount).

Definition delete_habit (st : store) (habit_id : Z) : option (store * bool) :=
  let conn := get_connection in
  habit_id ← bind_int habit_id;
  let st := sql_delete_completions_of st habit_id in
  let '(st, rowcount) := sql_delete_habit conn st habit_id in
  let deleted := 0 <? rowcount in
  Some (st, deleted).

(** [UPDATE habits SET sort_order = ? WHERE id = ?] *)
Definition sql_update_sort_order (st : store) (index habit_id : Z) : store :=
  set_habits st
    ((λ h, if h_id h =? habit_id then set_sort_order h (Some index) else h)
       <$> habits st).

(** [for index, habit_id in enumerate(habit_ids)]: each round binds the
    index, which is below the length of a list and so always in range, and
    the id. *)
Fixpoint update_order_loop (st : store) (index : Z) (habit_ids : list Z)
  : option store :=
  match habit_ids with
  | [] => Some st
  | habit_id :: rest =>
      habit_id ← bind_int habit_id;
      update_order_loop (sql_update_sort_order st index habit_id) (index + 1) rest
  end.

Definition update_habits_order (st : store) (habit_ids : list Z)
  : option (store * bool) :=
  st ← update_order_loop st 0 habit_ids;
  Some (st, true).

(** [SELECT id FROM habit_completions WHERE habit_id = ? AND date = ?] *)
Definition sql_select_completion (st : store) (habit_id : Z) (date_str : string)
  : list completion :=
  filter (λ c, hc_habit_id c = habit_id ∧ hc_date c = date_str) (completions st).

(** [DELETE FROM habit_completions WHERE habit_id = ? AND date = ?] *)
Definition sql_delete_completion (st : store) (habit_id : Z) (date_str : string)
  : store :=
  set_completions st
    (filter (λ c, ¬ (hc_habit_id c = habit_id ∧ hc_date c = date_str))
       (completions st)).

(** [INSERT INTO habit_completions (habit_id, date)]; [None] is the
    [IntegrityError] of [UNIQUE(habit_id, date)], or of the foreign key on
    a connection that enforces it. *)
Definition sql_insert_completion (conn : connection) (st : store)
    (habit_id : Z) (date_str : string) : option store :=
  if bool_decide (sql_select_completion st habit_id date_str ≠ []) then None
  else if foreign_keys conn
          && bool_decide (filter (λ h, h_id h = habit_id) (habits st) = [])
  then None
  else
    let id := completions_seq st + 1 in
    Some (mk_store (sch st) (habits st) (habits_seq st)
            (completions st ++ [mk_completion id habit_id date_str 1]) id
            (tasks st) (tasks_seq st) (settings st)).

Definition toggle_habit_completion (st : store) (habit_id : Z) (date_str : string)
  : option (store * bool) :=
  let conn := get_connection in
  habit_id ← bind_int habit_id;
  let existing := head (sql_select_completion st habit_id date_str) in
  match existing with
  | Some _ => Some (sql_delete_completion st habit_id date_str, false)
  | None =>
      st ← sql_insert_completion conn st habit_id date_str;
      Some (st, true)
  end.

(** [f"{year:04d}-{month:02d}"] *)
Definition date_prefix (year month : Z) : string :=
  format_0wd 4 year +:+ "-" +:+ format_0wd 2 month.

(** The loop body's [int(row["date"].split("-")[2])]; [None] is
    [IndexError] or [ValueError]. *)
Definition day_of (date_str : string) : option Z :=
  split "-" date_str !! 2%nat ≫= py_int.

Fixpoint collect_days (rows : list completion) (acc : gmap Z (list Z))
  : option (gmap Z (list Z)) :=
  match rows with
  | [] => Some acc
  | row :: rows' =>
      day ← day_of (hc_date row);
      let habit_id := hc_habit_id row in
      let acc := match acc !! habit_id with
                 | None => <[habit_id := []]> acc
                 | Some _ => acc
                 end in
      collect_days rows' (<[habit_id := default [] (acc !! habit_id) ++ [day]]> acc)
  end.

(** [SELECT habit_id, date FROM habit_completions WHERE date LIKE ?] with
    the pattern [date_prefix + "%"]. *)
Definition get_habit_completions (st : store) (year month : Z)
  : option (gmap Z (list Z)) :=
  let pattern := date_prefix year month +:+ "%" in
  collect_days (filter (λ c, like pattern (hc_date c) = true) (completions st)) ∅.

(** *** Tasks and settings *)

(** [ORDER BY priority DESC, created_at]: both columns hold text, compared
    character by character. *)
Definition task_order_leb (a b : task) : bool :=
  if String.eqb (t_priority a) (t_priority b)
  then String.leb (t_created_at a) (t_created_at b)
  else String.leb (t_priority b) (t_priority a).

Definition task_order (a b : task) : Prop := task_order_leb a b = true.

#[global] Instance task_order_dec : RelDecision task_order :=
  λ a b, decide (task_order_leb a b = true).

(** [SELECT * FROM tasks WHERE date = ? ORDER BY priority DESC, created_at] *)
Definition get_tasks_for_date (st : store) (date_str : string) : list task :=
  merge_sort task_order (filter (λ t, t_date t = date_str) (tasks st)).

Definition create_task (st : store) (now title date_str priority : string)
    (start_time end_time : option string) : store * Z :=
  let task_id := tasks_seq st + 1 in
  (mk_store (sch st) (habits st) (habits_seq st) (completions st)
     (completions_seq st)
     (tasks st ++ [mk_task task_id title date_str 0 priority start_time end_time now])
     task_id (settings st),
   task_id).

Definition toggle_task (st : store) (task_id : Z) : option (store * bool) :=
  task_id ← bind_int task_id;
  let st :=
    set_tasks st
      ((λ t, if t_id t =? task_id
             then mk_task (t_id t) (t_title t) (t_date t)
                    (if t_completed t =? 1 then 0 else 1)
                    (t_priority t) (t_start_time t) (t_end_time t) (t_created_at t)
             else t) <$> tasks st) in
  Some (st, match head (filter (λ t, t_id t = task_id) (tasks st)) with
            | Some row => negb (t_completed row =? 0)
            | None => false
            end).

Definition delete_task (st : store) (task_id : Z) : option (store * bool) :=
  task_id ← bind_int task_id;
  let rowcount := Z.of_nat (length (filter (λ t, t_id t = task_id) (tasks st))) in
  Some (set_tasks st (filter (λ t, t_id t ≠ task_id) (tasks st)), 0 <? rowcount).

Definition get_setting (st : store) (key default_value : string) : string :=
  default default_value (settings st !! key).

Definition set_setting (st : store) (key value : string) : store :=
  mk_store (sch st) (habits st) (habits_seq st) (completions st)
    (completions_seq st) (tasks st) (tasks_seq st) (<[key := value]> (settings st)).

End Store.

Import Store.

(** ** Analytics *)

(** Python numbers as the rate computations produce them: an [int], or a
    [float] obtained by true division.  The arithmetic of [float] is kept
    abstract; nothing proved below depends on it. *)
Class Floats := {
  float : Type;
  float_of_int : Z → float;
  float_add : float → float → float;
  float_mul : float → float → float;
  float_div : float → float → float;
  float_round : float → Z → float
}.

Module Analytics.
Section WithFloats.
Context `{Floats}.

Inductive num :=
  | Int (z : Z)
  | Float (f : float).

Definition to_float (x : num) : float :=
  match x with
  | Int z => float_of_int z
  | Float f => f
  end.

(** [x / d] for an [int] divisor; [None] is [ZeroDivisionError]. *)
Definition truediv (x : num) (d : Z) : option num :=
  if d =? 0 then None
  else Some (Float (float_div (to_float x) (float_of_int d))).

Definition mul (x y : num) : num :=
  match x, y with
  | Int a, Int b => Int (a * b)
  | _, _ => Float (float_mul (to_float x) (to_float y))
  end.

Definition add (x y : num) : num :=
  match x, y with
  | Int a, Int b => Int (a + b)
  | _, _ => Float (float_add (to_float x) (to_float y))
  end.

(** [round(x, 1)]: an [int] is returned unchanged. *)
Definition round1 (x : num) : num :=
  match x with
  | Int z => Int z
  | Float f => Float (float_round f 1)
  end.

(** [sum(xs)] *)
Definition sum (xs : list num) : num := foldl add (Int 0) xs.

(** [(part / total * 100) if total > 0 else 0] *)
Definition rate (part total : Z) : option num :=
  if 0 <? total then q ← truediv (Int part) total; Some (mul q (Int 100))
  else Some (Int 0).

Definition count_habits (st : store) : Z := Z.of_nat (length (habits st)).

(** [SELECT COUNT( * ) FROM habit_completions WHERE date = ?] *)
Definition count_completions_on (st : store) (date_str : string) : Z :=
  Z.of_nat (length (filter (λ c, hc_date c = date_str) (completions st))).

Definition tasks_on (st : store) (date_str : string) : list task :=
  filter (λ t, t_date t = date_str) (tasks st).

(** [d.strftime("%a")], from [d.weekday() = (d.toordinal() + 6) % 7]. *)
Definition weekday (ordinal : Z) : Z := (ordinal + 6) `mod` 7.
Definition day_abbr (ordinal : Z) : string :=
  nth (Z.to_nat (weekday ordinal))
    ["Mon"; "Tue"; "Wed"; "Thu"; "Fri"; "Sat"; "Sun"] "".

(** *** [get_statistics] *)

(** [SELECT DISTINCT date FROM habit_completions ORDER BY date DESC LIMIT 30] *)
Definition recent_dates (st : store) : list string :=
  take 30 (merge_sort (flip String.le) (remove_dups (hc_date <$> completions st))).

(** The streak loop over [range(30)]; returning early is [break]. *)
Fixpoint streak_loop (dates : list string) (today : Z) (range : list Z)
    (streak : Z) : option Z :=
  match range with
  | [] => Some streak
  | i :: range' =>
      check_date ← fromordinal (today - i);
      let check_date_str := isoformat check_date in
      if bool_decide (check_date_str ∈ dates)
      then streak_loop dates today range' (streak + 1)
      else if 0 <? i then Some streak
      else streak_loop dates today range' streak
  end.

Record weekly_entry := mk_weekly_entry {
  w_date : string;
  w_day : string;
  w_day_num : option Z;
  w_percentage : num;
  w_completed : Z
}.

Record statistics := mk_statistics {
  s_total_habits : Z;
  s_today_completions : Z;
  s_today_tasks_total : Z;
  s_today_tasks_done : Z;
  s_streak : Z;
  s_weekly_data : list weekly_entry;
  s_completion_rate : num
}.

Definition get_statistics (st : store) (today : Z) : option statistics :=
  today_date ← fromordinal today;
  let today_str := isoformat today_date in
  let total_habits := count_habits st in
  let today_completions := count_completions_on st today_str in
  let today_tasks_total := Z.of_nat (length (tasks_on st today_str)) in
  let today_tasks_done :=
    Z.of_nat (length (filter (λ t, t_completed t = 1) (tasks_on st today_str))) in
  let dates := recent_dates st in
  streak ← streak_loop dates today (seqZ 0 30) 0;
  weekly_data ←
    mapM (λ i,
        day_date ← fromordinal (today - i);
        let day_str := isoformat day_date in
        let completed := count_completions_on st day_str in
        percentage ← rate completed total_habits;
        Some (mk_weekly_entry day_str (day_abbr (today - i)) None
                (round1 percentage) completed))
      [6; 5; 4; 3; 2; 1; 0];
  completion_rate ← rate today_completions total_habits;
  Some (mk_statistics total_habits today_completions today_tasks_total
          today_tasks_done streak weekly_data (round1 completion_rate)).

(** *** [get_weekly_data] *)

Definition get_weekly_data (st : store) (start_date_str : string)
  : option (list weekly_entry) :=
  let total_habits := count_habits st in
  start ← strptime start_date_str;
  mapM (λ i,
      day_date ← fromordinal (toordinal start + i);
      let day_str := isoformat day_date in
      let completed := count_completions_on st day_str in
      percentage ← rate completed total_habits;
      Some (mk_weekly_entry day_str (day_abbr (toordinal start + i))
              (Some (day day_date)) (round1 percentage) completed))
    (seqZ 0 7).

(** *** [get_daily_report] *)

Record daily_report := mk_daily_report {
  r_date : string;
  r_habits : list (habit * Z);
  r_tasks : list task;
  r_habits_completed : Z;
  r_habits_total : Z;
  r_tasks_completed : Z;
  r_tasks_total : Z;
  r_habit_rate : num;
  r_task_rate : num;
  r_overall_score : num
}.

(** [habits h LEFT JOIN habit_completions hc ON h.id = hc.habit_id AND
    hc.date = ?], in the order [h.sort_order, h.id]. *)
Definition habits_left_join (st : store) (target_date : string) : list (habit * Z) :=
  h ← get_all_habits st;
  match sql_select_completion st (h_id h) target_date with
  | [] => [(h, 0)]
  | matches => (λ _, (h, 1)) <$> matches
  end.

(** [ORDER BY start_time, id] *)
Definition task_leb (a b : task) : bool :=
  match t_start_time a, t_start_time b with
  | None, None => t_id a <=? t_id b
  | None, Some _ => true
  | Some _, None => false
  | Some x, Some y =>
      if String.eqb x y then t_id a <=? t_id b else String.leb x y
  end.
Definition task_le (a b : task) : Prop := task_leb a b = true.
#[global] Instance task_le_dec : RelDecision task_le :=
  λ a b, decide (task_leb a b = true).

Definition get_daily_report (st : store) (target_date : string)
  : option daily_report :=
  let habits := habits_left_join st target_date in
  let tasks := merge_sort task_le (tasks_on st target_date) in
  let habits_completed := Z.of_nat (length (filter (λ h, h.2 ≠ 0) habits)) in
  let tasks_completed := Z.of_nat (length (filter (λ t, t_completed t ≠ 0) tasks)) in
  habit_rate ←
    match habits with
    | [] => Some (Int 0)
    | _ => q ← truediv (Int habits_completed) (Z.of_nat (length habits));
           Some (mul q (Int 100))
    end;
  task_rate ←
    match tasks with
    | [] => Some (Int 0)
    | _ => q ← truediv (Int tasks_completed) (Z.of_nat (length tasks));
           Some (mul q (Int 100))
    end;
  overall_score ←
    match habits, tasks with
    | [], [] => Some (Int 0)
    | _, _ => truediv (add habit_rate task_rate) 2
    end;
  Some (mk_daily_report target_date habits tasks habits_completed
          (Z.of_nat (length habits)) tasks_completed (Z.of_nat (length tasks))
          (round1 habit_rate) (round1 task_rate) (round1 overall_score)).

(** *** [get_monthly_trends] *)

Record daily_entry := mk_daily_entry {
  d_date : string;
  d_day : Z;
  d_habits_done : Z;
  d_habits_total : Z;
  d_habit_rate : num;
  d_tasks_done : Z;
  d_tasks_total : Z;
  d_task_rate : num
}.

Record monthly_trends := mk_monthly_trends {
  m_year : Z;
  m_month : Z;
  m_daily_data : list daily_entry;
  m_avg_habit_rate : num;
  m_avg_task_rate : num
}.

(** [calendar.monthrange(year, month)[1]]; [None] is [IllegalMonthError]. *)
Definition monthrange_days (year month : Z) : option Z :=
  if (1 <=? month) && (month <=? 12) then Some (days_in_month year month)
  else None.

Definition get_monthly_trends (st : store) (year month : Z)
  : option monthly_trends :=
  let total_habits := count_habits st in
  days_in_month ← monthrange_days year month;
  daily_data ←
    mapM (λ day,
        let date_str :=
          (if year <? 0 then String "-" (str_nat (- year)) else str_nat year)
          +:+ "-" +:+ format_0wd 2 month +:+ "-" +:+ format_0wd 2 day in
        let habits_done := count_completions_on st date_str in
        let tasks_total := Z.of_nat (length (tasks_on st date_str)) in
        let tasks_done := foldr Z.add 0 (t_completed <$> tasks_on st date_str) in
        habit_rate ← rate habits_done total_habits;
        task_rate ← rate tasks_done tasks_total;
        Some (mk_daily_entry date_str day habits_done total_habits
                (round1 habit_rate) tasks_done tasks_total (round1 task_rate)))
      (seqZ 1 days_in_month);
  avg_habit_rate ←
    match daily_data with
    | [] => Some (Int 0)
    | _ => truediv (sum (d_habit_rate <$> daily_data))
             (Z.of_nat (length daily_data))
    end;
  let with_tasks := filter (λ d, 0 < d_tasks_total d) daily_data in
  let task_days := Z.of_nat (length with_tasks) in
  avg_task_rate ←
    (if 0 <? task_days then truediv (sum (d_task_rate <$> with_tasks)) task_days
     else Some (Int 0));
  Some (mk_monthly_trends year month daily_data (round1 avg_habit_rate)
          (round1 avg_task_rate)).

(** *** [get_habit_streaks] *)

Record habit_streak := mk_habit_streak {
  hs_id : Z;
  hs_name : string;
  hs_icon : string;
  hs_color : string;
  hs_current_streak : Z;
  hs_best_streak : Z;
  hs_total_completions : Z
}.

(** [SELECT date FROM habit_completions WHERE habit_id = ? ORDER BY date DESC] *)
Definition completion_dates (st : store) (habit_id : Z) : list string :=
  merge_sort (flip String.le)
    (hc_date <$> filter (λ c, hc_habit_id c = habit_id) (completions st)).

(** The [while True] walk.  [check_date] is the date of ordinal [n]; at
    [date.min] the step [check_date -= timedelta(days=1)] raises
    [OverflowError], which is the [None] at [0]. *)
Fixpoint current_streak_loop (completions : list string) (n : nat)
    (current_streak : Z) : option Z :=
  match n with
  | O => None
  | S n' =>
      let date_str := isoformat (ord2ymd (Z.of_nat n)) in
      if bool_decide (date_str ∈ completions)
      then current_streak_loop completions n' (current_streak + 1)
      else Some current_streak
  end.

Definition date_le (a b : date) : Prop := date_leb a b = true.
#[global] Instance date_le_dec : RelDecision date_le :=
  λ a b, decide (date_leb a b = true).

(** The scan [for i in range(1, len(sorted_dates))], [prev] being
    [sorted_dates[i-1]], closed by the final [max]. *)
Fixpoint best_scan (prev : date) (rest : list date) (streak best_streak : Z) : Z :=
  match rest with
  | [] => Z.max best_streak streak
  | d :: rest' =>
      if toordinal d - toordinal prev =? 1
      then best_scan d rest' (streak + 1) best_streak
      else best_scan d rest' 1 (Z.max best_streak streak)
  end.

Definition best_streak_of (completions : list string) : option Z :=
  match completions with
  | [] => Some 0
  | _ =>
      dates ← mapM strptime completions;
      match merge_sort date_le dates with
      | [] => Some 0
      | first :: rest => Some (best_scan first rest 1 0)
      end
  end.

Definition habit_streak_of (st : store) (today : Z) (h : habit)
  : option habit_streak :=
  let completions := completion_dates st (h_id h) in
  _ ← fromordinal today;
  current_streak ← current_streak_loop completions (Z.to_nat today) 0;
  best_streak ← best_streak_of completions;
  Some (mk_habit_streak (h_id h) (h_name h) (h_icon h) (h_color h)
          current_streak best_streak (Z.of_nat (length completions))).

Definition get_habit_streaks (st : store) (today : Z) : option (list habit_streak) :=
  mapM (habit_streak_of st today) (get_all_habits st).

(** *** [get_analytics_summary] *)

Record analytics_summary := mk_analytics_summary {
  a_best_streak : Z;
  a_best_streak_habit : option string;
  a_most_consistent_habit : option string;
  a_most_consistent_completions : Z;
  a_total_habit_completions : Z;
  a_total_tasks_completed : Z;
  a_week_habit_completions : Z;
  a_week_tasks_completed : Z;
  a_today_completion_rate : num;
  a_habit_streaks : list habit_streak
}.

(** [max(xs, key=..., default=None)]: the first maximal element. *)
Definition max_by (key : habit_streak → Z) (xs : list habit_streak)
  : option habit_streak :=
  foldl (λ best x,
      match best with
      | None => Some x
      | Some b => if key b <? key x then Some x else Some b
      end) None xs.

Definition get_analytics_summary (st : store) (today : Z)
  : option analytics_summary :=
  today_date ← fromordinal today;
  let today_str := isoformat today_date in
  habit_streaks ← get_habit_streaks st today;
  let best_streak :=
    match hs_best_streak <$> habit_streaks with
    | [] => 0
    | x :: xs => foldl Z.max x xs
    end in
  let best_habit :=
    head (filter (λ h, hs_best_streak h = best_streak) habit_streaks) in
  let most_consistent := max_by hs_total_completions habit_streaks in
  let total_habit_completions := Z.of_nat (length (completions st)) in
  let total_tasks_completed :=
    Z.of_nat (length (filter (λ t, t_completed t = 1) (tasks st))) in
  week_start ← fromordinal (today - weekday today);
  let week_start_str := isoformat week_start in
  let week_habit_completions :=
    Z.of_nat (length (filter (λ c, String.le week_start_str (hc_date c))
                        (completions st))) in
  let week_tasks_completed :=
    Z.of_nat (length (filter (λ t, String.le week_start_str (t_date t)
                                   ∧ t_completed t = 1) (tasks st))) in
  let total_habits := count_habits st in
  let today_completions := count_completions_on st today_str in
  today_rate ← rate today_completions total_habits;
  Some (mk_analytics_summary best_streak (hs_name <$> best_habit)
          (hs_name <$> most_consistent)
          (from_option hs_total_completions 0 most_consistent)
          total_habit_completions total_tasks_completed
          week_habit_completions week_tasks_completed
          (round1 today_rate) habit_streaks).

End WithFloats.
End Analytics.

Import Analytics.

(** An instance of the float interface with exact rational arithmetic and
    an identity rounding, for evaluating the analytics on examples. *)
#[local] Instance exact_floats : Floats := {|
  float := Qc;
  float_of_int z := Q2Qc (inject_Z z);
  float_add := Qcplus;
  float_mul := Qcmult;
  float_div := Qcdiv;
  float_round := λ q _, q
|}.

(** * Properties *)

(** ** The embedding on concrete inputs *)

Section Examples.

Example date_of_string :
  toordinal <$> strptime "2024-01-01" = Some 738886
  ∧ strptime "2024-1-5" = Some (mk_date 2024 1 5)
  ∧ strptime "2024-02-29" = Some (mk_date 2024 2 29)
  ∧ strptime "2023-02-29" = None
  ∧ strptime "2024-13-01" = None
  ∧ strptime "2024-01-01T10:00" = None
  ∧ strptime "someday" = None.
Proof. by vm_compute. Qed.

Example string_of_date :
  isoformat <$> fromordinal 738886 = Some "2024-01-01"
  ∧ isoformat <$> fromordinal 1 = Some "0001-01-01"
  ∧ isoformat <$> fromordinal MAXORDINAL = Some "9999-12-31"
  ∧ isoformat <$> fromordinal 730179 = Some "2000-02-29"
  ∧ fromordinal 0 = None.
Proof. by vm_compute. Qed.

Example formatting :
  format_0wd 4 2024 = "2024" ∧ format_0wd 2 6 = "06" ∧ format_0wd 4 (-1) = "-001"
  ∧ format_0wd 4 12345 = "12345" ∧ date_prefix 2024 6 = "2024-06".
Proof. by vm_compute. Qed.

Example like_patterns :
  like "2024-06%" "2024-06-01" = true
  ∧ like "2024-06%" "2024-07-06" = false
  ∧ like "a_c%" "ABCD" = true
  ∧ like "%-01" "2024-06-01" = true.
Proof. by vm_compute. Qed.

Example int_of_string :
  py_int "01" = Some 1 ∧ py_int " 7 " = Some 7 ∧ py_int "-12" = Some (-12)
  ∧ py_int "+3" = Some 3 ∧ py_int "1_0" = Some 10
  ∧ py_int "" = None ∧ py_int "1_" = None ∧ py_int "_1" = None
  ∧ py_int "0x1" = None
  ∧ split "-" "2024-06-01" = ["2024"; "06"; "01"].
Proof. by vm_compute. Qed.

(** The worked example of the specification: create "Read", toggle
    2024-06-01 twice, ask for June 2024 after the first toggle. *)
Example read_habit :
  let '(st, created) :=
    create_habit (init_database empty_store) "2024-06-01 09:00:00" "Read" "✓" "#6366F1" in
  created = (1, "Read", "✓", "#6366F1")
  ∧ ∃ st1 st2,
      toggle_habit_completion st 1 "2024-06-01" = Some (st1, true)
      ∧ toggle_habit_completion st1 1 "2024-06-01" = Some (st2, false)
      ∧ get_habit_completions st1 2024 6 = Some {[ 1 := [1] ]}
      ∧ get_habit_completions st2 2024 6 = Some ∅.
Proof.
  cbn -[toggle_habit_completion get_habit_completions]. split; [done|].
  eexists _, _. split; [by vm_compute|]. split; [by vm_compute|].
  split; by vm_compute.
Qed.

End Examples.

(** ** Operations on ids that bind *)

Section Binding.

(** What each operation with an id parameter does once the id is bound: the
    statements of the function, on an id in the range of [sqlite_int]. *)
Definition delete_habit_bound (st : store) (habit_id : Z) : store * bool :=
  let conn := get_connection in
  let st := sql_delete_completions_of st habit_id in
  let '(st, rowcount) := sql_delete_habit conn st habit_id in
  let deleted := 0 <? rowcount in
  (st, deleted).

Fixpoint update_order_loop_bound (st : store) (index : Z) (habit_ids : list Z)
  : store :=
  match habit_ids with
  | [] => st
  | habit_id :: rest =>
      update_order_loop_bound (sql_update_sort_order st index habit_id)
        (index + 1) rest
  end.

Definition update_habits_order_bound (st : store) (habit_ids : list Z)
  : store * bool :=
  (update_order_loop_bound st 0 habit_ids, true).

Definition toggle_habit_completion_bound (st : store) (habit_id : Z)
    (date_str : string) : option (store * bool) :=
  let conn := get_connection in
  let existing := head (sql_select_completion st habit_id date_str) in
  match existing with
  | Some _ => Some (sql_delete_completion st habit_id date_str, false)
  | None =>
      st ← sql_insert_completion conn st habit_id date_str;
      Some (st, true)
  end.

Definition toggle_task_bound (st : store) (task_id : Z) : store * bool :=
  let st :=
    set_tasks st
      ((λ t, if t_id t =? task_id
             then mk_task (t_id t) (t_title t) (t_date t)
                    (if t_completed t =? 1 then 0 else 1)
                    (t_priority t) (t_start_time t) (t_end_time t) (t_created_at t)
             else t) <$> tasks st) in
  (st, match head (filter (λ t, t_id t = task_id) (tasks st)) with
       | Some row => negb (t_completed row =? 0)
       | None => false
       end).

Definition delete_task_bound (st : store) (task_id : Z) : store * bool :=
  let rowcount := Z.of_nat (length (filter (λ t, t_id t = task_id) (tasks st))) in
  (set_tasks st (filter (λ t, t_id t ≠ task_id) (tasks st)), 0 <? rowcount).

Lemma sqlite_int_range (n : Z) : sqlite_int n = true ↔ - 2 ^ 63 ≤ n < 2 ^ 63.
Proof. unfold sqlite_int. rewrite andb_true_iff, Z.leb_le, Z.ltb_lt. done. Qed.

Lemma delete_habit_cases (st : store) (habit_id : Z) :
  delete_habit st habit_id
  = if sqlite_int habit_id then Some (delete_habit_bound st habit_id) else None.
Proof. unfold delete_habit, bind_int. by destruct (sqlite_int habit_id). Qed.

Lemma update_order_loop_cases (habit_ids : list Z) (st : store) (index : Z) :
  update_order_loop st index habit_ids
  = if forallb sqlite_int habit_ids
    then Some (update_order_loop_bound st index habit_ids) else None.
Proof.
  revert st index. induction habit_ids as [|habit_id rest IH]; intros st index.
  { done. }
  cbn [update_order_loop update_order_loop_bound forallb]. unfold bind_int.
  destruct (sqlite_int habit_id); [|done]. cbn [mbind option_bind andb].
  apply IH.
Qed.

Lemma update_habits_order_cases (st : store) (habit_ids : list Z) :
  update_habits_order st habit_ids
  = if forallb sqlite_int habit_ids
    then Some (update_habits_order_bound st habit_ids) else None.
Proof.
  unfold update_habits_order. rewrite update_order_loop_cases.
  by destruct (forallb sqlite_int habit_ids).
Qed.

Lemma toggle_habit_completion_cases (st : store) (habit_id : Z) (date_str : string) :
  toggle_habit_completion st habit_id date_str
  = if sqlite_int habit_id
    then toggle_habit_completion_bound st habit_id date_str else None.
Proof. unfold toggle_habit_completion, bind_int. by destruct (sqlite_int habit_id). Qed.

Lemma toggle_task_cases (st : store) (task_id : Z) :
  toggle_task st task_id
  = if sqlite_int task_id then Some (toggle_task_bound st task_id) else None.
Proof. unfold toggle_task, bind_int. by destruct (sqlite_int task_id). Qed.

Lemma delete_task_cases (st : store) (task_id : Z) :
  delete_task st task_id
  = if sqlite_int task_id then Some (delete_task_bound st task_id) else None.
Proof. unfold delete_task, bind_int. by destruct (sqlite_int task_id). Qed.

(** A call that returns had an id in range, and did what the statements do. *)
Lemma delete_habit_Some (st st' : store) (habit_id : Z) (deleted : bool) :
  delete_habit st habit_id = Some (st', deleted) →
  sqlite_int habit_id = true ∧ delete_habit_bound st habit_id = (st', deleted).
Proof.
  rewrite delete_habit_cases. destruct (sqlite_int habit_id); [|done].
  intros Heq. split; [done|]. by apply (inj Some).
Qed.

Lemma update_habits_order_Some (st st' : store) (habit_ids : list Z) (success : bool) :
  update_habits_order st habit_ids = Some (st', success) →
  forallb sqlite_int habit_ids = true
  ∧ update_habits_order_bound st habit_ids = (st', success).
Proof.
  rewrite update_habits_order_cases. destruct (forallb sqlite_int habit_ids); [|done].
  intros Heq. split; [done|]. by apply (inj Some).
Qed.

Lemma toggle_habit_completion_Some (st st' : store) (habit_id : Z)
    (date_str : string) (new_state : bool) :
  toggle_habit_completion st habit_id date_str = Some (st', new_state) →
  sqlite_int habit_id = true
  ∧ toggle_habit_completion_bound st habit_id date_str = Some (st', new_state).
Proof.
  rewrite toggle_habit_completion_cases. by destruct (sqlite_int habit_id).
Qed.

Lemma toggle_task_Some (st st' : store) (task_id : Z) (new_state : bool) :
  toggle_task st task_id = Some (st', new_state) →
  sqlite_int task_id = true ∧ toggle_task_bound st task_id = (st', new_state).
Proof.
  rewrite toggle_task_cases. destruct (sqlite_int task_id); [|done].
  intros Heq. split; [done|]. by apply (inj Some).
Qed.

Lemma delete_task_Some (st st' : store) (task_id : Z) (deleted : bool) :
  delete_task st task_id = Some (st', deleted) →
  sqlite_int task_id = true ∧ delete_task_bound st task_id = (st', deleted).
Proof.
  rewrite delete_task_cases. destruct (sqlite_int task_id); [|done].
  intros Heq. split; [done|]. by apply (inj Some).
Qed.

End Binding.

(** ** Deleting a habit (C8) *)

Section DeleteHabit.

Lemma collect_days_absent (rows : list completion) (acc res : gmap Z (list Z)) (k : Z) :
  collect_days rows acc = Some res →
  acc !! k = None →
  (∀ c, c ∈ rows → hc_habit_id c ≠ k) →
  res !! k = None.
Proof.
  revert acc. induction rows as [|row rows IH]; intros acc Hres Hacc Hrows.
  - simpl in Hres. by simplify_eq.
  - simpl in Hres. destruct (day_of (hc_date row)) as [d|]; [|done].
    simpl in Hres. eapply IH; [exact Hres| |].
    + assert (hc_habit_id row ≠ k) by (apply Hrows; left).
      rewrite lookup_insert_ne by done.
      destruct (acc !! hc_habit_id row); [done|].
      by rewrite lookup_insert_ne.
    + intros c Hc. apply Hrows. by right.
Qed.

Lemma filter_length_pos {A} (P : A → Prop) `{!∀ x, Decision (P x)} (l : list A) :
  (0 <? Z.of_nat (length (filter P l))) = true ↔ ∃ x, x ∈ l ∧ P x.
Proof.
  rewrite Z.ltb_lt. split.
  - destruct (filter P l) as [|x l'] eqn:E; [simpl; lia|]. intros _.
    assert (x ∈ filter P l) as Hx by (rewrite E; left).
    apply list_elem_of_filter in Hx as [??]. eauto.
  - intros (x & Hx & HP).
    assert (x ∈ filter P l) as Hin by (by apply list_elem_of_filter).
    destruct (filter P l); [by apply not_elem_of_nil in Hin|simpl; lia].
Qed.

Lemma delete_habit_bound_effect (st : store) (habit_id : Z) :
  let st' := (delete_habit_bound st habit_id).1 in
  let deleted := (delete_habit_bound st habit_id).2 in
  habits st' = filter (λ h, h_id h ≠ habit_id) (habits st)
  ∧ completions st' = filter (λ c, hc_habit_id c ≠ habit_id) (completions st)
  ∧ (∀ h, h ∈ habits st' → h_id h ≠ habit_id)
  ∧ (∀ c, c ∈ completions st' → hc_habit_id c ≠ habit_id)
  ∧ (∀ date_str, sql_select_completion st' habit_id date_str = [])
  ∧ completion_dates st' habit_id = []
  ∧ (∀ year month res,
       get_habit_completions st' year month = Some res → res !! habit_id = None)
  ∧ (deleted = true ↔ ∃ h, h ∈ habits st ∧ h_id h = habit_id)
  ∧ delete_habit_bound st' habit_id = (st', false).
Proof.
  intros st' deleted. subst st' deleted. unfold delete_habit_bound. simpl.
  assert (Hc : ∀ c, c ∈ filter (λ c, hc_habit_id c ≠ habit_id) (completions st)
                 → hc_habit_id c ≠ habit_id).
  { intros c Hc. by apply list_elem_of_filter in Hc as [? _]. }
  assert (Hnone : ∀ (P : completion → Prop) `{!∀ c, Decision (P c)},
             (∀ c, P c → hc_habit_id c = habit_id) →
             filter P (filter (λ c, hc_habit_id c ≠ habit_id) (completions st)) = []).
  { intros P ? HP. apply elem_of_nil_inv. intros c Hin.
    apply list_elem_of_filter in Hin as [HPc Hin]. by apply (Hc c Hin), HP. }
  split_and!; try done.
  - intros h Hh. by apply list_elem_of_filter in Hh as [? _].
  - intros date_str. unfold sql_select_completion. simpl.
    apply Hnone. by intros c [? _].
  - unfold completion_dates. simpl. by rewrite Hnone.
  - intros year month res Hres. unfold get_habit_completions in Hres. simpl in Hres.
    eapply collect_days_absent; [exact Hres|apply lookup_empty|].
    intros c Hin. apply list_elem_of_filter in Hin as [_ Hin]. by apply Hc.
  - apply filter_length_pos.
  - f_equal.
    + unfold set_habits, set_completions, sql_delete_completions_of. simpl.
      f_equal.
      * rewrite list_filter_filter. apply list_filter_iff. tauto.
      * rewrite list_filter_filter. apply list_filter_iff. tauto.
    + apply not_true_is_false. rewrite filter_length_pos.
      intros (h & Hh & Heq). by apply list_elem_of_filter in Hh as [? _].
Qed.

Lemma filter_keeps_all {A} (P : A → Prop) `{!∀ x, Decision (P x)} (l : list A) :
  (∀ x, x ∈ l → P x) → filter P l = l.
Proof.
  induction l as [|x l IH]; [done|]. intros Hl.
  rewrite filter_cons_True by (apply Hl; left).
  f_equal. apply IH. intros y Hy. apply Hl. by right.
Qed.

(** The store with a completion for habit 7 and no habit: what toggling a
    date of an unknown habit leaves on a new database. *)
Definition orphaned : store :=
  mk_store (mk_schema true true true true true true true) [] 0
    [mk_completion 1 7 "2024-06-01" 1] 1 [] 0 ∅.

(** C8 (as amended).  For an id outside the 64-bit range [delete_habit]
    raises.  For an id in range it returns, having removed the habit row and
    every completion recorded under the id, so that every later query for
    that habit's completions is empty; it returns [true] exactly when a
    habit row with that id existed; deleting the same id again changes
    nothing and returns [false]; and so does deleting an id that names no
    habit and occurs in no completion, which is every id without a habit
    when each completion belongs to a habit of the store. *)
Theorem delete_habit_cascades (st : store) (habit_id : Z) :
  (sqlite_int habit_id = false → delete_habit st habit_id = None)
  ∧ (sqlite_int habit_id = true →
     ∃ st' deleted,
       delete_habit st habit_id = Some (st', deleted)
       ∧ habits st' = filter (λ h, h_id h ≠ habit_id) (habits st)
       ∧ completions st' = filter (λ c, hc_habit_id c ≠ habit_id) (completions st)
       ∧ (∀ h, h ∈ habits st' → h_id h ≠ habit_id)
       ∧ (∀ c, c ∈ completions st' → hc_habit_id c ≠ habit_id)
       ∧ (∀ date_str, sql_select_completion st' habit_id date_str = [])
       ∧ completion_dates st' habit_id = []
       ∧ (∀ year month res,
            get_habit_completions st' year month = Some res →
            res !! habit_id = None)
       ∧ (deleted = true ↔ ∃ h, h ∈ habits st ∧ h_id h = habit_id)
       ∧ delete_habit st' habit_id = Some (st', false)
       ∧ ((∀ h, h ∈ habits st → h_id h ≠ habit_id) →
          (∀ c, c ∈ completions st → hc_habit_id c ≠ habit_id) →
          st' = st ∧ deleted = false)
       ∧ ((∀ h, h ∈ habits st → h_id h ≠ habit_id) →
          (∀ c, c ∈ completions st → ∃ h, h ∈ habits st ∧ h_id h = hc_habit_id c) →
          st' = st ∧ deleted = false)).
Proof.
  rewrite !delete_habit_cases. split; [by intros ->|]. intros Hrange.
  rewrite Hrange.
  destruct (delete_habit_bound_effect st habit_id)
    as (Hh & Hc & Hnoh & Hnoc & Hsel & Hdates & Hmonth & Hdel & Hagain).
  exists (delete_habit_bound st habit_id).1, (delete_habit_bound st habit_id).2.
  assert (Hnoop : (∀ h, h ∈ habits st → h_id h ≠ habit_id) →
                  (∀ c, c ∈ completions st → hc_habit_id c ≠ habit_id) →
                  (delete_habit_bound st habit_id).1 = st
                  ∧ (delete_habit_bound st habit_id).2 = false).
  { intros Hhabits Hcompletions. split.
    - unfold delete_habit_bound, sql_delete_habit, sql_delete_completions_of,
        set_habits, set_completions. cbn.
      rewrite !filter_keeps_all by done. by destruct st.
    - apply not_true_is_false. rewrite Hdel. intros (h & Hin & Heq).
      by apply (Hhabits h). }
  split_and!; try done.
  - by rewrite delete_habit_cases, Hrange, Hagain.
  - intros Hhabits Hri. apply Hnoop; [done|].
    intros c Hin Heq. destruct (Hri c Hin) as (h & Hh' & Hid).
    apply (Hhabits h Hh'). congruence.
Qed.

(** The claim as it was stated fails on an id that names no habit.  On
    [orphaned], which toggling reaches, no habit has id 7, yet deleting
    habit 7 removes a completion while it returns [false]; and an id of
    64 bits and more makes the call raise, on any store. *)
Lemma delete_habit_absent_id_not_noop :
  toggle_habit_completion (init_database empty_store) 7 "2024-06-01"
  = Some (orphaned, true)
  ∧ (∀ h, h ∈ habits orphaned → h_id h ≠ 7)
  ∧ (∃ st', delete_habit orphaned 7 = Some (st', false)
            ∧ completions orphaned = [mk_completion 1 7 "2024-06-01" 1]
            ∧ completions st' = []
            ∧ st' ≠ orphaned)
  ∧ delete_habit orphaned (2 ^ 63) = None.
Proof.
  split_and!.
  - by vm_compute.
  - intros h Hh. by apply elem_of_nil in Hh.
  - eexists. split_and!; [by vm_compute|done|done|]. intros Heq.
    by apply (f_equal completions) in Heq.
  - by vm_compute.
Qed.

End DeleteHabit.

(** ** Reordering never reports failure (C10) *)

Section UpdateOrder.

Lemma set_habits_id (st : store) : set_habits st (habits st) = st.
Proof. by destruct st. Qed.

Lemma sql_update_sort_order_missing (st : store) (index habit_id : Z) :
  (∀ h, h ∈ habits st → h_id h ≠ habit_id) →
  sql_update_sort_order st index habit_id = st.
Proof.
  intros Hne. unfold sql_update_sort_order.
  transitivity (set_habits st (habits st)); [|apply set_habits_id]. f_equal.
  transitivity (id <$> habits st); [|apply list_fmap_id].
  apply list_fmap_ext. intros i h Hi. simpl.
  assert (h_id h ≠ habit_id) as Hh by (eapply Hne, list_elem_of_lookup_2, Hi).
  by apply Z.eqb_neq in Hh as ->.
Qed.

Lemma update_order_loop_frame (habit_ids : list Z) (st : store) (index : Z) :
  let st' := update_order_loop_bound st index habit_ids in
  h_id <$> habits st' = h_id <$> habits st
  ∧ sch st' = sch st ∧ habits_seq st' = habits_seq st
  ∧ completions st' = completions st ∧ completions_seq st' = completions_seq st
  ∧ tasks st' = tasks st ∧ tasks_seq st' = tasks_seq st
  ∧ settings st' = settings st
  ∧ (∀ i h, habits st !! i = Some h → h_id h ∉ habit_ids →
            habits st' !! i = Some h).
Proof.
  revert st index. induction habit_ids as [|hid ids IH]; intros st index; simpl.
  { by split_and!. }
  destruct (IH (sql_update_sort_order st index hid) (index + 1))
    as (Hids & ? & ? & ? & ? & ? & ? & ? & Hframe).
  split_and!; try done.
  - rewrite Hids. simpl. rewrite <-list_fmap_compose.
    apply list_fmap_ext. intros i h _. simpl. by destruct (h_id h =? hid).
  - intros i h Hi Hnotin. apply not_elem_of_cons in Hnotin as [Hh Hnotin].
    apply Hframe; [|done].
    simpl. rewrite list_lookup_fmap, Hi. simpl.
    by apply Z.eqb_neq in Hh as ->.
Qed.

Lemma update_order_loop_missing (habit_ids : list Z) (st : store) (index : Z) :
  (∀ hid h, hid ∈ habit_ids → h ∈ habits st → h_id h ≠ hid) →
  update_order_loop_bound st index habit_ids = st.
Proof.
  revert index. induction habit_ids as [|hid ids IH]; intros index Hne; simpl.
  { done. }
  rewrite sql_update_sort_order_missing by (intros h; apply Hne; left).
  apply IH. intros hid' h ?. apply Hne. by right.
Qed.

Lemma update_habits_order_bound_effect (st : store) (habit_ids : list Z) :
  let st' := (update_habits_order_bound st habit_ids).1 in
  (update_habits_order_bound st habit_ids).2 = true
  ∧ update_habits_order_bound st [] = (st, true)
  ∧ h_id <$> habits st' = h_id <$> habits st
  ∧ completions st' = completions st
  ∧ tasks st' = tasks st
  ∧ settings st' = settings st
  ∧ (∀ i h, habits st !! i = Some h → h_id h ∉ habit_ids →
            habits st' !! i = Some h)
  ∧ (∀ index hid, (∀ h, h ∈ habits st → h_id h ≠ hid) →
                  sql_update_sort_order st index hid = st)
  ∧ ((∀ hid h, hid ∈ habit_ids → h ∈ habits st → h_id h ≠ hid) →
     update_habits_order_bound st habit_ids = (st, true)).
Proof.
  simpl. destruct (update_order_loop_frame habit_ids st 0)
    as (? & ? & ? & ? & ? & ? & ? & ? & ?).
  split_and!; try done.
  - intros. by apply sql_update_sort_order_missing.
  - intros Hne. unfold update_habits_order_bound.
    by rewrite update_order_loop_missing.
Qed.

Lemma forallb_sqlite_int (habit_ids : list Z) :
  forallb sqlite_int habit_ids = true
  ↔ ∀ hid, hid ∈ habit_ids → sqlite_int hid = true.
Proof.
  rewrite forallb_forall. split.
  - intros Hall hid Hin. by apply Hall, list_elem_of_In.
  - intros Hall hid Hin. by apply Hall, list_elem_of_In.
Qed.

(** C10 (as amended).  [update_habits_order] raises exactly when the list
    holds an id outside the 64-bit range.  On every other list, the empty
    list and ids of no habit included, it returns [true].  It then has added
    and removed no row, touched only the habits table, left every habit
    whose id is not listed as it was, and an id without a habit has changed
    nothing: a list none of whose ids exists leaves the store as it was
    and still yields [true]. *)
Theorem update_habits_order_always_true (st : store) (habit_ids : list Z) :
  (update_habits_order st habit_ids = None
   ↔ ∃ hid, hid ∈ habit_ids ∧ sqlite_int hid = false)
  ∧ update_habits_order st [] = Some (st, true)
  ∧ ((∀ hid, hid ∈ habit_ids → sqlite_int hid = true) →
     ∃ st',
       update_habits_order st habit_ids = Some (st', true)
       ∧ h_id <$> habits st' = h_id <$> habits st
       ∧ completions st' = completions st
       ∧ tasks st' = tasks st
       ∧ settings st' = settings st
       ∧ (∀ i h, habits st !! i = Some h → h_id h ∉ habit_ids →
                 habits st' !! i = Some h)
       ∧ (∀ index hid, (∀ h, h ∈ habits st → h_id h ≠ hid) →
                       sql_update_sort_order st index hid = st)
       ∧ ((∀ hid h, hid ∈ habit_ids → h ∈ habits st → h_id h ≠ hid) →
          st' = st)).
Proof.
  rewrite !update_habits_order_cases. split_and!.
  - destruct (forallb sqlite_int habit_ids) eqn:E.
    + split; [done|]. intros (hid & Hin & Hout).
      rewrite forallb_sqlite_int in E. by rewrite (E hid Hin) in Hout.
    + split; [|done]. intros _.
      apply not_true_iff_false in E. rewrite forallb_sqlite_int in E.
      destruct (decide (Exists (λ hid, sqlite_int hid = false) habit_ids))
        as [Hex|Hnex].
      * apply Exists_exists in Hex. done.
      * exfalso. apply E. intros hid Hin.
        destruct (sqlite_int hid) eqn:Ehid; [done|].
        exfalso. apply Hnex, Exists_exists. by exists hid.
  - done.
  - intros Hall. apply forallb_sqlite_int in Hall. rewrite Hall.
    destruct (update_habits_order_bound_effect st habit_ids)
      as (_ & _ & Hids & Hc & Ht & Hs & Hrest & Hskip & Hnone).
    exists (update_habits_order_bound st habit_ids).1.
    split_and!; try done. intros Hne. by rewrite (Hnone Hne).
Qed.

End UpdateOrder.

(** ** Toggling a completion (C1) *)

Section Toggle.

Definition completion_key (c : completion) : Z * string :=
  (hc_habit_id c, hc_date c).

Definition completion_keys (st : store) : list (Z * string) :=
  completion_key <$> completions st.

(** The state of a [(habit, date)] pair: Complete when a record exists. *)
Definition is_complete (st : store) (habit_id : Z) (date_str : string) : bool :=
  bool_decide ((habit_id, date_str) ∈ completion_keys st).

(** The constraint [UNIQUE(habit_id, date)] of the completions table. *)
Definition unique_completions (st : store) : Prop :=
  NoDup (completion_keys st).

Lemma select_completion_nil (st : store) (habit_id : Z) (date_str : string) :
  sql_select_completion st habit_id date_str = []
  ↔ (habit_id, date_str) ∉ completion_keys st.
Proof.
  unfold sql_select_completion, completion_keys. split.
  - intros Hnil Hin. apply list_elem_of_fmap in Hin as (c & Hk & Hc).
    apply (filter_nil_not_elem_of _ _ c Hnil); [|done].
    unfold completion_key in Hk. by simplify_eq.
  - intros Hnotin. apply elem_of_nil_inv. intros c Hc.
    apply list_elem_of_filter in Hc as [[<- <-] Hc].
    apply Hnotin, list_elem_of_fmap. by exists c.
Qed.

Lemma filter_other_keys (cs : list completion) (habit_id : Z) (date_str : string) :
  (habit_id, date_str) ∉ completion_key <$> cs →
  filter (λ c, ¬ (hc_habit_id c = habit_id ∧ hc_date c = date_str)) cs = cs.
Proof.
  induction cs as [|c cs IH]; [done|]. intros Hnotin.
  rewrite fmap_cons, not_elem_of_cons in Hnotin. destruct Hnotin as [Hne Hnotin].
  rewrite filter_cons_True.
  - by rewrite IH.
  - intros [<- <-]. by apply Hne.
Qed.

Lemma delete_then_insert_keys (cs : list completion) (habit_id : Z) (date_str : string) :
  NoDup (completion_key <$> cs) →
  (habit_id, date_str) ∈ completion_key <$> cs →
  (completion_key
     <$> filter (λ c, ¬ (hc_habit_id c = habit_id ∧ hc_date c = date_str)) cs)
  ++ [(habit_id, date_str)]
  ≡ₚ completion_key <$> cs.
Proof.
  induction cs as [|c cs IH]; intros Hnd Hin.
  { by apply elem_of_nil in Hin. }
  rewrite fmap_cons in Hnd, Hin. apply NoDup_cons in Hnd as [Hc Hnd].
  destruct (decide (hc_habit_id c = habit_id ∧ hc_date c = date_str)) as [[E1 E2]|Hne].
  - rewrite filter_cons_False by tauto.
    assert (completion_key c = (habit_id, date_str)) as Hk
      by (unfold completion_key; by rewrite E1, E2).
    rewrite Hk in Hc. rewrite filter_other_keys by done.
    rewrite fmap_cons, Hk. by rewrite Permutation_app_comm.
  - rewrite filter_cons_True by done. rewrite !fmap_cons. simpl.
    f_equiv. apply IH; [done|].
    apply elem_of_cons in Hin as [Hk|Hin]; [|done].
    unfold completion_key in Hk. exfalso. apply Hne. by simplify_eq.
Qed.

Lemma toggle_twice_bound (st : store) (habit_id : Z) (date_str : string) :
  unique_completions st →
  ∃ st1 b1 st2 b2,
    toggle_habit_completion_bound st habit_id date_str = Some (st1, b1)
    ∧ toggle_habit_completion_bound st1 habit_id date_str = Some (st2, b2)
    ∧ b1 = negb (is_complete st habit_id date_str)
    ∧ b1 = is_complete st1 habit_id date_str
    ∧ b2 = negb (is_complete st1 habit_id date_str)
    ∧ b2 = is_complete st2 habit_id date_str
    ∧ is_complete st2 habit_id date_str = is_complete st habit_id date_str
    ∧ sch st2 = sch st
    ∧ habits st2 = habits st
    ∧ tasks st2 = tasks st
    ∧ settings st2 = settings st
    ∧ completion_keys st2 ≡ₚ completion_keys st
    ∧ unique_completions st2
    ∧ (is_complete st habit_id date_str = false →
       completions st2 = completions st
       ∧ sql_select_completion st2 habit_id date_str = [])
    ∧ completions_seq st2 = completions_seq st + 1
    ∧ habits_seq st2 = habits_seq st
    ∧ tasks_seq st2 = tasks_seq st
    ∧ (is_complete st habit_id date_str = true →
       completions st2
       = filter (λ c, ¬ (hc_habit_id c = habit_id ∧ hc_date c = date_str))
           (completions st)
         ++ [mk_completion (completions_seq st + 1) habit_id date_str 1]).
Proof.
  intros Hnd.
  destruct (decide ((habit_id, date_str) ∈ completion_keys st)) as [Hin|Hnotin].
  - (* Complete, then Incomplete, then Complete again *)
    set (st1 := sql_delete_completion st habit_id date_str).
    assert (Hsel1 : sql_select_completion st1 habit_id date_str = []).
    { unfold sql_select_completion, st1. simpl. rewrite list_filter_filter.
      apply elem_of_nil_inv. intros c Hc.
      apply list_elem_of_filter in Hc. tauto. }
    assert (Hnot1 := Hsel1). apply select_completion_nil in Hnot1.
    assert (Ht1 : toggle_habit_completion_bound st habit_id date_str = Some (st1, false)).
    { unfold toggle_habit_completion_bound.
      destruct (sql_select_completion st habit_id date_str) eqn:Hsel; [|done].
      by apply select_completion_nil in Hsel. }
    set (st2 := mk_store (sch st1) (habits st1) (habits_seq st1)
                  (completions st1
                   ++ [mk_completion (completions_seq st1 + 1) habit_id date_str 1])
                  (completions_seq st1 + 1) (tasks st1) (tasks_seq st1)
                  (settings st1)).
    assert (Ht2 : toggle_habit_completion_bound st1 habit_id date_str = Some (st2, true)).
    { unfold toggle_habit_completion_bound, sql_insert_completion. by rewrite Hsel1. }
    assert (Hin2 : (habit_id, date_str) ∈ completion_keys st2).
    { unfold completion_keys, st2. simpl. rewrite fmap_app, elem_of_app.
      right. by left. }
    assert (Hperm := delete_then_insert_keys (completions st) habit_id date_str Hnd Hin).
    exists st1, false, st2, true. unfold is_complete.
    rewrite (bool_decide_eq_true_2 _ Hin), (bool_decide_eq_true_2 _ Hin2),
      (bool_decide_eq_false_2 _ Hnot1).
    split_and!; try done.
    + unfold completion_keys, st2. simpl. by rewrite fmap_app.
    + unfold unique_completions, completion_keys, st2. simpl.
      rewrite fmap_app. simpl. by rewrite Hperm.
  - (* Incomplete, then Complete, then Incomplete again *)
    assert (Hsel := Hnotin). apply select_completion_nil in Hsel.
    set (row := mk_completion (completions_seq st + 1) habit_id date_str 1).
    set (st1 := mk_store (sch st) (habits st) (habits_seq st)
                  (completions st ++ [row]) (completions_seq st + 1)
                  (tasks st) (tasks_seq st) (settings st)).
    assert (Ht1 : toggle_habit_completion_bound st habit_id date_str = Some (st1, true)).
    { unfold toggle_habit_completion_bound, sql_insert_completion. by rewrite Hsel. }
    assert (Hin1 : (habit_id, date_str) ∈ completion_keys st1).
    { unfold completion_keys, st1. simpl. rewrite fmap_app, elem_of_app.
      right. by left. }
    set (st2 := sql_delete_completion st1 habit_id date_str).
    assert (Ht2 : toggle_habit_completion_bound st1 habit_id date_str = Some (st2, false)).
    { unfold toggle_habit_completion_bound.
      destruct (sql_select_completion st1 habit_id date_str) eqn:Hsel1; [|done].
      by apply select_completion_nil in Hsel1. }
    assert (Hback : completions st2 = completions st).
    { unfold st2, st1. simpl. rewrite filter_app, filter_other_keys by done.
      rewrite filter_cons_False by (simpl; tauto). by rewrite app_nil_r. }
    assert (Hkeys : completion_keys st2 = completion_keys st).
    { unfold completion_keys. by rewrite Hback. }
    exists st1, true, st2, false. unfold is_complete. rewrite Hkeys.
    rewrite (bool_decide_eq_true_2 _ Hin1), (bool_decide_eq_false_2 _ Hnotin).
    split_and!; try done.
    + unfold unique_completions. by rewrite Hkeys.
    + intros _. split; [done|]. apply select_completion_nil. by rewrite Hkeys.
Qed.

(** C1 (as amended).  On a store that satisfies [UNIQUE(habit_id, date)],
    and for a habit id in the 64-bit range, two successive toggles of the
    same pair both succeed; each returns the resulting state of the pair
    ([true] when it created the record, [false] when it deleted it);
    afterwards the habits, tasks and settings are untouched and the
    completion records, as pairs of habit and date, are those of the
    original store.  The store itself is not the original one: the id
    counter of the completions has advanced by one.  When the pair was
    Incomplete, the completions table is literally the original one, with no
    record for the pair left behind; when it was Complete, its record is
    back with the new id, at the end of the table.  For a habit id outside
    the 64-bit range the call raises. *)
Theorem toggle_twice_round_trip (st : store) (habit_id : Z) (date_str : string) :
  unique_completions st →
  (sqlite_int habit_id = false →
   toggle_habit_completion st habit_id date_str = None)
  ∧ (sqlite_int habit_id = true →
     ∃ st1 b1 st2 b2,
       toggle_habit_completion st habit_id date_str = Some (st1, b1)
       ∧ toggle_habit_completion st1 habit_id date_str = Some (st2, b2)
       ∧ b1 = negb (is_complete st habit_id date_str)
       ∧ b1 = is_complete st1 habit_id date_str
       ∧ b2 = negb (is_complete st1 habit_id date_str)
       ∧ b2 = is_complete st2 habit_id date_str
       ∧ is_complete st2 habit_id date_str = is_complete st habit_id date_str
       ∧ sch st2 = sch st
       ∧ habits st2 = habits st
       ∧ tasks st2 = tasks st
       ∧ settings st2 = settings st
       ∧ completion_keys st2 ≡ₚ completion_keys st
       ∧ unique_completions st2
       ∧ (is_complete st habit_id date_str = false →
          completions st2 = completions st
          ∧ sql_select_completion st2 habit_id date_str = [])
       ∧ completions_seq st2 = completions_seq st + 1
       ∧ habits_seq st2 = habits_seq st
       ∧ tasks_seq st2 = tasks_seq st
       ∧ st2 ≠ st
       ∧ (is_complete st habit_id date_str = true →
          completions st2
          = filter (λ c, ¬ (hc_habit_id c = habit_id ∧ hc_date c = date_str))
              (completions st)
            ++ [mk_completion (completions_seq st + 1) habit_id date_str 1])).
Proof.
  intros Hnd. split.
  { rewrite toggle_habit_completion_cases. by intros ->. }
  intros Hrange.
  destruct (toggle_twice_bound st habit_id date_str Hnd)
    as (st1 & b1 & st2 & b2 & H1 & H2 & Hb1 & Hs1 & Hb2 & Hs2 & Hsame & Hsch & Hh
        & Ht & Hset & Hkeys & Hu & Hinc & Hseq & Hhs & Hts & Hcomp).
  exists st1, b1, st2, b2.
  rewrite !toggle_habit_completion_cases, Hrange.
  split_and!; try done.
  intros Heq. rewrite Heq in Hseq. lia.
Qed.

End Toggle.

(** ** Completions and the habits they reference (C9) *)

Section ReferentialIntegrity.

Definition referential_integrity (st : store) : Prop :=
  ∀ c, c ∈ completions st → ∃ h, h ∈ habits st ∧ h_id h = hc_habit_id c.

(** The stores the engine can produce, starting from a missing database
    file. *)
Inductive reachable : store → Prop :=
  | reach_first_start : reachable (init_database empty_store)
  | reach_restart st : reachable st → reachable (init_database st)
  | reach_create_habit st now name icon color :
      reachable st → reachable (create_habit st now name icon color).1
  | reach_delete_habit st habit_id st' deleted :
      reachable st →
      delete_habit st habit_id = Some (st', deleted) →
      reachable st'
  | reach_update_habits_order st habit_ids st' success :
      reachable st →
      update_habits_order st habit_ids = Some (st', success) →
      reachable st'
  | reach_toggle_habit_completion st habit_id date_str st' new_state :
      reachable st →
      toggle_habit_completion st habit_id date_str = Some (st', new_state) →
      reachable st'
  | reach_create_task st now title date_str priority start_time end_time :
      reachable st →
      reachable (create_task st now title date_str priority start_time end_time).1
  | reach_toggle_task st task_id st' new_state :
      reachable st →
      toggle_task st task_id = Some (st', new_state) →
      reachable st'
  | reach_delete_task st task_id st' deleted :
      reachable st →
      delete_task st task_id = Some (st', deleted) →
      reachable st'
  | reach_set_setting st key value :
      reachable st → reachable (set_setting st key value).

(** Induction over the reachable stores in which a call that returned is
    replaced by what its statements did. *)
Lemma reachable_bound_ind (P : store → Prop) :
  P (init_database empty_store) →
  (∀ st, reachable st → P st → P (init_database st)) →
  (∀ st now name icon color,
     reachable st → P st → P (create_habit st now name icon color).1) →
  (∀ st habit_id, reachable st → P st → P (delete_habit_bound st habit_id).1) →
  (∀ st habit_ids,
     reachable st → P st → P (update_habits_order_bound st habit_ids).1) →
  (∀ st habit_id date_str st' new_state,
     reachable st → P st →
     toggle_habit_completion_bound st habit_id date_str = Some (st', new_state) →
     P st') →
  (∀ st now title date_str priority start_time end_time,
     reachable st → P st →
     P (create_task st now title date_str priority start_time end_time).1) →
  (∀ st task_id, reachable st → P st → P (toggle_task_bound st task_id).1) →
  (∀ st task_id, reachable st → P st → P (delete_task_bound st task_id).1) →
  (∀ st key value, reachable st → P st → P (set_setting st key value)) →
  ∀ st, reachable st → P st.
Proof.
  intros Hstart Hrestart Hcreate Hdelete Horder Htoggle Htask Htoggle_task
    Hdelete_task Hset st Hr.
  induction Hr as [|st Hr IH|st now name icon color Hr IH
                   |st habit_id st' deleted Hr IH Hd
                   |st habit_ids st' success Hr IH Hu
                   |st habit_id date_str st' new_state Hr IH Ht
                   |st now title date_str priority start_time end_time Hr IH
                   |st task_id st' new_state Hr IH Ht
                   |st task_id st' deleted Hr IH Hd|st key value Hr IH].
  - done.
  - by apply Hrestart.
  - by apply Hcreate.
  - apply delete_habit_Some in Hd as [_ Hd].
    replace st' with (delete_habit_bound st habit_id).1 by (by rewrite Hd).
    by apply Hdelete.
  - apply update_habits_order_Some in Hu as [_ Hu].
    replace st' with (update_habits_order_bound st habit_ids).1 by (by rewrite Hu).
    by apply Horder.
  - apply toggle_habit_completion_Some in Ht as [_ Ht]. by eapply Htoggle.
  - by apply Htask.
  - apply toggle_task_Some in Ht as [_ Ht].
    replace st' with (toggle_task_bound st task_id).1 by (by rewrite Ht).
    by apply Htoggle_task.
  - apply delete_task_Some in Hd as [_ Hd].
    replace st' with (delete_task_bound st task_id).1 by (by rewrite Hd).
    by apply Hdelete_task.
  - by apply Hset.
Qed.

(** The delete path keeps the invariant: it removes the completions by
    hand before the habit row. *)
Lemma delete_habit_keeps_integrity (st : store) (habit_id : Z) :
  referential_integrity st → referential_integrity (delete_habit_bound st habit_id).1.
Proof.
  intros Hri c Hc. simpl in Hc. apply list_elem_of_filter in Hc as [Hne Hc].
  destruct (Hri c Hc) as (h & Hh & Heq). exists h. split; [|done].
  simpl. apply list_elem_of_filter. split; [congruence|done].
Qed.

(** On a connection that enforces foreign keys the insert for an unknown
    habit is rejected. *)
Lemma insert_rejected_with_foreign_keys (st : store) (habit_id : Z) (date_str : string) :
  (∀ h, h ∈ habits st → h_id h ≠ habit_id) →
  sql_insert_completion (mk_connection true) st habit_id date_str = None.
Proof.
  intros Hne. unfold sql_insert_completion. case_bool_decide; [done|].
  simpl. rewrite bool_decide_eq_true_2; [done|].
  apply elem_of_nil_inv. intros h Hh.
  apply list_elem_of_filter in Hh as [? Hh]. by apply (Hne h).
Qed.

(** C9 (refuted on the code).  On the freshly initialised store, which has
    no habit at all, toggling a completion for habit 7 succeeds, returns
    [true] and stores a completion whose [habit_id] matches no habit: a
    reachable store violates referential integrity. *)
Theorem toggle_unknown_habit_leaves_orphan :
  ∃ st',
    toggle_habit_completion (init_database empty_store) 7 "2024-06-01"
    = Some (st', true)
    ∧ reachable st'
    ∧ habits st' = []
    ∧ completions st' = [mk_completion 1 7 "2024-06-01" 1]
    ∧ ¬ referential_integrity st'.
Proof.
  set (st' := mk_store (mk_schema true true true true true true true) [] 0
                [mk_completion 1 7 "2024-06-01" 1] 1 [] 0 ∅).
  assert (Ht : toggle_habit_completion (init_database empty_store) 7 "2024-06-01"
               = Some (st', true)) by (vm_compute; reflexivity).
  exists st'. split_and!; try done.
  - eapply reach_toggle_habit_completion; [apply reach_first_start|exact Ht].
  - intros Hri. destruct (Hri (mk_completion 1 7 "2024-06-01" 1)) as (h & Hh & _).
    + by left.
    + by apply elem_of_nil in Hh.
Qed.

End ReferentialIntegrity.

(** ** The startup migration (C7) *)

Section Migration.

Lemma backfill_sort_order_idempotent (st : store) :
  backfill_sort_order (backfill_sort_order st) = backfill_sort_order st.
Proof.
  unfold backfill_sort_order. simpl. f_equal.
  rewrite <-list_fmap_compose. apply list_fmap_ext. intros i h _. simpl.
  unfold lacks_sort_order.
  destruct (h_sort_order h) as [o|] eqn:Ho; simpl.
  - destruct (o =? 0) eqn:Hz; simpl.
    + destruct (h_id h =? 0) eqn:Hid; [|done].
      apply Z.eqb_eq in Hid. unfold set_sort_order. simpl. by rewrite Hid.
    + by rewrite Ho, Hz.
  - destruct (h_id h =? 0) eqn:Hid; [|done].
    apply Z.eqb_eq in Hid. unfold set_sort_order. simpl. by rewrite Hid.
Qed.

Definition full_schema : schema := mk_schema true true true true true true true.

(** The net effect of the migration on a store at any schema version. *)
Lemma init_database_effect (st : store) :
  init_database st
  = mk_store full_schema
      (habits
         (backfill_sort_order
            (if tbl_habits (sch st) && col_sort_order (sch st) then st
             else set_habits st ((λ h, set_sort_order h (Some 0)) <$> habits st))))
      (habits_seq st) (completions st) (completions_seq st)
      (tasks (try_pass alter_add_end_time (try_pass alter_add_start_time
                (create_table_tasks st))))
      (tasks_seq st) (settings st).
Proof.
  destruct st as [[h c t s cs ce co] hs ? cps ? ts ? ?].
  destruct h, c, t, s, cs, ce, co; reflexivity.
Qed.

(** Adding a column that is already there is a caught error and changes
    nothing. *)
Lemma alter_existing_column_is_noop (st : store) :
  (col_start_time (sch st) = true → try_pass alter_add_start_time st = st)
  ∧ (col_end_time (sch st) = true → try_pass alter_add_end_time st = st)
  ∧ (col_sort_order (sch st) = true → try_pass alter_add_sort_order st = st).
Proof.
  unfold try_pass, alter_add_start_time, alter_add_end_time, alter_add_sort_order.
  split_and!; intros ->; by rewrite andb_false_r.
Qed.

Lemma migrated_store_is_fixed (st : store) :
  sch st = full_schema →
  create_table_tasks st = st
  ∧ try_pass alter_add_start_time st = st
  ∧ try_pass alter_add_end_time st = st.
Proof.
  intros Hsch. unfold create_table_tasks, try_pass, alter_add_start_time,
    alter_add_end_time. by rewrite Hsch.
Qed.

Lemma store_eta (st : store) :
  mk_store (sch st) (habits st) (habits_seq st) (completions st)
    (completions_seq st) (tasks st) (tasks_seq st) (settings st) = st.
Proof. by destruct st. Qed.

(** Running the migration again on a migrated store changes nothing. *)
Lemma init_database_idempotent (st : store) :
  init_database (init_database st) = init_database st.
Proof.
  set (st1 := init_database st).
  assert (Hsch : sch st1 = full_schema)
    by (unfold st1; by rewrite init_database_effect).
  assert (Hhabits : habits (backfill_sort_order st1) = habits st1).
  { unfold st1. rewrite init_database_effect.
    set (st0 := if tbl_habits (sch st) && col_sort_order (sch st) then st else _).
    change (habits (backfill_sort_order (backfill_sort_order st0))
            = habits (backfill_sort_order st0)).
    by rewrite backfill_sort_order_idempotent. }
  rewrite (init_database_effect st1).
  destruct (migrated_store_is_fixed st1 Hsch) as (-> & -> & ->).
  rewrite Hsch. cbn [tbl_habits col_sort_order full_schema andb].
  rewrite Hhabits, <-Hsch. apply store_eta.
Qed.

(** The migration keeps every row of every table, and of a habit everything
    but [sort_order]. *)
Lemma init_database_keeps_rows (st : store) :
  let st' := init_database st in
  completions st' = completions st
  ∧ (λ h, (h_id h, h_name h, h_icon h, h_color h, h_created_at h)) <$> habits st'
    = (λ h, (h_id h, h_name h, h_icon h, h_color h, h_created_at h)) <$> habits st
  ∧ (λ t, (t_id t, t_title t, t_date t, t_completed t, t_priority t, t_created_at t))
      <$> tasks st'
    = (λ t, (t_id t, t_title t, t_date t, t_completed t, t_priority t, t_created_at t))
        <$> tasks st
  ∧ settings st' = settings st.
Proof.
  cbv zeta. rewrite init_database_effect.
  cbn [completions habits tasks settings]. split_and!; try done.
  - destruct (tbl_habits (sch st) && col_sort_order (sch st));
      cbn [backfill_sort_order set_habits habits];
      rewrite <-?list_fmap_compose; apply list_fmap_ext; intros i h _;
      cbn [compose]; by destruct (lacks_sort_order _).
  - unfold try_pass, alter_add_end_time, alter_add_start_time, create_table_tasks.
    destruct st as [[h c t s cs ce co] hs ? cps ? ts ? ?].
    cbn [sch tbl_tasks col_start_time col_end_time tasks].
    destruct t, cs, ce; cbn; rewrite <-?list_fmap_compose; try done;
      by apply list_fmap_ext.
Qed.

(** A habit whose order is neither NULL nor 0 keeps it. *)
Lemma init_database_keeps_nonzero_order (st : store) (h : habit) (o : Z) :
  tbl_habits (sch st) = true →
  col_sort_order (sch st) = true →
  h ∈ habits st → h_sort_order h = Some o → o ≠ 0 →
  h ∈ habits (init_database st).
Proof.
  intros Htbl Hcol Hh Ho Hne. rewrite init_database_effect, Htbl, Hcol.
  cbn [andb habits backfill_sort_order set_habits].
  apply list_elem_of_fmap. exists h. split; [|done].
  unfold lacks_sort_order. rewrite Ho. by apply Z.eqb_neq in Hne as ->.
Qed.

(** Three habits, created and then given their ids as order by a restart. *)
Definition three_habits : store :=
  let st := init_database empty_store in
  let st := (create_habit st "2024-01-01 08:00:00" "Read" "R" "#6366F1").1 in
  let st := (create_habit st "2024-01-01 08:01:00" "Run" "U" "#6366F1").1 in
  let st := (create_habit st "2024-01-01 08:02:00" "Code" "C" "#6366F1").1 in
  init_database st.

Lemma three_habits_reachable : reachable three_habits.
Proof.
  unfold three_habits. cbv zeta.
  apply reach_restart, reach_create_habit, reach_create_habit, reach_create_habit,
    reach_first_start.
Defined.

(** C7 (refuted on the code).  After [update_habits_order [3; 1; 2]] habit 3
    holds the assigned order 0 and the listing is 3, 1, 2.  The next startup
    takes that 0 for a missing order and overwrites it with the id 3: the
    listing is 1, 2, 3 again. *)
Theorem startup_overwrites_assigned_order_zero :
  ∃ st,
    update_habits_order three_habits [3; 1; 2] = Some (st, true)
    ∧ reachable st
    ∧ (λ h, (h_id h, h_sort_order h)) <$> habits three_habits
      = [(1, Some 1); (2, Some 2); (3, Some 3)]
    ∧ (λ h, (h_id h, h_sort_order h)) <$> habits st
      = [(1, Some 1); (2, Some 2); (3, Some 0)]
    ∧ h_id <$> get_all_habits st = [3; 1; 2]
    ∧ (λ h, (h_id h, h_sort_order h)) <$> habits (init_database st)
      = [(1, Some 1); (2, Some 2); (3, Some 3)]
    ∧ h_id <$> get_all_habits (init_database st) = [1; 2; 3].
Proof.
  exists (update_habits_order_bound three_habits [3; 1; 2]).1.
  assert (Hcall : update_habits_order three_habits [3; 1; 2]
                  = Some ((update_habits_order_bound three_habits [3; 1; 2]).1, true))
    by (vm_compute; reflexivity).
  split_and!; try (vm_compute; reflexivity).
  exact (reach_update_habits_order _ _ _ _ three_habits_reachable Hcall).
Qed.

End Migration.

(** ** Reordering and listing (C6) *)

Section Reorder.

Ltac order_arith :=
  unfold habit_le, habit_leb, sort_order_ltb, sort_order_leb in *;
  repeat case_match; simplify_eq;
  rewrite ?orb_true_iff, ?andb_true_iff, ?Z.ltb_lt, ?Z.leb_le in *;
  try lia.

#[global] Instance habit_le_total : Total habit_le.
Proof. intros a b. order_arith. Qed.

#[global] Instance habit_le_trans : Transitive habit_le.
Proof. intros a b c Hab Hbc. order_arith. Qed.

Lemma habit_le_antisym_id (a b : habit) :
  habit_le a b → habit_le b a → h_id a = h_id b.
Proof. intros Hab Hba. order_arith. Qed.

Lemma get_all_habits_sorted (st : store) :
  StronglySorted habit_le (get_all_habits st).
Proof. apply StronglySorted_merge_sort; apply _. Qed.

Lemma get_all_habits_perm (st : store) : get_all_habits st ≡ₚ habits st.
Proof. apply merge_sort_Permutation. Qed.

Lemma StronglySorted_filter {A} (R : relation A) (P : A → Prop)
    `{!∀ x, Decision (P x)} (l : list A) :
  StronglySorted R l → StronglySorted R (filter P l).
Proof.
  induction 1 as [|x l Hl IH Hx]; [constructor|].
  rewrite filter_cons. case_decide; [|done].
  constructor; [done|]. rewrite Forall_forall in Hx |- *.
  intros y Hy. apply list_elem_of_filter in Hy as [_ Hy]. by apply Hx.
Qed.

Lemma filter_fmap_id (P : Z → Prop) (Q : habit → Prop)
    `{!∀ x, Decision (P x)} `{!∀ h, Decision (Q h)} (l : list habit) :
  (∀ h, Q h ↔ P (h_id h)) →
  filter P (h_id <$> l) = h_id <$> filter Q l.
Proof.
  intros HPQ. induction l as [|h l IH]; [done|].
  rewrite fmap_cons, !filter_cons, IH.
  destruct (decide (P (h_id h))), (decide (Q h)); try done; naive_solver.
Qed.

Lemma NoDup_ids_filter (Q : habit → Prop) `{!∀ h, Decision (Q h)} (l : list habit) :
  NoDup (h_id <$> l) → NoDup (h_id <$> filter Q l).
Proof.
  induction l as [|h l IH]; [done|]. rewrite fmap_cons, NoDup_cons.
  intros [Hh Hnd]. rewrite filter_cons. case_decide; [|by apply IH].
  rewrite fmap_cons. apply NoDup_cons. split; [|by apply IH].
  intros Hin. apply Hh. apply list_elem_of_fmap in Hin as (x & -> & Hx).
  apply list_elem_of_filter in Hx as [_ Hx]. by apply list_elem_of_fmap_2.
Qed.

Lemma same_id_same_row (l : list habit) (a b : habit) :
  NoDup (h_id <$> l) → a ∈ l → b ∈ l → h_id a = h_id b → a = b.
Proof.
  induction l as [|h l IH]; intros Hnd Ha Hb Heq.
  { by apply elem_of_nil in Ha. }
  rewrite fmap_cons in Hnd. apply NoDup_cons in Hnd as [Hh Hnd].
  apply elem_of_cons in Ha as [->|Ha]; apply elem_of_cons in Hb as [->|Hb].
  - done.
  - exfalso. apply Hh. rewrite Heq. by apply list_elem_of_fmap_2.
  - exfalso. apply Hh. rewrite <-Heq. by apply list_elem_of_fmap_2.
  - by apply IH.
Qed.

(** Two listings by [(sort_order, id)] of the same rows are equal, ids
    being unique. *)
Lemma sorted_listing_unique (l1 l2 : list habit) :
  NoDup (h_id <$> l1) →
  StronglySorted habit_le l1 → StronglySorted habit_le l2 →
  l1 ≡ₚ l2 → l1 = l2.
Proof.
  intros Hnd Hs1 Hs2 Hperm.
  apply (StronglySorted_unique_strong habit_le); try done.
  intros x1 x2 Hx1 Hx2 H12 H21.
  apply (same_id_same_row l1); [done|done| |by apply habit_le_antisym_id].
  by rewrite Hperm.
Qed.

(** The three updates of [update_habits_order [3; 1; 2]], row by row. *)
Definition reorder_312 (h : habit) : habit :=
  if h_id h =? 3 then set_sort_order h (Some 0)
  else if h_id h =? 1 then set_sort_order h (Some 1)
  else if h_id h =? 2 then set_sort_order h (Some 2)
  else h.

Lemma update_312_rows (st : store) :
  habits (update_habits_order_bound st [3; 1; 2]).1 = reorder_312 <$> habits st.
Proof.
  cbn. rewrite <-!list_fmap_compose. apply list_fmap_ext. intros i h _.
  unfold reorder_312. cbn.
  repeat (match goal with
          | |- context [?a =? ?b] => destruct (Z.eqb_spec a b)
          end; cbn in * ); try lia; done.
Qed.

Lemma reorder_312_id (h : habit) : h_id (reorder_312 h) = h_id h.
Proof. unfold reorder_312. by repeat case_match. Qed.

Lemma reorder_312_unlisted (h : habit) :
  h_id h ∉ [3; 1; 2] → reorder_312 h = h.
Proof.
  intros Hn. unfold reorder_312.
  repeat (case_match; [exfalso; apply Hn; set_solver by lia|]). done.
Qed.

Lemma filter_unlisted_rows (l : list habit) :
  filter (λ h, h_id h ∉ [3; 1; 2]) (reorder_312 <$> l)
  = filter (λ h, h_id h ∉ [3; 1; 2]) l.
Proof.
  induction l as [|h l IH]; [done|].
  rewrite fmap_cons, !filter_cons, IH, reorder_312_id.
  case_decide; [|done]. by rewrite reorder_312_unlisted.
Qed.

(** C6, as the code has it.  Ids being unique and habits 3, 1 and 2
    present, after [update_habits_order [3; 1; 2]]: the listed habits hold
    the orders 0, 1, 2 and every other habit is unchanged; the listing has
    the same habits and is ordered by [(sort_order, id)]; ids 3, 1, 2 occur
    in it in exactly that relative order; the other habits occur in it in
    the order they had before; if there are no other habits the listing is
    exactly 3, 1, 2; and if every other habit has an order above 2, then
    3, 1, 2 are the first three. *)
Theorem reorder_then_list (st : store) :
  NoDup (h_id <$> habits st) →
  3 ∈ h_id <$> habits st →
  1 ∈ h_id <$> habits st →
  2 ∈ h_id <$> habits st →
  ∃ st',
    update_habits_order st [3; 1; 2] = Some (st', true)
    ∧ let listing := get_all_habits st' in
      (∀ h, h ∈ listing →
            (h_id h = 3 → h_sort_order h = Some 0)
            ∧ (h_id h = 1 → h_sort_order h = Some 1)
            ∧ (h_id h = 2 → h_sort_order h = Some 2))
      ∧ (∀ h, h ∈ habits st → h_id h ∉ [3; 1; 2] → h ∈ listing)
      ∧ h_id <$> listing ≡ₚ h_id <$> habits st
      ∧ StronglySorted habit_le listing
      ∧ filter (λ i, i ∈ [3; 1; 2]) (h_id <$> listing) = [3; 1; 2]
      ∧ filter (λ h, h_id h ∉ [3; 1; 2]) listing
        = filter (λ h, h_id h ∉ [3; 1; 2]) (get_all_habits st)
      ∧ ((∀ h, h ∈ habits st → h_id h ∈ [3; 1; 2]) → h_id <$> listing = [3; 1; 2])
      ∧ ((∀ h, h ∈ habits st → h_id h ∉ [3; 1; 2] →
               ∃ o, h_sort_order h = Some o ∧ 2 < o) →
         take 3 (h_id <$> listing) = [3; 1; 2]).
Proof.
  intros Hnd H3 H1 H2.
  exists (update_habits_order_bound st [3; 1; 2]).1.
  split; [by rewrite update_habits_order_cases|].
  set (st' := (update_habits_order_bound st [3; 1; 2]).1). intros listing.
  assert (Hrows : habits st' = reorder_312 <$> habits st) by apply update_312_rows.
  assert (Hperm : listing ≡ₚ reorder_312 <$> habits st).
  { unfold listing. by rewrite get_all_habits_perm, Hrows. }
  assert (Hsorted : StronglySorted habit_le listing) by apply get_all_habits_sorted.
  assert (Hids : h_id <$> listing ≡ₚ h_id <$> habits st).
  { rewrite Hperm, <-list_fmap_compose.
    erewrite list_fmap_ext; [done|]. intros i h _. apply reorder_312_id. }
  assert (Hnd' : NoDup (h_id <$> listing)) by (by rewrite Hids).
  apply list_elem_of_fmap in H3 as (h3 & E3 & Hh3).
  apply list_elem_of_fmap in H1 as (h1 & E1 & Hh1).
  apply list_elem_of_fmap in H2 as (h2 & E2 & Hh2).
  set (h3' := set_sort_order h3 (Some 0)).
  set (h1' := set_sort_order h1 (Some 1)).
  set (h2' := set_sort_order h2 (Some 2)).
  assert (Hin3 : h3' ∈ listing).
  { rewrite Hperm. apply list_elem_of_fmap. exists h3. split; [|done].
    unfold reorder_312. by rewrite <-E3. }
  assert (Hin1 : h1' ∈ listing).
  { rewrite Hperm. apply list_elem_of_fmap. exists h1. split; [|done].
    unfold reorder_312. by rewrite <-E1. }
  assert (Hin2 : h2' ∈ listing).
  { rewrite Hperm. apply list_elem_of_fmap. exists h2. split; [|done].
    unfold reorder_312. by rewrite <-E2. }
  assert (Hlisted :
    filter (λ h, h_id h ∈ [3; 1; 2]) listing = [h3'; h1'; h2']).
  { symmetry. apply sorted_listing_unique.
    - cbn. rewrite <-E3, <-E1, <-E2. apply NoDup_cons. split; [set_solver|].
      apply NoDup_cons. split; [set_solver|]. apply NoDup_singleton.
    - repeat constructor; unfold habit_le, habit_leb; cbn;
        rewrite <-?E1, <-?E2, <-?E3; done.
    - by apply StronglySorted_filter.
    - apply NoDup_Permutation.
      + apply (NoDup_fmap_1 h_id). cbn. rewrite <-E3, <-E1, <-E2.
        apply NoDup_cons. split; [set_solver|].
        apply NoDup_cons. split; [set_solver|]. apply NoDup_singleton.
      + apply NoDup_filter. by apply (NoDup_fmap_1 h_id).
      + intros x. rewrite list_elem_of_filter. split.
        * intros Hx. assert (x ∈ listing) by set_solver.
          split; [|done].
          assert (h_id x = 3 ∨ h_id x = 1 ∨ h_id x = 2) as Hid.
          { rewrite !elem_of_cons, elem_of_nil in Hx.
            destruct Hx as [->|[->|[->|[]]]]; cbn; auto. }
          set_solver.
        * intros [Hx Hxin].
          rewrite !elem_of_cons, elem_of_nil in Hx.
          destruct Hx as [Hx|[Hx|[Hx|[]]]].
          -- assert (x = h3') as -> by
               (apply (same_id_same_row listing); try done; cbn; congruence).
             set_solver.
          -- assert (x = h1') as -> by
               (apply (same_id_same_row listing); try done; cbn; congruence).
             set_solver.
          -- assert (x = h2') as -> by
               (apply (same_id_same_row listing); try done; cbn; congruence).
             set_solver. }
  assert (Hunlisted :
    filter (λ h, h_id h ∉ [3; 1; 2]) listing
    = filter (λ h, h_id h ∉ [3; 1; 2]) (get_all_habits st)).
  { apply sorted_listing_unique.
    - by apply NoDup_ids_filter.
    - by apply StronglySorted_filter.
    - apply StronglySorted_filter, get_all_habits_sorted.
    - rewrite Hperm, filter_unlisted_rows. by rewrite get_all_habits_perm. }
  assert (Hsplit : listing ≡ₚ [h3'; h1'; h2'] ++ filter (λ h, h_id h ∉ [3; 1; 2]) listing).
  { rewrite <-Hlisted. symmetry. apply filter_app_complement. }
  split_and!.
  - intros h Hh. split_and!; intros Hid.
    + assert (h = h3') as -> by
        (apply (same_id_same_row listing); try done; cbn; congruence). done.
    + assert (h = h1') as -> by
        (apply (same_id_same_row listing); try done; cbn; congruence). done.
    + assert (h = h2') as -> by
        (apply (same_id_same_row listing); try done; cbn; congruence). done.
  - intros h Hh Hn. rewrite Hperm. apply list_elem_of_fmap. exists h.
    by rewrite reorder_312_unlisted.
  - done.
  - done.
  - rewrite (filter_fmap_id _ (λ h, h_id h ∈ [3; 1; 2])) by done.
    rewrite Hlisted. cbn. by rewrite <-E3, <-E1, <-E2.
  - done.
  - intros Hall.
    assert (filter (λ h, h_id h ∈ [3; 1; 2]) listing = listing) as Hfull.
    { clear -Hall Hperm Hrows. 
      assert (∀ h, h ∈ listing → h_id h ∈ [3; 1; 2]) as Hall'.
      { intros h Hh. rewrite Hperm in Hh.
        apply list_elem_of_fmap in Hh as (h0 & -> & Hh0).
        rewrite reorder_312_id. by apply Hall. }
      clear -Hall'. induction listing as [|x l IH]; [done|].
      rewrite filter_cons_True by (apply Hall'; left).
      f_equal. apply IH. intros h Hh. apply Hall'. by right. }
    rewrite <-Hfull, Hlisted. cbn. by rewrite <-E3, <-E1, <-E2.
  - intros Hafter.
    assert (listing
            = [h3'; h1'; h2'] ++ filter (λ h, h_id h ∉ [3; 1; 2]) listing) as ->.
    { apply sorted_listing_unique; try done.
      apply StronglySorted_app_2.
      - intros x1 x2 Hx1 Hx2.
        apply list_elem_of_filter in Hx2 as [Hn Hx2].
        rewrite Hperm in Hx2. apply list_elem_of_fmap in Hx2 as (h0 & -> & Hh0).
        rewrite reorder_312_id in Hn. rewrite reorder_312_unlisted by done.
        destruct (Hafter h0 Hh0 Hn) as (o & Ho & Hlt).
        unfold habit_le, habit_leb. rewrite Ho.
        rewrite !elem_of_cons, elem_of_nil in Hx1.
        destruct Hx1 as [->|[->|[->|[]]]]; cbn;
          apply orb_true_iff; left; apply Z.ltb_lt; lia.
      - rewrite <-Hlisted. by apply StronglySorted_filter.
      - by apply StronglySorted_filter. }
    cbn. by rewrite <-E3, <-E1, <-E2.
Qed.

(** Four habits created in one session: each holds the default order 0. *)
Definition four_habits : store :=
  let st := init_database empty_store in
  let st := (create_habit st "2024-01-01 08:00:00" "Read" "R" "#6366F1").1 in
  let st := (create_habit st "2024-01-01 08:01:00" "Run" "U" "#6366F1").1 in
  let st := (create_habit st "2024-01-01 08:02:00" "Code" "C" "#6366F1").1 in
  (create_habit st "2024-01-01 08:03:00" "Nap" "N" "#6366F1").1.

(** C6 as stated fails: with a fourth habit that still holds the default
    order 0, the listing after [update_habits_order [3; 1; 2]] is
    3, 4, 1, 2, so 3, 1, 2 are not the first three. *)
Lemma reorder_not_at_front :
  ¬ (∀ st : store,
       NoDup (h_id <$> habits st) →
       3 ∈ h_id <$> habits st → 1 ∈ h_id <$> habits st → 2 ∈ h_id <$> habits st →
       ∃ st',
         update_habits_order st [3; 1; 2] = Some (st', true)
         ∧ take 3 (h_id <$> get_all_habits st') = [3; 1; 2]).
Proof.
  intros Hclaim.
  assert (Hcall : update_habits_order four_habits [3; 1; 2]
                  = Some ((update_habits_order_bound four_habits [3; 1; 2]).1, true))
    by (vm_compute; reflexivity).
  assert (Hlist : h_id <$> get_all_habits (update_habits_order_bound four_habits [3; 1; 2]).1
                  = [3; 4; 1; 2]) by (vm_compute; reflexivity).
  assert (Hids : h_id <$> habits four_habits = [1; 2; 3; 4]) by (vm_compute; reflexivity).
  destruct (Hclaim four_habits) as (st' & Hst' & Htake).
  - rewrite Hids.
    repeat (apply NoDup_cons; split; [set_solver by lia|]). apply NoDup_nil_2.
  - rewrite Hids. set_solver.
  - rewrite Hids. set_solver.
  - rewrite Hids. set_solver.
  - rewrite Hcall in Hst'.
    assert (st' = (update_habits_order_bound four_habits [3; 1; 2]).1) as ->
      by congruence.
    rewrite Hlist in Htake. discriminate Htake.
Qed.

End Reorder.

(** ** Invariants of every reachable store *)

Section Invariants.

(** The key constraints of the schema: [UNIQUE(habit_id, date)] on
    completions, and habit ids that are unique, positive and bounded by the
    AUTOINCREMENT counter. *)
Definition store_wf (st : store) : Prop :=
  unique_completions st
  ∧ NoDup (h_id <$> habits st)
  ∧ 0 ≤ habits_seq st
  ∧ ∀ h, h ∈ habits st → 1 ≤ h_id h ≤ habits_seq st.

Lemma delete_habit_rows (st : store) (habit_id : Z) :
  habits (delete_habit_bound st habit_id).1 = filter (λ h, h_id h ≠ habit_id) (habits st)
  ∧ completions (delete_habit_bound st habit_id).1
    = filter (λ c, hc_habit_id c ≠ habit_id) (completions st)
  ∧ habits_seq (delete_habit_bound st habit_id).1 = habits_seq st.
Proof. done. Qed.

Lemma toggle_keeps_unique (st st' : store) (habit_id : Z) (date_str : string)
    (new_state : bool) :
  unique_completions st →
  toggle_habit_completion_bound st habit_id date_str = Some (st', new_state) →
  unique_completions st'
  ∧ habits st' = habits st ∧ habits_seq st' = habits_seq st.
Proof.
  intros Hu Ht. unfold toggle_habit_completion_bound in Ht.
  destruct (sql_select_completion st habit_id date_str) as [|c0 cs0] eqn:Hsel.
  - cbn [head mbind option_bind] in Ht. unfold sql_insert_completion in Ht.
    rewrite Hsel in Ht. cbn in Ht. injection Ht as <- <-.
    split; [|done]. unfold unique_completions, completion_keys. cbn [completions].
    rewrite fmap_app. apply NoDup_app. split_and!; [done| |apply NoDup_singleton].
    intros k Hk Hk'. cbn in Hk'. apply list_elem_of_singleton in Hk' as ->.
    by apply select_completion_nil in Hsel.
  - cbn [head] in Ht. injection Ht as <- <-. split; [|done].
    unfold unique_completions, completion_keys, sql_delete_completion.
    cbn [completions set_completions].
    unfold unique_completions, completion_keys in Hu. clear Hsel.
    induction (completions st) as [|c l IH]; [constructor|].
    rewrite fmap_cons in Hu. apply NoDup_cons in Hu as [Hc Hl].
    rewrite filter_cons. case_decide; [|by apply IH].
    rewrite fmap_cons. apply NoDup_cons. split; [|by apply IH].
    intros Hin. apply Hc. apply list_elem_of_fmap in Hin as (c' & -> & Hc').
    apply list_elem_of_filter in Hc' as [_ Hc']. by apply list_elem_of_fmap_2.
Qed.

Lemma filter_keeps_unique (P : completion → Prop) `{!∀ c, Decision (P c)}
    (l : list completion) :
  NoDup (completion_key <$> l) → NoDup (completion_key <$> filter P l).
Proof.
  induction l as [|c l IH]; [constructor|].
  rewrite fmap_cons, NoDup_cons. intros [Hc Hl].
  rewrite filter_cons. case_decide; [|by apply IH].
  rewrite fmap_cons. apply NoDup_cons. split; [|by apply IH].
  intros Hin. apply Hc. apply list_elem_of_fmap in Hin as (c' & -> & Hc').
  apply list_elem_of_filter in Hc' as [_ Hc']. by apply list_elem_of_fmap_2.
Qed.

Lemma init_database_keeps_wf (st : store) :
  store_wf st → store_wf (init_database st).
Proof.
  intros (Hu & Hnd & Hseq & Hids).
  destruct (init_database_keeps_rows st) as (Hc & Hh & _).
  assert (Hid : h_id <$> habits (init_database st) = h_id <$> habits st).
  { apply (f_equal (fmap (λ x : Z * string * string * string * string, x.1.1.1.1)))
      in Hh.
    by rewrite <-!list_fmap_compose in Hh. }
  assert (habits_seq (init_database st) = habits_seq st) as Hs
    by (by rewrite init_database_effect).
  split_and!.
  - unfold unique_completions, completion_keys in *. by rewrite Hc.
  - by rewrite Hid.
  - by rewrite Hs.
  - intros h Hh'. rewrite Hs.
    apply (list_elem_of_fmap_2 h_id) in Hh'. rewrite Hid in Hh'.
    apply list_elem_of_fmap in Hh' as (h0 & -> & Hh0). by apply Hids.
Qed.

(** Every store the engine can produce satisfies the key constraints. *)
Lemma reachable_store_wf (st : store) : reachable st → store_wf st.
Proof.
  induction 1 as [|st Hr IH|st now name icon color Hr IH|st habit_id Hr IH
                  |st habit_ids Hr IH|st habit_id date_str st' new_state Hr IH Ht
                  |st now title date_str priority start_time end_time Hr IH
                  |st task_id Hr IH|st task_id Hr IH|st key value Hr IH]
    using reachable_bound_ind.
  - split_and!; [constructor|constructor|done|].
    intros h Hh. by apply elem_of_nil in Hh.
  - by apply init_database_keeps_wf.
  - destruct IH as (Hu & Hnd & Hseq & Hids).
    split_and!; cbn [create_habit fst habits habits_seq].
    + done.
    + rewrite fmap_app. apply NoDup_app. split_and!; [done| |apply NoDup_singleton].
      intros i Hi Hi'. cbn in Hi'. apply list_elem_of_singleton in Hi' as ->.
      apply list_elem_of_fmap in Hi as (h & Heq & Hh).
      specialize (Hids h Hh). lia.
    + lia.
    + intros h [Hh| ->%list_elem_of_singleton]%elem_of_app.
      * specialize (Hids h Hh). lia.
      * cbn. lia.
  - destruct IH as (Hu & Hnd & Hseq & Hids).
    destruct (delete_habit_rows st habit_id) as (Hh & Hc & Hs).
    split_and!.
    + unfold unique_completions, completion_keys in *. rewrite Hc.
      by apply filter_keeps_unique.
    + rewrite Hh. by apply NoDup_ids_filter.
    + by rewrite Hs.
    + intros h. rewrite Hh, Hs. intros [_ Hin]%list_elem_of_filter. by apply Hids.
  - destruct IH as (Hu & Hnd & Hseq & Hids).
    destruct (update_order_loop_frame habit_ids st 0)
      as (Hid & _ & Hs & Hc & _).
    split_and!.
    + unfold unique_completions, completion_keys in *. cbn. by rewrite Hc.
    + cbn. by rewrite Hid.
    + cbn. by rewrite Hs.
    + intros h Hh. cbn in Hh |- *. rewrite Hs.
      apply (list_elem_of_fmap_2 h_id) in Hh. rewrite Hid in Hh.
      apply list_elem_of_fmap in Hh as (h0 & -> & Hh0). by apply Hids.
  - destruct IH as (Hu & Hnd & Hseq & Hids).
    destruct (toggle_keeps_unique _ _ _ _ _ Hu Ht) as (Hu' & Hh & Hs).
    split_and!; [done|by rewrite Hh|by rewrite Hs|]. by rewrite Hh, Hs.
  - done.
  - done.
  - done.
  - done.
Qed.

End Invariants.

(** ** Facts about the calendar arithmetic *)

Section Calendar.

Lemma valid_date_bounds (dt : date) :
  valid_date dt = true →
  1 ≤ year dt ≤ 9999 ∧ 1 ≤ month dt ≤ 12
  ∧ 1 ≤ day dt ≤ days_in_month (year dt) (month dt).
Proof.
  unfold valid_date. rewrite !andb_true_iff, !Z.leb_le. lia.
Qed.

Lemma month_cases (m : Z) :
  1 ≤ m ≤ 12 →
  m = 1 ∨ m = 2 ∨ m = 3 ∨ m = 4 ∨ m = 5 ∨ m = 6
  ∨ m = 7 ∨ m = 8 ∨ m = 9 ∨ m = 10 ∨ m = 11 ∨ m = 12.
Proof. lia. Qed.

Lemma days_before_year_next (y : Z) :
  days_before_year (y + 1)
  = days_before_year y + 365 + (if is_leap y then 1 else 0).
Proof.
  unfold days_before_year, is_leap. replace (y + 1 - 1) with y by lia.
  destruct (Z.eqb_spec (y `mod` 4) 0), (Z.eqb_spec (y `mod` 100) 0),
    (Z.eqb_spec (y `mod` 400) 0); cbn [andb orb negb];
    Z.div_mod_to_equations; lia.
Qed.

Lemma days_before_year_mono (y1 y2 : Z) :
  y1 ≤ y2 → days_before_year y1 ≤ days_before_year y2.
Proof.
  intros Hle. unfold days_before_year. Z.div_mod_to_equations. lia.
Qed.

Lemma days_before_year_nonneg (y : Z) : 1 ≤ y → 0 ≤ days_before_year y.
Proof.
  intros Hy. unfold days_before_year. Z.div_mod_to_equations. lia.
Qed.

(** Within a year the ordinal grows with (month, day); the last day of the
    year is still below the first day of the next. *)
Lemma within_year (y m1 d1 m2 d2 : Z) :
  1 ≤ m1 ≤ 12 → 1 ≤ d1 ≤ days_in_month y m1 →
  1 ≤ m2 ≤ 12 → 1 ≤ d2 ≤ days_in_month y m2 →
  (m1 < m2 ∨ (m1 = m2 ∧ d1 < d2)) →
  days_before_month y m1 + d1 < days_before_month y m2 + d2.
Proof.
  intros Hm1 Hd1 Hm2 Hd2 Hlt. unfold days_in_month, days_before_month in *.
  apply month_cases in Hm1, Hm2.
  destruct (is_leap y);
    destruct Hm1 as [->|[->|[->|[->|[->|[->|[->|[->|[->|[->|[->| ->]]]]]]]]]]];
    destruct Hm2 as [->|[->|[->|[->|[->|[->|[->|[->|[->|[->|[->| ->]]]]]]]]]]];
    simpl in *; lia.
Qed.

Lemma year_span (y m d : Z) :
  1 ≤ m ≤ 12 → 1 ≤ d ≤ days_in_month y m →
  1 ≤ days_before_month y m + d ≤ 365 + (if is_leap y then 1 else 0).
Proof.
  intros Hm Hd. unfold days_in_month, days_before_month in *.
  apply month_cases in Hm.
  destruct (is_leap y);
    destruct Hm as [->|[->|[->|[->|[->|[->|[->|[->|[->|[->|[->| ->]]]]]]]]]]];
    simpl in *; lia.
Qed.

Lemma toordinal_positive (dt : date) : valid_date dt = true → 1 ≤ toordinal dt.
Proof.
  intros (Hy & Hm & Hd)%valid_date_bounds. unfold toordinal, ymd2ord.
  pose proof (days_before_year_nonneg (year dt)).
  pose proof (year_span (year dt) (month dt) (day dt) Hm Hd). lia.
Qed.

Definition date_lt (a b : date) : Prop :=
  year a < year b
  ∨ (year a = year b
     ∧ (month a < month b ∨ (month a = month b ∧ day a < day b))).

Lemma toordinal_lt (a b : date) :
  valid_date a = true → valid_date b = true →
  date_lt a b → toordinal a < toordinal b.
Proof.
  intros (Hya & Hma & Hda)%valid_date_bounds (Hyb & Hmb & Hdb)%valid_date_bounds Hlt.
  unfold toordinal, ymd2ord.
  destruct Hlt as [Hy|[Hy Hmd]].
  - pose proof (year_span _ _ _ Hma Hda).
    pose proof (year_span _ _ _ Hmb Hdb).
    pose proof (days_before_year_next (year a)).
    pose proof (days_before_year_mono (year a + 1) (year b)). lia.
  - rewrite Hy in *. pose proof (within_year _ _ _ _ _ Hma Hda Hmb Hdb Hmd). lia.
Qed.

Lemma date_leb_cases (a b : date) :
  date_leb a b = true ↔ date_lt a b ∨ (year a = year b ∧ month a = month b ∧ day a = day b).
Proof.
  unfold date_leb, date_lt.
  repeat rewrite ?orb_true_iff, ?andb_true_iff, ?Z.ltb_lt, ?Z.eqb_eq, ?Z.leb_le.
  lia.
Qed.

Lemma toordinal_le (a b : date) :
  valid_date a = true → valid_date b = true →
  date_le a b → toordinal a ≤ toordinal b.
Proof.
  intros Ha Hb [Hlt|(Hy & Hm & Hd)]%date_leb_cases.
  - pose proof (toordinal_lt a b Ha Hb Hlt). lia.
  - unfold toordinal. rewrite Hy, Hm, Hd. lia.
Qed.

Lemma toordinal_inj (a b : date) :
  valid_date a = true → valid_date b = true →
  toordinal a = toordinal b → a = b.
Proof.
  intros Ha Hb Heq.
  assert (date_lt a b ∨ date_lt b a
          ∨ (year a = year b ∧ month a = month b ∧ day a = day b)) as Hcases
    by (unfold date_lt; lia).
  destruct Hcases as [Hlt|[Hlt|(Hy & Hm & Hd)]].
  - pose proof (toordinal_lt a b Ha Hb Hlt). lia.
  - pose proof (toordinal_lt b a Hb Ha Hlt). lia.
  - destruct a, b. simpl in *. by subst.
Qed.

#[global] Instance date_le_total : Total date_le.
Proof.
  intros a b. unfold date_le, date_leb.
  repeat rewrite ?orb_true_iff, ?andb_true_iff, ?Z.ltb_lt, ?Z.eqb_eq, ?Z.leb_le.
  lia.
Qed.

#[global] Instance date_le_trans : Transitive date_le.
Proof.
  intros a b c. unfold date_le, date_leb.
  repeat rewrite ?orb_true_iff, ?andb_true_iff, ?Z.ltb_lt, ?Z.eqb_eq, ?Z.leb_le.
  lia.
Qed.

Lemma strptime_valid (s : string) (dt : date) :
  strptime s = Some dt → valid_date dt = true.
Proof.
  unfold strptime. intros Hs.
  destruct (parse_year s) as [[y s1]|]; [|done]. cbn [mbind option_bind] in Hs.
  destruct (expect "-" s1) as [s2|]; [|done]. cbn [mbind option_bind] in Hs.
  destruct (parse_month s2) as [[m s3]|]; [|done]. cbn [mbind option_bind] in Hs.
  destruct (expect "-" s3) as [s4|]; [|done]. cbn [mbind option_bind] in Hs.
  destruct (parse_day s4) as [[d s5]|]; [|done]. cbn [mbind option_bind] in Hs.
  destruct s5; [|done].
  destruct (valid_date (mk_date y m d)) eqn:Hv; [|done]. by simplify_eq.
Qed.

Lemma days_in_month_le_31 (y m : Z) : 1 ≤ m ≤ 12 → days_in_month y m ≤ 31.
Proof.
  intros Hm%month_cases. unfold days_in_month.
  destruct (is_leap y);
    destruct Hm as [->|[->|[->|[->|[->|[->|[->|[->|[->|[->|[->| ->]]]]]]]]]]];
    simpl; lia.
Qed.

(** *** [fromordinal] inverts [toordinal] *)

Lemma days_before_year_cycle (a b c d : Z) :
  0 ≤ a → 0 ≤ b ≤ 3 → 0 ≤ c ≤ 24 → 0 ≤ d ≤ 3 →
  days_before_year (400 * a + 100 * b + 4 * c + d + 1)
  = 146097 * a + 36524 * b + 1461 * c + 365 * d.
Proof.
  intros Ha Hb Hc Hd. unfold days_before_year.
  replace (400 * a + 100 * b + 4 * c + d + 1 - 1)
    with (400 * a + 100 * b + 4 * c + d) by lia.
  Z.div_mod_to_equations. lia.
Qed.

Lemma is_leap_cycle (a b c d : Z) :
  0 ≤ a → 0 ≤ b ≤ 3 → 0 ≤ c ≤ 24 → 0 ≤ d ≤ 3 →
  is_leap (400 * a + 100 * b + 4 * c + d + 1)
  = (d =? 3) && (negb (c =? 24) || (b =? 3)).
Proof.
  intros Ha Hb Hc Hd. unfold is_leap.
  destruct (Z.eqb_spec d 3), (Z.eqb_spec c 24), (Z.eqb_spec b 3);
    cbn [andb orb negb];
    repeat match goal with
           | |- context [?x =? 0] => destruct (Z.eqb_spec x 0)
           end; cbn [andb orb negb]; try done;
    exfalso; Z.div_mod_to_equations; lia.
Qed.

(** The month and day that [ord2ymd] computes from the 0-based day of the
    year. *)
Definition month_day (leapyear : bool) (n : Z) : Z * Z :=
  let m := Z.shiftr (n + 50) 5 in
  let preceding :=
    nth (Z.to_nat m) DAYS_BEFORE_MONTH 0 + (if (2 <? m) && leapyear then 1 else 0) in
  if n <? preceding then
    let m := m - 1 in
    let preceding :=
      preceding - (nth (Z.to_nat m) DAYS_IN_MONTH 0
                   + (if (m =? 2) && leapyear then 1 else 0)) in
    (m, n - preceding + 1)
  else (m, n - preceding + 1).

Definition month_day_ok (leapyear : bool) (n : Z) : bool :=
  let '(m, d) := month_day leapyear n in
  (1 <=? m) && (m <=? 12) && (1 <=? d)
  && (d <=? (if (m =? 2) && leapyear then 29 else nth (Z.to_nat m) DAYS_IN_MONTH 0))
  && (nth (Z.to_nat m) DAYS_BEFORE_MONTH 0
      + (if (2 <? m) && leapyear then 1 else 0) + d =? n + 1).

Lemma month_day_correct (leapyear : bool) (n : Z) :
  0 ≤ n < 365 + (if leapyear then 1 else 0) → month_day_ok leapyear n = true.
Proof.
  intros Hn.
  assert (forallb (month_day_ok true) (seqZ 0 366) = true) as Ht
    by (vm_compute; reflexivity).
  assert (forallb (month_day_ok false) (seqZ 0 365) = true) as Hf
    by (vm_compute; reflexivity).
  rewrite forallb_forall in Ht, Hf.
  destruct leapyear; [apply Ht|apply Hf]; apply list_elem_of_In, elem_of_seqZ; lia.
Qed.

Lemma ord2ymd_cases (n : Z) :
  let n0 := n - 1 in
  let n400 := n0 `div` DI400Y in
  let r1 := n0 `mod` DI400Y in
  let n100 := r1 `div` DI100Y in
  let r2 := r1 `mod` DI100Y in
  let n4 := r2 `div` DI4Y in
  let r3 := r2 `mod` DI4Y in
  let n1 := r3 `div` 365 in
  let r4 := r3 `mod` 365 in
  let y := n400 * 400 + 1 + n100 * 100 + n4 * 4 + n1 in
  ord2ymd n
  = if (n1 =? 4) || (n100 =? 4) then mk_date (y - 1) 12 31
    else
      let leapyear := (n1 =? 3) && (negb (n4 =? 24) || (n100 =? 3)) in
      mk_date y (month_day leapyear r4).1 (month_day leapyear r4).2.
Proof.
  cbv zeta. unfold ord2ymd, month_day. cbv zeta.
  destruct (_ || _); [done|]. by destruct (_ <? _).
Qed.

Lemma ord2ymd_correct (n : Z) :
  1 ≤ n ≤ MAXORDINAL →
  valid_date (ord2ymd n) = true ∧ toordinal (ord2ymd n) = n.
Proof.
  intros Hn. rewrite ord2ymd_cases. cbv zeta. unfold DI400Y, DI100Y, DI4Y.
  set (n0 := n - 1).
  set (n400 := n0 `div` 146097). set (r1 := n0 `mod` 146097).
  set (n100 := r1 `div` 36524). set (r2 := r1 `mod` 36524).
  set (n4 := r2 `div` 1461). set (r3 := r2 `mod` 1461).
  set (n1 := r3 `div` 365). set (r4 := r3 `mod` 365).
  assert (Hdec : 0 ≤ n400 ∧ 0 ≤ n100 ≤ 4 ∧ 0 ≤ n4 ≤ 24 ∧ 0 ≤ n1 ≤ 4 ∧ 0 ≤ r4 < 365
                 ∧ n0 = 146097 * n400 + 36524 * n100 + 1461 * n4 + 365 * n1 + r4
                 ∧ (n100 = 4 → n4 = 0 ∧ n1 = 0 ∧ r4 = 0)
                 ∧ (n1 = 4 → r4 = 0 ∧ n4 ≤ 23)).
  { unfold n400, n100, n4, n1, r4, r3, r2, r1, n0. unfold MAXORDINAL in Hn.
    Z.div_mod_to_equations. lia. }
  clearbody n400 n100 n4 n1 r4. clear r1 r2 r3. subst n0.
  destruct Hdec as (H400 & H100 & H4 & H1 & Hr4 & Hn0 & Hs100 & Hs1).
  assert (Hyear : ∀ y, days_before_year y < n → n ≤ MAXORDINAL → y ≤ 9999).
  { intros y Hlt Hmax. destruct (decide (y ≤ 9999)); [done|]. exfalso.
    pose proof (days_before_year_mono 10000 y ltac:(lia)) as Hm.
    assert (days_before_year 10000 = 3652059) as Heq by (by vm_compute).
    unfold MAXORDINAL in *. lia. }
  destruct (Z.eqb_spec n1 4) as [E1|E1]; [|destruct (Z.eqb_spec n100 4) as [E100|E100]];
    cbn [orb].
  - (* the last day of a leap year that ends a four-year cycle *)
    destruct (Hs1 E1) as [-> ?]. subst n1.
    assert (n100 ≤ 3) by (destruct (decide (n100 = 4)) as [E|]; [apply Hs100 in E|]; lia).
    replace (n400 * 400 + 1 + n100 * 100 + n4 * 4 + 4 - 1)
      with (400 * n400 + 100 * n100 + 4 * n4 + 3 + 1) by lia.
    pose proof (days_before_year_cycle n400 n100 n4 3
                  ltac:(lia) ltac:(lia) ltac:(lia) ltac:(lia)) as Hdby.
    pose proof (is_leap_cycle n400 n100 n4 3
                  ltac:(lia) ltac:(lia) ltac:(lia) ltac:(lia)) as Hleap.
    assert ((n4 =? 24) = false) as E24 by (apply Z.eqb_neq; lia).
    rewrite E24 in Hleap. cbn in Hleap.
    set (y := 400 * n400 + 100 * n100 + 4 * n4 + 3 + 1) in *.
    assert (Hord : toordinal (mk_date y 12 31) = n).
    { unfold toordinal, ymd2ord, days_before_month. cbn [year month day].
      rewrite Hdby, Hleap. simpl. lia. }
    split; [|done].
    unfold valid_date, days_in_month. cbn [year month day]. simpl.
    assert (1 ≤ y) by (unfold y; lia).
    assert (y ≤ 9999).
    { apply Hyear; [|lia]. rewrite Hdby. lia. }
    rewrite !andb_true_iff, !Z.leb_le. lia.
  - (* the last day of a 400-year cycle *)
    destruct (Hs100 E100) as (-> & -> & ->). subst n100.
    replace (n400 * 400 + 1 + 4 * 100 + 0 * 4 + 0 - 1)
      with (400 * n400 + 100 * 3 + 4 * 24 + 3 + 1) by lia.
    pose proof (days_before_year_cycle n400 3 24 3
                  ltac:(lia) ltac:(lia) ltac:(lia) ltac:(lia)) as Hdby.
    pose proof (is_leap_cycle n400 3 24 3
                  ltac:(lia) ltac:(lia) ltac:(lia) ltac:(lia)) as Hleap.
    cbn in Hleap.
    set (y := 400 * n400 + 100 * 3 + 4 * 24 + 3 + 1) in *.
    assert (Hord : toordinal (mk_date y 12 31) = n).
    { unfold toordinal, ymd2ord, days_before_month. cbn [year month day].
      rewrite Hdby, Hleap. simpl. lia. }
    split; [|done].
    unfold valid_date, days_in_month. cbn [year month day]. simpl.
    assert (1 ≤ y) by (unfold y; lia).
    assert (y ≤ 9999).
    { apply Hyear; [|lia]. rewrite Hdby. lia. }
    rewrite !andb_true_iff, !Z.leb_le. lia.
  - (* any other day *)
    replace (n400 * 400 + 1 + n100 * 100 + n4 * 4 + n1)
      with (400 * n400 + 100 * n100 + 4 * n4 + n1 + 1) by lia.
    pose proof (days_before_year_cycle n400 n100 n4 n1
                  ltac:(lia) ltac:(lia) ltac:(lia) ltac:(lia)) as Hdby.
    pose proof (is_leap_cycle n400 n100 n4 n1
                  ltac:(lia) ltac:(lia) ltac:(lia) ltac:(lia)) as Hleap.
    set (y := 400 * n400 + 100 * n100 + 4 * n4 + n1 + 1) in *.
    set (leapyear := (n1 =? 3) && (negb (n4 =? 24) || (n100 =? 3))) in *.
    pose proof (month_day_correct leapyear r4
                  ltac:(destruct leapyear; lia)) as Hmd.
    unfold month_day_ok in Hmd. destruct (month_day leapyear r4) as [m d].
    cbn [fst snd]. rewrite !andb_true_iff, !Z.leb_le, Z.eqb_eq in Hmd.
    destruct Hmd as ((((Hm1 & Hm2) & Hd1) & Hd2) & Hsum).
    assert (Hord : toordinal (mk_date y m d) = n).
    { unfold toordinal, ymd2ord, days_before_month. cbn [year month day].
      rewrite Hdby, Hleap. lia. }
    split; [|done].
    unfold valid_date, days_in_month. cbn [year month day]. rewrite Hleap.
    assert (1 ≤ y) by (unfold y; lia).
    assert (y ≤ 9999).
    { apply Hyear; [|lia]. rewrite Hdby. lia. }
    rewrite !andb_true_iff, !Z.leb_le. lia.
Qed.

Lemma toordinal_max (dt : date) :
  valid_date dt = true → toordinal dt ≤ MAXORDINAL.
Proof.
  intros Hv.
  assert (valid_date (mk_date 9999 12 31) = true) as Hlast by (by vm_compute).
  assert (toordinal (mk_date 9999 12 31) = MAXORDINAL) as <- by (by vm_compute).
  apply toordinal_le; try done.
  apply valid_date_bounds in Hv as (Hy & Hm & Hd).
  pose proof (days_in_month_le_31 (year dt) (month dt) Hm).
  unfold date_le, date_leb. cbn [year month day].
  repeat rewrite ?orb_true_iff, ?andb_true_iff, ?Z.ltb_lt, ?Z.eqb_eq, ?Z.leb_le.
  lia.
Qed.

Lemma fromordinal_toordinal (dt : date) :
  valid_date dt = true → ord2ymd (toordinal dt) = dt.
Proof.
  intros Hv.
  destruct (ord2ymd_correct (toordinal dt)) as [Hv' Hord].
  { split; [by apply toordinal_positive|by apply toordinal_max]. }
  by apply toordinal_inj.
Qed.

End Calendar.

(** ** Rates with a zero denominator (C5) *)

Section Rates.
Context `{Floats}.

Lemma rate_total (part total : Z) :
  ∃ r, rate part total = Some r ∧ (total ≤ 0 → r = Int 0).
Proof.
  unfold rate, truediv. destruct (Z.ltb_spec 0 total) as [Hpos|Hle].
  - destruct (Z.eqb_spec total 0) as [->|_]; [lia|].
    eexists. split; [done|lia].
  - by eexists.
Qed.

Lemma truediv_nonzero (x : num) (d : Z) :
  d ≠ 0 → ∃ q, truediv x d = Some (Float q).
Proof.
  intros Hd. unfold truediv. apply Z.eqb_neq in Hd as ->. by eexists.
Qed.

Lemma mapM_elements {A B} (f : A → option B) (l : list A) (k : list B) :
  mapM f l = Some k → ∀ y, y ∈ k → ∃ x, x ∈ l ∧ f x = Some y.
Proof.
  intros Hm%mapM_Some. induction Hm as [|x y l k Hxy _ IH]; intros z Hz.
  { by apply elem_of_nil in Hz. }
  apply elem_of_cons in Hz as [->|Hz].
  - exists x. split; [by left|done].
  - destruct (IH z Hz) as (x' & ? & ?). exists x'. split; [by right|done].
Qed.

Lemma fromordinal_in_range (n : Z) :
  1 ≤ n ≤ MAXORDINAL → fromordinal n = Some (ord2ymd n).
Proof.
  intros [H1 H2]. unfold fromordinal.
  apply Z.leb_le in H1 as ->. by apply Z.leb_le in H2 as ->.
Qed.

Lemma streak_loop_total (dates : list string) (today : Z) (range : list Z) (streak : Z) :
  (∀ i, i ∈ range → 1 ≤ today - i ≤ MAXORDINAL) →
  is_Some (streak_loop dates today range streak).
Proof.
  revert streak. induction range as [|i range IH]; intros streak Hrange; simpl.
  { done. }
  rewrite fromordinal_in_range by (apply Hrange; left). simpl.
  assert (∀ s, is_Some (streak_loop dates today range s)) as Hrest.
  { intros s. apply IH. intros j Hj. apply Hrange. by right. }
  case_bool_decide; [apply Hrest|]. destruct (0 <? i); [done|apply Hrest].
Qed.

Lemma no_habits_count (st : store) : habits st = [] → count_habits st = 0.
Proof. unfold count_habits. by intros ->. Qed.

Lemma get_statistics_rates (st : store) (today : Z) :
  30 ≤ today ≤ MAXORDINAL →
  ∃ s, get_statistics st today = Some s
       ∧ (habits st = [] →
          s_completion_rate s = Int 0
          ∧ ∀ w, w ∈ s_weekly_data s → w_percentage w = Int 0).
Proof.
  intros Htoday. unfold get_statistics.
  rewrite fromordinal_in_range by (unfold MAXORDINAL in *; lia).
  cbn [mbind option_bind].
  destruct (streak_loop_total (recent_dates st) today (seqZ 0 30) 0) as [streak ->].
  { intros i Hi. apply elem_of_seqZ in Hi. unfold MAXORDINAL in *. lia. }
  cbn [mbind option_bind].
  match goal with |- context [mapM ?f ?l] =>
    destruct (mapM f l) as [weekly|] eqn:Hweekly end.
  2:{ exfalso. apply mapM_None in Hweekly. apply Exists_exists in Hweekly
        as (i & Hi & Hnone).
      rewrite fromordinal_in_range in Hnone.
      2:{ rewrite !elem_of_cons, elem_of_nil in Hi. unfold MAXORDINAL in *. lia. }
      cbn [mbind option_bind] in Hnone.
      destruct (rate_total
                  (count_completions_on st (isoformat (ord2ymd (today - i))))
                  (count_habits st)) as (r & Hr & _).
      by rewrite Hr in Hnone. }
  cbn [mbind option_bind].
  destruct (rate_total (count_completions_on st (isoformat (ord2ymd today)))
              (count_habits st)) as (r & Hr & Hzero).
  rewrite Hr. cbn [mbind option_bind]. eexists. split; [done|].
  cbn [s_completion_rate s_weekly_data].
  intros Hnone. apply no_habits_count in Hnone. split.
  - rewrite Hzero by lia. done.
  - intros w Hw. destruct (mapM_elements _ _ _ Hweekly w Hw) as (i & _ & Hi).
    destruct (fromordinal (today - i)) as [d|]; [|done].
    cbn [mbind option_bind] in Hi.
    destruct (rate_total (count_completions_on st (isoformat d)) (count_habits st))
      as (p & Hp & Hpz).
    rewrite Hp in Hi. cbn [mbind option_bind] in Hi. simplify_eq.
    cbn [w_percentage]. rewrite Hpz by lia. done.
Qed.

Lemma guarded_rate_total {A} (l : list A) (part : Z) :
  ∃ r, match l with
       | [] => Some (Int 0)
       | _ => q ← truediv (Int part) (Z.of_nat (length l)); Some (mul q (Int 100))
       end = Some r
       ∧ (l = [] → r = Int 0).
Proof.
  destruct l as [|x l]; [by eexists|].
  destruct (truediv_nonzero (Int part) (Z.of_nat (length (x :: l)))) as (q & ->).
  { simpl. lia. }
  by eexists.
Qed.

Lemma guarded_score_total {A B} (l1 : list A) (l2 : list B) (x : num) :
  ∃ r, match l1, l2 with
       | [], [] => Some (Int 0)
       | _, _ => truediv x 2
       end = Some r
       ∧ (l1 = [] → l2 = [] → r = Int 0).
Proof.
  destruct (truediv_nonzero x 2) as (q & Hq); [done|].
  destruct l1, l2; rewrite ?Hq; by eexists.
Qed.

Lemma get_daily_report_rates (st : store) (target_date : string) :
  ∃ r, get_daily_report st target_date = Some r
       ∧ (r_habits_total r = 0 → r_habit_rate r = Int 0)
       ∧ (r_tasks_total r = 0 → r_task_rate r = Int 0)
       ∧ (r_habits_total r = 0 → r_tasks_total r = 0 → r_overall_score r = Int 0)
       ∧ (habits st = [] → r_habits_total r = 0)
       ∧ (tasks_on st target_date = [] → r_tasks_total r = 0).
Proof.
  unfold get_daily_report. cbv zeta.
  set (hs := habits_left_join st target_date).
  set (ts := merge_sort task_le (tasks_on st target_date)).
  assert (Hh0 : habits st = [] → hs = []).
  { intros Hnil. unfold hs, habits_left_join, get_all_habits. by rewrite Hnil. }
  assert (Ht0 : tasks_on st target_date = [] → ts = []).
  { unfold ts. by intros ->. }
  destruct (guarded_rate_total hs (Z.of_nat (length (filter (λ h, h.2 ≠ 0) hs))))
    as (hr & -> & Hhr).
  destruct (guarded_rate_total ts
              (Z.of_nat (length (filter (λ t, t_completed t ≠ 0) ts))))
    as (tr & -> & Htr).
  cbn [mbind option_bind].
  destruct (guarded_score_total hs ts (add hr tr)) as (sc & -> & Hsc).
  cbn [mbind option_bind]. eexists. split; [done|].
  cbn [r_habits_total r_tasks_total r_habit_rate r_task_rate r_overall_score].
  assert (Hlen : ∀ {X} (l : list X), Z.of_nat (length l) = 0 → l = []).
  { intros X l Hl. destruct l; [done|simpl in Hl; lia]. }
  split_and!.
  - intros E%Hlen. by rewrite Hhr.
  - intros E%Hlen. by rewrite Htr.
  - intros E1%Hlen E2%Hlen. by rewrite Hsc.
  - intros E. by rewrite Hh0.
  - intros E. by rewrite Ht0.
Qed.

Lemma mapM_total {A B} (f : A → option B) (l : list A) :
  (∀ x, x ∈ l → is_Some (f x)) → ∃ k, mapM f l = Some k.
Proof.
  intros Hf. apply (mapM_is_Some_2 f). apply Forall_forall. exact Hf.
Qed.

Lemma get_weekly_data_rates (st : store) (start_date_str : string) (start : date) :
  strptime start_date_str = Some start →
  toordinal start + 6 ≤ MAXORDINAL →
  ∃ ws, get_weekly_data st start_date_str = Some ws
        ∧ (habits st = [] → ∀ w, w ∈ ws → w_percentage w = Int 0).
Proof.
  intros Hstart Hmax. unfold get_weekly_data. rewrite Hstart.
  cbn [mbind option_bind].
  pose proof (toordinal_positive start (strptime_valid _ _ Hstart)) as Hpos.
  match goal with |- context [mapM ?f ?l] =>
    destruct (mapM_total f l) as [ws Hws] end.
  { intros i Hi. apply elem_of_seqZ in Hi.
    rewrite fromordinal_in_range by lia. cbn [mbind option_bind].
    destruct (rate_total
                (count_completions_on st (isoformat (ord2ymd (toordinal start + i))))
                (count_habits st)) as (r & -> & _).
    done. }
  exists ws. split; [done|].
  intros Hnone%no_habits_count w Hw.
  destruct (mapM_elements _ _ _ Hws w Hw) as (i & _ & Hi).
  destruct (fromordinal (toordinal start + i)) as [d|]; [|done].
  cbn [mbind option_bind] in Hi.
  destruct (rate_total (count_completions_on st (isoformat d)) (count_habits st))
    as (p & Hp & Hpz).
  rewrite Hp in Hi. cbn [mbind option_bind] in Hi. simplify_eq.
  cbn [w_percentage]. rewrite Hpz by lia. done.
Qed.

Lemma get_monthly_trends_rates (st : store) (year month : Z) :
  1 ≤ month ≤ 12 →
  ∃ m, get_monthly_trends st year month = Some m
       ∧ (habits st = [] →
          ∀ d, d ∈ m_daily_data m → d_habit_rate d = Int 0)
       ∧ (∀ d, d ∈ m_daily_data m → d_tasks_total d = 0 → d_task_rate d = Int 0)
       ∧ ((∀ d, d ∈ m_daily_data m → d_tasks_total d = 0) →
          m_avg_task_rate m = Int 0).
Proof.
  intros [Hm1 Hm2]. unfold get_monthly_trends, monthrange_days.
  apply Z.leb_le in Hm1 as ->. apply Z.leb_le in Hm2 as ->.
  cbn [andb mbind option_bind].
  match goal with |- context [mapM ?f ?l] =>
    destruct (mapM_total f l) as [daily Hdaily] end.
  { intros day _.
    match goal with |- context [rate ?a ?b ≫= _] =>
      destruct (rate_total a b) as (r & -> & _) end.
    cbn [mbind option_bind].
    match goal with |- context [rate ?a ?b ≫= _] =>
      destruct (rate_total a b) as (r' & -> & _) end.
    done. }
  rewrite Hdaily. cbn [mbind option_bind].
  assert (Havg : ∃ a, match daily with
                      | [] => Some (Int 0)
                      | _ => truediv (sum (d_habit_rate <$> daily))
                               (Z.of_nat (length daily))
                      end = Some a).
  { destruct daily as [|d daily]; [by eexists|].
    destruct (truediv_nonzero (sum (d_habit_rate <$> d :: daily))
                (Z.of_nat (length (d :: daily)))) as (q & ->); [simpl; lia|].
    by eexists. }
  destruct Havg as (avg & ->). cbn [mbind option_bind].
  set (with_tasks := filter (λ d, 0 < d_tasks_total d) daily).
  assert (Htask : ∃ a, (if 0 <? Z.of_nat (length with_tasks)
                        then truediv (sum (d_task_rate <$> with_tasks))
                               (Z.of_nat (length with_tasks))
                        else Some (Int 0)) = Some a
                       ∧ (with_tasks = [] → a = Int 0)).
  { destruct (Z.ltb_spec 0 (Z.of_nat (length with_tasks))) as [Hpos|Hle].
    - destruct (truediv_nonzero (sum (d_task_rate <$> with_tasks))
                  (Z.of_nat (length with_tasks))) as (q & ->); [lia|].
      eexists. split; [done|]. intros E. rewrite E in Hpos. simpl in Hpos. lia.
    - by eexists. }
  destruct Htask as (avgt & -> & Havgt). cbn [mbind option_bind].
  eexists. split; [done|]. cbn [m_daily_data m_avg_task_rate].
  assert (Hentry : ∀ d, d ∈ daily →
            ∃ hr tr, rate (d_habits_done d) (count_habits st) = Some hr
                     ∧ rate (d_tasks_done d) (d_tasks_total d) = Some tr
                     ∧ d_habit_rate d = round1 hr ∧ d_task_rate d = round1 tr).
  { intros d Hd. destruct (mapM_elements _ _ _ Hdaily d Hd) as (day & _ & Hday).
    match type of Hday with context [rate ?a ?b ≫= _] =>
      destruct (rate_total a b) as (hr & Hhr & _) end.
    rewrite Hhr in Hday. cbn [mbind option_bind] in Hday.
    match type of Hday with context [rate ?a ?b ≫= _] =>
      destruct (rate_total a b) as (tr & Htr & _) end.
    rewrite Htr in Hday. cbn [mbind option_bind] in Hday.
    simplify_eq. by exists hr, tr. }
  split_and!.
  - intros Hnone%no_habits_count d Hd.
    destruct (Hentry d Hd) as (hr & tr & Hhr & _ & -> & _).
    destruct (rate_total (d_habits_done d) (count_habits st)) as (r & Hr & Hz).
    rewrite Hr in Hhr. simplify_eq. by rewrite Hz by lia.
  - intros d Hd Hzero.
    destruct (Hentry d Hd) as (hr & tr & _ & Htr & _ & ->).
    destruct (rate_total (d_tasks_done d) (d_tasks_total d)) as (r & Hr & Hz).
    rewrite Hr in Htr. simplify_eq. by rewrite Hz by lia.
  - intros Hall. rewrite Havgt; [done|].
    apply elem_of_nil_inv. intros d Hd. unfold with_tasks in Hd.
    apply list_elem_of_filter in Hd as [Hpos Hd].
    specialize (Hall d Hd). lia.
Qed.

Lemma get_analytics_summary_rate (st : store) (today : Z) :
  habits st = [] →
  7 ≤ today ≤ MAXORDINAL →
  ∃ a, get_analytics_summary st today = Some a
       ∧ a_today_completion_rate a = Int 0.
Proof.
  intros Hnone Htoday. unfold get_analytics_summary.
  rewrite (fromordinal_in_range today) by lia. cbn [mbind option_bind].
  assert (Hstreaks : get_habit_streaks st today = Some []).
  { unfold get_habit_streaks, get_all_habits. by rewrite Hnone. }
  rewrite Hstreaks. cbn [mbind option_bind].
  assert (0 ≤ weekday today < 7) by (apply Z.mod_pos_bound; lia).
  rewrite (fromordinal_in_range (today - weekday today)) by lia.
  cbn [mbind option_bind].
  destruct (rate_total (count_completions_on st (isoformat (ord2ymd today)))
              (count_habits st)) as (r & -> & Hz).
  cbn [mbind option_bind]. eexists. split; [done|].
  cbn [a_today_completion_rate]. rewrite Hz; [done|].
  rewrite no_habits_count by done. lia.
Qed.

(** C5.  Every rate of the analytics is total and 0 on a zero denominator:
    the guarded expression itself; the daily report, which always returns,
    with habit rate, task rate and overall score 0 when the respective
    totals are 0, in particular on a date with no habit and no task; the
    dashboard statistics, the weekly data and the monthly trends, which
    return for every store, with every percentage and the completion rate 0
    when there are no habits and every task rate 0 on a day or month
    without tasks; and the summary's rate for today when there are no
    habits.  (The conditions on [today], the start date and the month are
    those under which the date library itself accepts the arguments.) *)
Theorem rates_resolve_to_zero (st : store) :
  (∀ part total, ∃ r, rate part total = Some r ∧ (total ≤ 0 → r = Int 0))
  ∧ (∀ target_date,
       ∃ r, get_daily_report st target_date = Some r
            ∧ (r_habits_total r = 0 → r_habit_rate r = Int 0)
            ∧ (r_tasks_total r = 0 → r_task_rate r = Int 0)
            ∧ (r_habits_total r = 0 → r_tasks_total r = 0 →
               r_overall_score r = Int 0)
            ∧ (habits st = [] → tasks_on st target_date = [] →
               r_habits_total r = 0 ∧ r_tasks_total r = 0
               ∧ r_overall_score r = Int 0))
  ∧ (∀ today, 30 ≤ today ≤ MAXORDINAL →
       ∃ s, get_statistics st today = Some s
            ∧ (habits st = [] →
               s_total_habits s = 0
               ∧ s_completion_rate s = Int 0
               ∧ ∀ w, w ∈ s_weekly_data s → w_percentage w = Int 0))
  ∧ (∀ start_date_str start,
       strptime start_date_str = Some start →
       toordinal start + 6 ≤ MAXORDINAL →
       ∃ ws, get_weekly_data st start_date_str = Some ws
             ∧ (habits st = [] → ∀ w, w ∈ ws → w_percentage w = Int 0))
  ∧ (∀ year month, 1 ≤ month ≤ 12 →
       ∃ m, get_monthly_trends st year month = Some m
            ∧ (habits st = [] →
               ∀ d, d ∈ m_daily_data m → d_habit_rate d = Int 0)
            ∧ (∀ d, d ∈ m_daily_data m → d_tasks_total d = 0 →
                    d_task_rate d = Int 0)
            ∧ ((∀ d, d ∈ m_daily_data m → d_tasks_total d = 0) →
               m_avg_task_rate m = Int 0))
  ∧ (∀ today, habits st = [] → 7 ≤ today ≤ MAXORDINAL →
       ∃ a, get_analytics_summary st today = Some a
            ∧ a_today_completion_rate a = Int 0).
Proof.
  split_and!.
  - apply rate_total.
  - intros target_date.
    destruct (get_daily_report_rates st target_date)
      as (r & Hr & Hh & Ht & Ho & Hh0 & Ht0).
    exists r. split_and!; try done.
    intros Eh Et. split_and!; auto.
  - intros today Htoday.
    destruct (get_statistics_rates st today Htoday) as (s & Hs & Hz).
    exists s. split; [done|]. intros Hnone. destruct (Hz Hnone) as [? ?].
    split_and!; try done.
    unfold get_statistics in Hs.
    destruct (fromordinal today); [|done]. cbn [mbind option_bind] in Hs.
    destruct (streak_loop _ _ _ _); [|done]. cbn [mbind option_bind] in Hs.
    destruct (mapM _ _); [|done]. cbn [mbind option_bind] in Hs.
    destruct (rate _ _); [|done]. cbn [mbind option_bind] in Hs.
    simplify_eq. cbn [s_total_habits]. by apply no_habits_count.
  - intros. by eapply get_weekly_data_rates.
  - intros. by apply get_monthly_trends_rates.
  - intros. by apply get_analytics_summary_rate.
Qed.

End Rates.

(** ** The dashboard streak (C3) *)

Section DashboardStreak.
Context `{Floats}.

(** The streak as the specification words it: the same backward scan of at
    most 30 days, but against every date that has a completion. *)
Definition streak_by_spec (st : store) (today : Z) : option Z :=
  streak_loop (hc_date <$> completions st) today (seqZ 0 30) 0.

(** The streak [get_statistics] reports. *)
Definition dashboard_streak (st : store) (today : Z) : option Z :=
  s_streak <$> get_statistics st today.

Lemma streak_loop_ext (dates1 dates2 : list string) (today : Z)
    (range : list Z) (streak : Z) :
  (∀ s, s ∈ dates1 ↔ s ∈ dates2) →
  streak_loop dates1 today range streak = streak_loop dates2 today range streak.
Proof.
  intros Hiff. revert streak. induction range as [|i range IH]; intros streak.
  { done. }
  cbn [streak_loop]. destruct (fromordinal (today - i)) as [d|]; [|done].
  cbn [mbind option_bind].
  rewrite (bool_decide_ext _ _ (Hiff (isoformat d))).
  by rewrite !IH.
Qed.

Lemma recent_dates_all (st : store) :
  (length (remove_dups (hc_date <$> completions st)) ≤ 30)%nat →
  ∀ s, s ∈ recent_dates st ↔ s ∈ hc_date <$> completions st.
Proof.
  intros Hlen s. unfold recent_dates.
  rewrite take_ge by (by rewrite merge_sort_Permutation).
  by rewrite merge_sort_Permutation, elem_of_remove_dups.
Qed.

Lemma get_statistics_streak (st : store) (today : Z) :
  30 ≤ today ≤ MAXORDINAL →
  dashboard_streak st today
  = streak_loop (recent_dates st) today (seqZ 0 30) 0.
Proof.
  intros Htoday. unfold dashboard_streak.
  destruct (get_statistics_rates st today Htoday) as (s & Hs & _).
  rewrite Hs. unfold get_statistics in Hs.
  destruct (fromordinal today); [|done]. cbn [mbind option_bind] in Hs.
  destruct (streak_loop _ _ _ _) as [streak|]; [|done].
  cbn [mbind option_bind] in Hs.
  destruct (mapM _ _); [|done]. cbn [mbind option_bind] in Hs.
  destruct (rate _ _); [|done]. cbn [mbind option_bind] in Hs.
  by simplify_eq.
Qed.

(** With at most 30 distinct completion dates in the store the reported
    streak is the specified one. *)
Lemma dashboard_streak_with_few_dates (st : store) (today : Z) :
  30 ≤ today ≤ MAXORDINAL →
  (length (remove_dups (hc_date <$> completions st)) ≤ 30)%nat →
  dashboard_streak st today = streak_by_spec st today.
Proof.
  intros Htoday Hlen. rewrite get_statistics_streak by done.
  apply streak_loop_ext. by apply recent_dates_all.
Qed.

Definition toggle_all (st : store) (habit_id : Z) (dates : list string) : store :=
  foldl (λ st d, from_option fst st (toggle_habit_completion st habit_id d)) st dates.

Lemma toggle_all_reachable (dates : list string) (st : store) (habit_id : Z) :
  reachable st → reachable (toggle_all st habit_id dates).
Proof.
  revert st. induction dates as [|d dates IH]; intros st Hst; [done|].
  apply IH. destruct (toggle_habit_completion st habit_id d) as [[st' b]|] eqn:Ht.
  - by eapply reach_toggle_habit_completion.
  - done.
Qed.

(** One habit, completed yesterday and today (2024-06-14 and 2024-06-15),
    and already ticked for each of the thirty days of the coming July. *)
Definition july_dates : list string :=
  ["2024-07-01"; "2024-07-02"; "2024-07-03"; "2024-07-04"; "2024-07-05";
   "2024-07-06"; "2024-07-07"; "2024-07-08"; "2024-07-09"; "2024-07-10";
   "2024-07-11"; "2024-07-12"; "2024-07-13"; "2024-07-14"; "2024-07-15";
   "2024-07-16"; "2024-07-17"; "2024-07-18"; "2024-07-19"; "2024-07-20";
   "2024-07-21"; "2024-07-22"; "2024-07-23"; "2024-07-24"; "2024-07-25";
   "2024-07-26"; "2024-07-27"; "2024-07-28"; "2024-07-29"; "2024-07-30"].

Definition planned_ahead : store :=
  let st := init_database empty_store in
  let st := (create_habit st "2024-06-01 08:00:00" "Read" "R" "#6366F1").1 in
  toggle_all st 1 (["2024-06-14"; "2024-06-15"] ++ july_dates).

Definition june_15 : Z := 739052.

(** C3 (refuted on the code).  In the store [planned_ahead], on 2024-06-15,
    there are completions today and yesterday and none the day before, so
    the specified streak is 2; but the thirty dates that [LIMIT 30] keeps
    are the thirty July dates, today's and yesterday's dates are not among
    them, and [get_statistics] reports a streak of 0. *)
Theorem dashboard_streak_ignores_recent_days :
  reachable planned_ahead
  ∧ isoformat <$> fromordinal june_15 = Some "2024-06-15"
  ∧ is_complete planned_ahead 1 "2024-06-15" = true
  ∧ is_complete planned_ahead 1 "2024-06-14" = true
  ∧ is_complete planned_ahead 1 "2024-06-13" = false
  ∧ recent_dates planned_ahead = reverse july_dates
  ∧ streak_by_spec planned_ahead june_15 = Some 2
  ∧ dashboard_streak planned_ahead june_15 = Some 0.
Proof.
  split_and!; try (vm_compute; reflexivity).
  unfold planned_ahead. apply toggle_all_reachable.
  apply reach_create_habit, reach_first_start.
Qed.

End DashboardStreak.

(** ** ISO date strings, prefixes and [LIKE] *)

Section IsoStrings.

Definition is_digit_value (k : Z) : Prop := 0 ≤ k ≤ 9.

Lemma digit_cases (k : Z) :
  is_digit_value k →
  k = 0 ∨ k = 1 ∨ k = 2 ∨ k = 3 ∨ k = 4 ∨ k = 5 ∨ k = 6 ∨ k = 7 ∨ k = 8 ∨ k = 9.
Proof. unfold is_digit_value. lia. Qed.

Ltac each_digit H :=
  apply digit_cases in H;
  destruct H as [->|[->|[->|[->|[->|[->|[->|[->|[->| ->]]]]]]]]].

Lemma digit_of_char_of_digit (k : Z) :
  is_digit_value k → digit_of_char (char_of_digit k) = Some k.
Proof. intros Hk. by each_digit Hk. Qed.

Lemma char_of_digit_is_digit (k : Z) : is_digit (char_of_digit k) = true.
Proof. unfold char_of_digit. by repeat case_match. Qed.

Lemma char_of_digit_eqb (j k : Z) :
  is_digit_value j → is_digit_value k →
  Ascii.eqb (char_of_digit j) (char_of_digit k) = bool_decide (j = k).
Proof. intros Hj Hk. each_digit Hj; by each_digit Hk. Qed.

Lemma is_digit_not_dash (c : ascii) : is_digit c = true → Ascii.eqb c "-" = false.
Proof.
  destruct c as [[] [] [] [] [] [] [] []]; try discriminate; intros _; reflexivity.
Qed.

Lemma dash_not_digit (c : ascii) : is_digit c = true → Ascii.eqb "-" c = false.
Proof.
  destruct c as [[] [] [] [] [] [] [] []]; try discriminate; intros _; reflexivity.
Qed.

(** The characters of a date prefix: digits and the hyphen. *)
Definition plain_char (c : ascii) : bool := is_digit c || Ascii.eqb c "-".

Fixpoint plain (s : string) : bool :=
  match s with
  | EmptyString => true
  | String c s' => plain_char c && plain s'
  end.

Lemma plain_char_like (c d : ascii) :
  plain_char c = true →
  Ascii.eqb c "%" = false ∧ Ascii.eqb c "_" = false
  ∧ Ascii.eqb (lower c) (lower d) = Ascii.eqb c d.
Proof.
  destruct c as [[] [] [] [] [] [] [] []]; try discriminate; intros _;
    (split_and!; [reflexivity|reflexivity|]);
    destruct d as [[] [] [] [] [] [] [] []]; reflexivity.
Qed.

Lemma like_percent (s : string) : like "%" s = true.
Proof. induction s as [|c s IH]; [done|]. cbn in *. exact IH. Qed.

(** A pattern made of a plain prefix and a final [%] is a prefix test. *)
Lemma like_plain_prefix (p s : string) :
  plain p = true → like (p +:+ "%") s = prefixb p s.
Proof.
  revert s. induction p as [|c p IH]; intros s Hp.
  { apply like_percent. }
  cbn [plain] in Hp. apply andb_true_iff in Hp as [Hc Hp].
  change (String c p +:+ "%") with (String c (p +:+ "%")).
  cbn [like prefixb].
  destruct (plain_char_like c c Hc) as (-> & -> & _).
  destruct s as [|d s]; [done|].
  destruct (plain_char_like c d Hc) as (_ & _ & ->). by rewrite IH.
Qed.

Lemma plain_app (a b : string) : plain (a +:+ b) = plain a && plain b.
Proof.
  induction a as [|c a IH]; [done|].
  change (String c a +:+ b) with (String c (a +:+ b)).
  cbn [plain]. by rewrite IH, andb_assoc.
Qed.

Fixpoint all_digits (s : string) : bool :=
  match s with
  | EmptyString => true
  | String c s' => is_digit c && all_digits s'
  end.

Lemma all_digits_plain (s : string) : all_digits s = true → plain s = true.
Proof.
  induction s as [|c s IH]; [done|]. cbn. unfold plain_char.
  intros [-> Hs]%andb_true_iff. by rewrite IH.
Qed.

Lemma str_digits_all_digits (fuel : nat) (n : Z) (acc : string) :
  all_digits acc = true → all_digits (str_digits fuel n acc) = true.
Proof.
  revert n acc. induction fuel as [|fuel IH]; intros n acc Hacc; cbn.
  - by rewrite char_of_digit_is_digit.
  - destruct (n <? 10).
    + cbn. by rewrite char_of_digit_is_digit.
    + apply IH. cbn. by rewrite char_of_digit_is_digit.
Qed.

Lemma str_digits_length (fuel : nat) (n : Z) (acc : string) :
  (String.length acc < String.length (str_digits fuel n acc))%nat.
Proof.
  revert n acc. induction fuel as [|fuel IH]; intros n acc; cbn.
  - lia.
  - destruct (n <? 10); cbn; [lia|].
    specialize (IH (n `div` 10) (String (char_of_digit (n `mod` 10)) acc)).
    cbn in IH. lia.
Qed.

Lemma str_digits_long (k fuel : nat) (n : Z) (acc : string) :
  10 ^ Z.of_nat k ≤ n → (k ≤ fuel)%nat →
  (String.length acc + k < String.length (str_digits fuel n acc))%nat.
Proof.
  revert fuel n acc. induction k as [|k IH]; intros fuel n acc Hn Hfuel.
  { pose proof (str_digits_length fuel n acc). lia. }
  destruct fuel as [|fuel]; [lia|]. cbn [str_digits].
  rewrite Nat2Z.inj_succ, Z.pow_succ_r in Hn by lia.
  assert (0 < 10 ^ Z.of_nat k) by (apply Z.pow_pos_nonneg; lia).
  destruct (Z.ltb_spec n 10); [lia|].
  specialize (IH fuel (n `div` 10) (String (char_of_digit (n `mod` 10)) acc)).
  cbn [String.length] in IH.
  assert (10 ^ Z.of_nat k ≤ n `div` 10) by (apply Z.div_le_lower_bound; lia).
  specialize (IH ltac:(done) ltac:(lia)). lia.
Qed.

(** The fuel of [str_nat] is enough: more fuel yields the same digits. *)
Lemma str_digits_fuel (fuel extra : nat) (n : Z) (acc : string) :
  n < 10 ^ Z.of_nat (S fuel) →
  str_digits (fuel + extra) n acc = str_digits fuel n acc.
Proof.
  revert n acc. induction fuel as [|fuel IH]; intros n acc Hn.
  - cbn [Nat.add str_digits]. destruct extra as [|extra]; [done|].
    cbn [str_digits]. change (10 ^ Z.of_nat 1) with 10 in Hn.
    by destruct (Z.ltb_spec n 10); [|lia].
  - cbn [Nat.add str_digits]. destruct (n <? 10); [done|]. apply IH.
    rewrite Nat2Z.inj_succ, Z.pow_succ_r in Hn by lia.
    apply Z.div_lt_upper_bound; lia.
Qed.

Lemma str_nat_fuel_enough (n : Z) (extra : nat) :
  str_digits (Z.to_nat (Z.log2 n) + extra) n "" = str_nat n.
Proof.
  apply str_digits_fuel.
  destruct (decide (0 < n)) as [Hpos|Hneg].
  - pose proof (Z.log2_nonneg n).
    destruct (Z.log2_spec n Hpos) as [_ Hlt].
    rewrite Nat2Z.inj_succ, Z2Nat.id by done.
    eapply Z.lt_le_trans; [exact Hlt|].
    apply Z.pow_le_mono_l. lia.
  - assert (0 < 10 ^ Z.of_nat (S (Z.to_nat (Z.log2 n))))
      by (apply Z.pow_pos_nonneg; lia).
    lia.
Qed.

Lemma str_nat_all_digits (n : Z) : all_digits (str_nat n) = true.
Proof. by apply str_digits_all_digits. Qed.

Lemma str_nat_long (k : nat) (n : Z) :
  10 ^ Z.of_nat k ≤ n → (k ≤ Z.to_nat (Z.log2 (10 ^ Z.of_nat k)))%nat →
  (k < String.length (str_nat n))%nat.
Proof.
  intros Hn Hk. unfold str_nat.
  pose proof (str_digits_long k (Z.to_nat (Z.log2 n)) n "" Hn) as Hlen.
  cbn [String.length] in Hlen. apply Hlen.
  pose proof (Z.log2_le_mono _ _ Hn). lia.
Qed.

Lemma zfill_long (w : nat) (s : string) :
  (w ≤ String.length s)%nat → zfill w s = s.
Proof.
  intros Hw. unfold zfill. by replace (w - String.length s)%nat with 0%nat by lia.
Qed.

Lemma zeros_all_digits (k : nat) : all_digits (zeros k) = true.
Proof. induction k; [done|]. cbn. done. Qed.

Lemma all_digits_app (a b : string) :
  all_digits (a +:+ b) = all_digits a && all_digits b.
Proof.
  induction a as [|c a IH]; [done|].
  change (String c a +:+ b) with (String c (a +:+ b)).
  cbn [all_digits]. by rewrite IH, andb_assoc.
Qed.

Lemma format_nonneg_all_digits (w : nat) (n : Z) :
  0 ≤ n → all_digits (format_0wd w n) = true.
Proof.
  intros Hn. unfold format_0wd. destruct (Z.ltb_spec n 0); [lia|].
  unfold zfill. by rewrite all_digits_app, zeros_all_digits, str_nat_all_digits.
Qed.

Lemma format_plain (w : nat) (n : Z) : plain (format_0wd w n) = true.
Proof.
  unfold format_0wd. destruct (n <? 0).
  - cbn [plain]. unfold zfill.
    rewrite all_digits_plain; [done|].
    by rewrite all_digits_app, zeros_all_digits, str_nat_all_digits.
  - apply all_digits_plain. unfold zfill.
    by rewrite all_digits_app, zeros_all_digits, str_nat_all_digits.
Qed.

Lemma date_prefix_plain (year month : Z) : plain (date_prefix year month) = true.
Proof.
  unfold date_prefix. by rewrite !plain_app, !format_plain.
Qed.

(** Fixed-width renderings, digit by digit. *)
Definition pad2 (n : Z) : string :=
  String (char_of_digit (n `div` 10)) (String (char_of_digit (n `mod` 10)) "").

Definition pad4 (n : Z) : string :=
  String (char_of_digit (n `div` 1000))
    (String (char_of_digit ((n `div` 100) `mod` 10))
       (String (char_of_digit ((n `div` 10) `mod` 10))
          (String (char_of_digit (n `mod` 10)) ""))).

Lemma format_2 (n : Z) : 0 ≤ n ≤ 99 → format_0wd 2 n = pad2 n.
Proof.
  intros Hn.
  assert (forallb (λ k, String.eqb (format_0wd 2 k) (pad2 k)) (seqZ 0 100) = true)
    as Hall by (vm_compute; reflexivity).
  rewrite forallb_forall in Hall. apply String.eqb_eq, Hall.
  apply list_elem_of_In, elem_of_seqZ. lia.
Qed.

Lemma format_4 (n : Z) : 0 ≤ n ≤ 9999 → format_0wd 4 n = pad4 n.
Proof.
  intros Hn.
  assert (forallb (λ k, String.eqb (format_0wd 4 k) (pad4 k)) (seqZ 0 10000) = true)
    as Hall by (vm_compute; reflexivity).
  rewrite forallb_forall in Hall. apply String.eqb_eq, Hall.
  apply list_elem_of_In, elem_of_seqZ. lia.
Qed.

Lemma append_assoc (a b c : string) : (a +:+ b) +:+ c = a +:+ (b +:+ c).
Proof.
  induction a as [|x a IH]; [done|].
  change ((String x a +:+ b) +:+ c) with (String x ((a +:+ b) +:+ c)).
  by rewrite IH.
Qed.

Lemma prefixb_app (p q : string) : prefixb p (p +:+ q) = true.
Proof.
  induction p as [|c p IH]; [done|].
  change (String c p +:+ q) with (String c (p +:+ q)).
  cbn [prefixb]. by rewrite Ascii.eqb_refl.
Qed.

Lemma char_of_digit_not_dash (k : Z) : Ascii.eqb (char_of_digit k) "-" = false.
Proof. apply is_digit_not_dash, char_of_digit_is_digit. Qed.

(** The ten characters of the ISO rendering of a valid date. *)
Definition iso_chars (y1 y2 y3 y4 m1 m2 d1 d2 : Z) : string :=
  String (char_of_digit y1) (String (char_of_digit y2)
    (String (char_of_digit y3) (String (char_of_digit y4)
      (String "-" (String (char_of_digit m1) (String (char_of_digit m2)
        (String "-" (String (char_of_digit d1)
          (String (char_of_digit d2) ""))))))))).

Lemma isoformat_chars (dt : date) :
  valid_date dt = true →
  ∃ y1 y2 y3 y4 m1 m2 d1 d2,
    is_digit_value y1 ∧ is_digit_value y2 ∧ is_digit_value y3 ∧ is_digit_value y4
    ∧ is_digit_value m1 ∧ is_digit_value m2
    ∧ is_digit_value d1 ∧ is_digit_value d2
    ∧ year dt = 1000 * y1 + 100 * y2 + 10 * y3 + y4
    ∧ month dt = 10 * m1 + m2
    ∧ day dt = 10 * d1 + d2
    ∧ isoformat dt = iso_chars y1 y2 y3 y4 m1 m2 d1 d2.
Proof.
  intros (Hy & Hm & Hd)%valid_date_bounds.
  pose proof (days_in_month_le_31 (year dt) (month dt) Hm).
  exists (year dt `div` 1000), ((year dt `div` 100) `mod` 10),
    ((year dt `div` 10) `mod` 10), (year dt `mod` 10),
    (month dt `div` 10), (month dt `mod` 10), (day dt `div` 10), (day dt `mod` 10).
  unfold is_digit_value, isoformat.
  rewrite format_4, !format_2 by lia.
  split_and!; try (Z.div_mod_to_equations; lia). reflexivity.
Qed.

Lemma append_cons (c : ascii) (a b : string) :
  String c a +:+ b = String c (a +:+ b).
Proof. reflexivity. Qed.

Lemma append_nil (b : string) : "" +:+ b = b.
Proof. reflexivity. Qed.

Lemma year_prefix (year y1 y2 y3 y4 : Z) (rest tail : string) :
  is_digit_value y1 → is_digit_value y2 → is_digit_value y3 → is_digit_value y4 →
  prefixb (format_0wd 4 year +:+ rest)
    (String (char_of_digit y1) (String (char_of_digit y2)
       (String (char_of_digit y3) (String (char_of_digit y4)
          (String "-" tail))))) = true →
  year = 1000 * y1 + 100 * y2 + 10 * y3 + y4
  ∧ prefixb rest (String "-" tail) = true.
Proof.
  intros H1 H2 H3 H4 Hp.
  assert (year < 0 ∨ 0 ≤ year ≤ 9999 ∨ 10 ^ Z.of_nat 4 ≤ year) as [Hneg|[Hin|Hbig]]
    by (simpl; lia).
  - exfalso. unfold format_0wd in Hp. apply Z.ltb_lt in Hneg. rewrite Hneg in Hp.
    rewrite append_cons in Hp. cbn [prefixb] in Hp.
    rewrite dash_not_digit in Hp by apply char_of_digit_is_digit. done.
  - rewrite format_4 in Hp by done. unfold pad4 in Hp.
    rewrite !append_cons, append_nil in Hp. cbn [prefixb] in Hp.
    rewrite !char_of_digit_eqb in Hp
      by (unfold is_digit_value in *; Z.div_mod_to_equations; lia).
    repeat (apply andb_true_iff in Hp as [?%bool_decide_eq_true Hp]).
    split; [|done]. Z.div_mod_to_equations. lia.
  - exfalso.
    assert (Hlen : (4 < String.length (format_0wd 4 year))%nat).
    { unfold format_0wd. destruct (Z.ltb_spec year 0); [simpl in Hbig; lia|].
      pose proof (str_nat_long 4 year Hbig ltac:(vm_compute; lia)).
      by rewrite zfill_long by lia. }
    pose proof (format_nonneg_all_digits 4 year ltac:(simpl in Hbig; lia)) as Hd.
    destruct (format_0wd 4 year) as [|a1 [|a2 [|a3 [|a4 [|a5 A]]]]];
      cbn [String.length] in Hlen; try lia.
    rewrite !append_cons in Hp. cbn [prefixb all_digits] in Hp, Hd.
    repeat (apply andb_true_iff in Hd as [? Hd]).
    do 4 (apply andb_true_iff in Hp as [_ Hp]).
    apply andb_true_iff in Hp as [Hp _].
    by rewrite is_digit_not_dash in Hp.
Qed.

Lemma month_prefix (month m1 m2 : Z) (tail : string) :
  is_digit_value m1 → is_digit_value m2 →
  prefixb (format_0wd 2 month)
    (String (char_of_digit m1) (String (char_of_digit m2) (String "-" tail)))
  = true →
  month = 10 * m1 + m2.
Proof.
  intros H1 H2 Hp.
  assert (month < 0 ∨ 0 ≤ month ≤ 99 ∨ 10 ^ Z.of_nat 2 ≤ month) as [Hneg|[Hin|Hbig]]
    by (simpl; lia).
  - exfalso. unfold format_0wd in Hp. apply Z.ltb_lt in Hneg. rewrite Hneg in Hp.
    cbn [prefixb] in Hp.
    rewrite dash_not_digit in Hp by apply char_of_digit_is_digit. done.
  - rewrite format_2 in Hp by done. unfold pad2 in Hp. cbn [prefixb] in Hp.
    rewrite !char_of_digit_eqb in Hp
      by (unfold is_digit_value in *; Z.div_mod_to_equations; lia).
    repeat (apply andb_true_iff in Hp as [?%bool_decide_eq_true Hp]).
    Z.div_mod_to_equations. lia.
  - exfalso.
    assert (Hlen : (2 < String.length (format_0wd 2 month))%nat).
    { unfold format_0wd. destruct (Z.ltb_spec month 0); [simpl in Hbig; lia|].
      pose proof (str_nat_long 2 month Hbig ltac:(vm_compute; lia)).
      by rewrite zfill_long by lia. }
    pose proof (format_nonneg_all_digits 2 month ltac:(simpl in Hbig; lia)) as Hd.
    destruct (format_0wd 2 month) as [|a1 [|a2 [|a3 A]]];
      cbn [String.length] in Hlen; try lia.
    cbn [prefixb all_digits] in Hp, Hd.
    repeat (apply andb_true_iff in Hd as [? Hd]).
    do 2 (apply andb_true_iff in Hp as [_ Hp]).
    apply andb_true_iff in Hp as [Hp _].
    by rewrite is_digit_not_dash in Hp.
Qed.

(** The prefix test of [get_habit_completions] selects exactly the dates of
    the month asked for. *)
Lemma prefix_selects_month (dt : date) (year month : Z) :
  valid_date dt = true →
  prefixb (date_prefix year month) (isoformat dt) = true
  ↔ Date.year dt = year ∧ Date.month dt = month.
Proof.
  intros Hv. split.
  - destruct (isoformat_chars dt Hv)
      as (y1 & y2 & y3 & y4 & m1 & m2 & d1 & d2
          & ? & ? & ? & ? & ? & ? & ? & ? & Hy & Hm & Hd & ->).
    unfold date_prefix, iso_chars. intros Hp.
    apply year_prefix in Hp as [-> Hp]; try done.
    rewrite append_cons, append_nil in Hp. cbn [prefixb] in Hp.
    apply andb_true_iff in Hp as [_ Hp].
    by apply month_prefix in Hp as ->.
  - intros [<- <-]. unfold isoformat, date_prefix.
    rewrite <-!append_assoc.
    rewrite (append_assoc _ "-" (format_0wd 2 (Date.month dt))).
    rewrite (append_assoc _ "-" (format_0wd 2 (day dt))).
    apply prefixb_app.
Qed.

Lemma py_int_two_digits (d1 d2 : Z) :
  is_digit_value d1 → is_digit_value d2 →
  py_int (String (char_of_digit d1) (String (char_of_digit d2) ""))
  = Some (10 * d1 + d2).
Proof. intros Hd1 Hd2. each_digit Hd1; each_digit Hd2; reflexivity. Qed.

Lemma iso_chars_day_of (y1 y2 y3 y4 m1 m2 d1 d2 : Z) :
  is_digit_value d1 → is_digit_value d2 →
  day_of (iso_chars y1 y2 y3 y4 m1 m2 d1 d2) = Some (10 * d1 + d2).
Proof.
  intros Hd1 Hd2. unfold day_of, split, iso_chars. cbn [split_go].
  rewrite !char_of_digit_not_dash. cbn [split_go Ascii.eqb Bool.eqb].
  cbn [lookup list_lookup String.rev String.rev_app mbind option_bind].
  by apply py_int_two_digits.
Qed.

(** What a canonical stored date is: the rendering of the date it denotes. *)
Lemma is_iso_date_spec (s : string) :
  is_iso_date s = true ↔ ∃ dt, strptime s = Some dt ∧ isoformat dt = s.
Proof.
  unfold is_iso_date. split.
  - destruct (strptime s) as [dt|]; [|done].
    intros Heq%String.eqb_eq. by exists dt.
  - intros (dt & -> & Heq). by apply String.eqb_eq.
Qed.

Lemma iso_date_like (s : string) (dt : date) (year month : Z) :
  strptime s = Some dt → isoformat dt = s →
  like (date_prefix year month +:+ "%") s = true
  ↔ Date.year dt = year ∧ Date.month dt = month.
Proof.
  intros Hs <-. rewrite like_plain_prefix by apply date_prefix_plain.
  apply prefix_selects_month. by eapply strptime_valid.
Qed.

Lemma iso_date_day_of (s : string) (dt : date) :
  strptime s = Some dt → isoformat dt = s → day_of s = Some (day dt).
Proof.
  intros Hs <-.
  destruct (isoformat_chars dt (strptime_valid _ _ Hs))
    as (y1 & y2 & y3 & y4 & m1 & m2 & d1 & d2
        & ? & ? & ? & ? & ? & ? & ? & ? & Hy & Hm & -> & ->).
  by apply iso_chars_day_of.
Qed.

End IsoStrings.
(** ** The month calendar (C4) *)

Section MonthCompletions.

(** Every stored completion date is a zero-padded ISO date. *)
Definition iso_store (st : store) : Prop :=
  ∀ c, c ∈ completions st → is_iso_date (hc_date c) = true.

Definition days_of_rows (rows : list completion) : list Z :=
  omap (λ c, day_of (hc_date c)) rows.

Lemma collect_days_total (rows : list completion) (acc : gmap Z (list Z)) :
  (∀ c, c ∈ rows → is_Some (day_of (hc_date c))) →
  is_Some (collect_days rows acc).
Proof.
  revert acc. induction rows as [|c rows IH]; intros acc Hrows; cbn [collect_days].
  { done. }
  destruct (Hrows c ltac:(left)) as [d ->]. cbn [mbind option_bind].
  apply IH. intros c' Hc'. apply Hrows. by right.
Qed.

Lemma collect_days_lookup (rows : list completion) (acc res : gmap Z (list Z)) (k : Z) :
  collect_days rows acc = Some res →
  res !! k
  = match filter (λ c, hc_habit_id c = k) rows with
    | [] => acc !! k
    | matching => Some (default [] (acc !! k) ++ days_of_rows matching)
    end.
Proof.
  revert acc. induction rows as [|c rows IH]; intros acc Hres; cbn [collect_days] in Hres.
  { by simplify_eq. }
  destruct (day_of (hc_date c)) as [d|] eqn:Hd; [|done].
  cbn [mbind option_bind] in Hres. rewrite (IH _ Hres). clear IH Hres.
  rewrite (filter_cons _ c). destruct (decide (hc_habit_id c = k)) as [Hk|Hk].
  - rewrite Hk, lookup_insert_eq. cbn [default].
    assert (default [] (match acc !! k with
                        | Some _ => acc
                        | None => <[k:=[]]> acc
                        end !! k) = default [] (acc !! k)) as ->.
    { destruct (acc !! k) eqn:E; [by rewrite E|by rewrite lookup_insert_eq]. }
    unfold days_of_rows at 2. cbn [omap list_omap]. rewrite Hd.
    destruct (filter _ rows); [done|].
    unfold id, days_of_rows. by rewrite <-app_assoc.
  - rewrite lookup_insert_ne by done.
    destruct (acc !! hc_habit_id c); [done|]. by rewrite lookup_insert_ne.
Qed.

Lemma date_fields (dt : date) (y m d : Z) :
  year dt = y ∧ month dt = m ∧ day dt = d ↔ dt = mk_date y m d.
Proof. destruct dt. cbn. split; [by intros (-> & -> & ->)|by intros [= -> -> ->]]. Qed.

Lemma days_of_rows_NoDup (rows : list completion) (yr mo : Z) :
  NoDup (hc_date <$> rows) →
  (∀ c, c ∈ rows →
        ∃ dt, strptime (hc_date c) = Some dt ∧ isoformat dt = hc_date c
              ∧ year dt = yr ∧ month dt = mo) →
  NoDup (days_of_rows rows).
Proof.
  induction rows as [|c rows IH]; intros Hnd Hrows; [constructor|].
  rewrite fmap_cons in Hnd. apply NoDup_cons in Hnd as [Hc Hnd].
  destruct (Hrows c ltac:(left)) as (dt & Hs & Hiso & Hy & Hm).
  unfold days_of_rows. cbn [omap list_omap].
  rewrite (iso_date_day_of _ dt) by done.
  apply NoDup_cons. split.
  - intros Hin. apply list_elem_of_omap in Hin as (c' & Hc' & Hd').
    destruct (Hrows c' ltac:(by right)) as (dt' & Hs' & Hiso' & Hy' & Hm').
    rewrite (iso_date_day_of _ dt') in Hd' by done. simplify_eq.
    apply Hc. apply list_elem_of_fmap. exists c'. split; [|done].
    rewrite <-Hiso, <-Hiso'. f_equal.
    destruct dt, dt'. cbn in *. by simplify_eq.
  - apply IH; [done|]. intros c' Hc'. apply Hrows. by right.
Qed.

(** C4.  On a store whose completion dates are all zero-padded ISO dates,
    [get_habit_completions year month] returns, for every [year] and
    [month], a map that has a key for exactly the habits with a completion
    dated in that month, and under each key exactly the days of the month
    on which that habit has a completion: a day of any other month never
    appears.  With [UNIQUE(habit_id, date)] no day is listed twice. *)
Theorem month_completions_exact (st : store) (year month : Z) :
  iso_store st →
  ∃ res,
    get_habit_completions st year month = Some res
    ∧ ∀ habit_id,
        (is_Some (res !! habit_id)
         ↔ ∃ c d, c ∈ completions st ∧ hc_habit_id c = habit_id
                  ∧ strptime (hc_date c) = Some (mk_date year month d))
        ∧ ∀ days, res !! habit_id = Some days →
            (∀ d, d ∈ days
                  ↔ ∃ c, c ∈ completions st ∧ hc_habit_id c = habit_id
                         ∧ strptime (hc_date c) = Some (mk_date year month d))
            ∧ (unique_completions st → NoDup days).
Proof.
  intros Hiso. unfold get_habit_completions.
  set (pattern := date_prefix year month +:+ "%").
  set (rows := filter (λ c, like pattern (hc_date c) = true) (completions st)).
  assert (Hrow : ∀ c, c ∈ rows ↔
            c ∈ completions st
            ∧ ∃ dt, strptime (hc_date c) = Some dt ∧ isoformat dt = hc_date c
                    ∧ Date.year dt = year ∧ Date.month dt = month).
  { intros c. unfold rows. rewrite list_elem_of_filter. split.
    - intros [Hlike Hc].
      destruct (proj1 (is_iso_date_spec _) (Hiso c Hc)) as (dt & Hs & Hf).
      split; [done|]. exists dt. split_and!; try done;
        by apply (iso_date_like _ dt year month Hs Hf) in Hlike as [? ?].
    - intros (Hc & dt & Hs & Hf & Hy & Hm). split; [|done].
      by apply (iso_date_like _ dt year month Hs Hf). }
  assert (Hday : ∀ c, c ∈ rows → ∃ dt, strptime (hc_date c) = Some dt
                   ∧ isoformat dt = hc_date c
                   ∧ Date.year dt = year ∧ Date.month dt = month
                   ∧ day_of (hc_date c) = Some (day dt)).
  { intros c (_ & dt & Hs & Hf & Hy & Hm)%Hrow. exists dt.
    split_and!; try done. by apply iso_date_day_of. }
  destruct (collect_days_total rows ∅) as [res Hres].
  { intros c Hc. destruct (Hday c Hc) as (dt & _ & _ & _ & _ & ->). done. }
  exists res. split; [done|]. intros habit_id.
  pose proof (collect_days_lookup rows ∅ res habit_id Hres) as Hlookup.
  rewrite lookup_empty in Hlookup. cbn [default app] in Hlookup.
  set (matching := filter (λ c, hc_habit_id c = habit_id) rows) in *.
  assert (Hmatch : ∀ c, c ∈ matching ↔ c ∈ rows ∧ hc_habit_id c = habit_id).
  { intros c. unfold matching. rewrite list_elem_of_filter. tauto. }
  assert (Hdays : ∀ d, d ∈ days_of_rows matching
            ↔ ∃ c, c ∈ completions st ∧ hc_habit_id c = habit_id
                   ∧ strptime (hc_date c) = Some (mk_date year month d)).
  { intros d. unfold days_of_rows. rewrite list_elem_of_omap. split.
    - intros (c & [Hc Hid]%Hmatch & Hd).
      destruct (Hday c Hc) as (dt & Hs & _ & Hy & Hm & Hd').
      rewrite Hd' in Hd. simplify_eq. exists c.
      split_and!; [by apply Hrow in Hc as [? _]|done|].
      rewrite Hs. f_equal. by apply date_fields.
    - intros (c & Hc & Hid & Hs).
      assert (c ∈ rows) as Hin.
      { apply Hrow. split; [done|].
        destruct (proj1 (is_iso_date_spec _) (Hiso c Hc)) as (dt & Hs' & Hf).
        exists dt. rewrite Hs in Hs'. by simplify_eq. }
      exists c. split; [by apply Hmatch|].
      destruct (Hday c Hin) as (dt & Hs' & _ & _ & _ & ->).
      rewrite Hs in Hs'. by simplify_eq. }
  split.
  - rewrite Hlookup. split.
    + destruct matching as [|c0 rest]; [by intros [? ?]|]. intros _.
      assert (c0 ∈ c0 :: rest) as Hc0 by left.
      apply Hmatch in Hc0 as [Hc0 Hid].
      destruct (Hday c0 Hc0) as (dt & Hs & _ & Hy & Hm & _).
      exists c0, (day dt). split_and!; [by apply Hrow in Hc0 as [? _]|done|].
      rewrite Hs. f_equal. by apply date_fields.
    + intros (c & d & Hc & Hid & Hs).
      assert (d ∈ days_of_rows matching) as Hd by (apply Hdays; by exists c).
      unfold days_of_rows in Hd. apply list_elem_of_omap in Hd as (c' & Hc' & _).
      destruct matching; [by apply elem_of_nil in Hc'|done].
  - intros days Hsome. rewrite Hlookup in Hsome.
    assert (days = days_of_rows matching) as ->
      by (destruct matching; [done|by simplify_eq]).
    clear Hsome Hlookup. split; [exact Hdays|].
    intros Hunique. apply (days_of_rows_NoDup _ year month).
    + unfold unique_completions, completion_keys in Hunique.
      assert (NoDup (completion_key <$> matching)) as Hkeys.
      { unfold matching, rows. clear -Hunique.
        induction (completions st) as [|c l IH]; [constructor|].
        rewrite fmap_cons in Hunique. apply NoDup_cons in Hunique as [Hc Hl].
        rewrite filter_cons. case_decide; [|by apply IH].
        rewrite filter_cons. case_decide; [|by apply IH].
        rewrite fmap_cons. apply NoDup_cons. split; [|by apply IH].
        intros Hin. apply Hc.
        apply list_elem_of_fmap in Hin as (c' & -> & Hc').
        apply list_elem_of_filter in Hc' as [_ Hc'].
        apply list_elem_of_filter in Hc' as [_ Hc'].
        by apply list_elem_of_fmap_2. }
      clear -Hkeys Hmatch. revert Hkeys.
      assert (∀ c, c ∈ matching → hc_habit_id c = habit_id) as Hid
        by (intros c Hc; by apply Hmatch in Hc as [_ ?]).
      clear Hmatch. induction matching as [|c l IH]; [constructor|].
      rewrite !fmap_cons, !NoDup_cons. intros [Hc Hl]. split.
      * intros Hin. apply Hc. apply list_elem_of_fmap in Hin as (c' & Hd & Hc').
        apply list_elem_of_fmap. exists c'. split; [|done].
        unfold completion_key. rewrite Hd.
        rewrite (Hid c) by left. by rewrite (Hid c') by (by right).
      * apply IH; [|done]. intros c' Hc'. apply Hid. by right.
    + intros c [Hc _]%Hmatch. destruct (Hday c Hc) as (dt & ? & ? & ? & ? & _).
      by exists dt.
Qed.

End MonthCompletions.

(** ** Per-habit streaks (C2) *)

Section HabitStreaks.

(** [run days start len]: the [len] consecutive days from [start] on all
    belong to [days]. *)
Definition run (days : Z → Prop) (start len : Z) : Prop :=
  ∀ i, 0 ≤ i < len → days (start + i).

(** *** The current streak *)

Lemma current_streak_loop_spec (completions : list string) (n : nat) (acc : Z) :
  (∃ j, (1 ≤ j ≤ n)%nat ∧ isoformat (ord2ymd (Z.of_nat j)) ∉ completions) →
  ∃ k, (k < n)%nat
       ∧ current_streak_loop completions n acc = Some (acc + Z.of_nat k)
       ∧ (∀ i, (i < k)%nat → isoformat (ord2ymd (Z.of_nat (n - i))) ∈ completions)
       ∧ isoformat (ord2ymd (Z.of_nat (n - k))) ∉ completions.
Proof.
  revert acc. induction n as [|n IH]; intros acc (j & Hj & Hgap); [lia|].
  cbn [current_streak_loop]. case_bool_decide as Hin.
  - destruct (IH (acc + 1)) as (k & Hk & Hloop & Hdays & Hstop).
    { exists j. split; [|done].
      destruct (decide (j = S n)) as [->|]; [done|lia]. }
    exists (S k). split_and!.
    + lia.
    + rewrite Hloop. f_equal. lia.
    + intros i Hi. destruct i as [|i]; [by rewrite Nat.sub_0_r|].
      replace (S n - S i)%nat with (n - i)%nat by lia. apply Hdays. lia.
    + by replace (S n - S k)%nat with (n - k)%nat by lia.
  - exists 0%nat. split_and!.
    + lia.
    + f_equal. lia.
    + intros i Hi. lia.
    + by rewrite Nat.sub_0_r.
Qed.

(** *** The best streak *)

Lemma best_scan_spec (rest : list date) :
  ∀ (prev : date) (streak best : Z) (seen days : Z → Prop),
    1 ≤ streak → 0 ≤ best →
    (∀ n, seen n → n ≤ toordinal prev) →
    run seen (toordinal prev - streak + 1) streak →
    (∀ start len, run seen start len → start + len - 1 = toordinal prev →
                  len ≤ streak) →
    (∀ start len, run seen start len → len ≤ Z.max best streak) →
    (best = 0 ∨ ∃ start, run seen start best) →
    StronglySorted Z.lt (toordinal prev :: (toordinal <$> rest)) →
    (∀ n, days n ↔ seen n ∨ n ∈ toordinal <$> rest) →
    (∃ start, run days start (best_scan prev rest streak best))
    ∧ (∀ start len, run days start len → len ≤ best_scan prev rest streak best).
Proof.
  induction rest as [|d rest IH];
    intros prev streak best seen days Hstreak Hbest Hmax Hcur Hend Hall Hwit
      Hsorted Hdays.
  - cbn [best_scan].
    assert (Hd : ∀ n, days n ↔ seen n).
    { intros n. rewrite Hdays, fmap_nil, elem_of_nil. tauto. }
    split.
    + destruct (Z.max_spec best streak) as [[_ ->]|[Hlt ->]].
      * exists (toordinal prev - streak + 1). intros i Hi. apply Hd. by apply Hcur.
      * destruct Hwit as [->|(start & Hrun)]; [lia|].
        exists start. intros i Hi. apply Hd. by apply Hrun.
    + intros start len Hrun. apply (Hall start). intros i Hi. apply Hd.
      by apply Hrun.
  - cbn [best_scan].
    apply StronglySorted_inv in Hsorted as [Hsorted Hprev].
    rewrite fmap_cons in Hsorted, Hprev.
    assert (Hlt : toordinal prev < toordinal d) by (by inv Hprev).
    set (seen' := λ n, seen n ∨ n = toordinal d).
    assert (Hmax' : ∀ n, seen' n → n ≤ toordinal d).
    { intros n [Hn| ->]; [|lia]. specialize (Hmax n Hn). lia. }
    assert (Hdays' : ∀ n, days n ↔ seen' n ∨ n ∈ toordinal <$> rest).
    { intros n. rewrite Hdays, fmap_cons, elem_of_cons. unfold seen'. tauto. }
    assert (Hbelow : ∀ start len, run seen' start len →
              start + len - 1 < toordinal d → run seen start len).
    { intros start len Hrun Hlast i Hi.
      destruct (Hrun i Hi) as [Hs|Heq]; [done|lia]. }
    assert (Hlast : ∀ start len, run seen' start len → 0 < len →
              start + len - 1 ≤ toordinal d).
    { intros start len Hrun Hlen.
      replace (start + len - 1) with (start + (len - 1)) by lia.
      apply Hmax', Hrun. lia. }
    destruct (Z.eqb_spec (toordinal d - toordinal prev) 1) as [Hnext|Hgap].
    + apply (IH d (streak + 1) best seen' days); try done; try lia.
      * intros i Hi. destruct (decide (i = streak)) as [->|].
        -- right. lia.
        -- left. replace (toordinal d - (streak + 1) + 1 + i)
             with (toordinal prev - streak + 1 + i) by lia.
           apply Hcur. lia.
      * intros start len Hrun Hendd.
        destruct (decide (len ≤ 1)); [lia|].
        assert (len - 1 ≤ streak); [|lia].
        apply (Hend start). 2: lia.
        apply Hbelow; [|lia]. intros i Hi. apply Hrun. lia.
      * intros start len Hrun.
        destruct (decide (len ≤ 0)); [lia|].
        pose proof (Hlast start len Hrun ltac:(lia)).
        destruct (decide (start + len - 1 = toordinal d)) as [Heq|].
        -- assert (len - 1 ≤ streak); [|lia].
           apply (Hend start). 2: lia.
           apply Hbelow; [|lia]. intros i Hi. apply Hrun. lia.
        -- pose proof (Hall start len (Hbelow start len Hrun ltac:(lia))). lia.
      * destruct Hwit as [->|(start & Hrun)]; [by left|right].
        exists start. intros i Hi. left. by apply Hrun.
    + apply (IH d 1 (Z.max best streak) seen' days); try done; try lia.
      * intros i Hi. right. lia.
      * intros start len Hrun Hendd.
        destruct (decide (len ≤ 1)); [done|]. exfalso.
        destruct (Hrun (len - 2) ltac:(lia)) as [Hs|Heq]; [|lia].
        specialize (Hmax _ Hs). lia.
      * intros start len Hrun.
        destruct (decide (len ≤ 0)); [lia|].
        pose proof (Hlast start len Hrun ltac:(lia)).
        destruct (decide (start + len - 1 = toordinal d)) as [Heq|].
        -- destruct (decide (len ≤ 1)); [lia|]. exfalso.
           destruct (Hrun (len - 2) ltac:(lia)) as [Hs|Heq']; [|lia].
           specialize (Hmax _ Hs). lia.
        -- pose proof (Hall start len (Hbelow start len Hrun ltac:(lia))). lia.
      * right. destruct (Z.max_spec best streak) as [[_ ->]|[Hlt' ->]].
        -- exists (toordinal prev - streak + 1). intros i Hi. left. by apply Hcur.
        -- destruct Hwit as [->|(start & Hrun)]; [lia|].
           exists start. intros i Hi. left. by apply Hrun.
Qed.

Lemma sorted_ordinals (l : list date) :
  (∀ dt, dt ∈ l → valid_date dt = true) → NoDup l →
  StronglySorted date_le l → StronglySorted Z.lt (toordinal <$> l).
Proof.
  intros Hvalid Hnd Hs. induction Hs as [|x l Hl IH Hx]; [constructor|].
  apply NoDup_cons in Hnd as [Hxl Hnd]. rewrite fmap_cons. constructor.
  - apply IH; [|done]. intros dt Hdt. apply Hvalid. by right.
  - rewrite Forall_fmap. rewrite Forall_forall in Hx |- *. intros y Hy. cbn.
    assert (valid_date x = true) as Hvx by (apply Hvalid; left).
    assert (valid_date y = true) as Hvy by (apply Hvalid; by right).
    pose proof (toordinal_le x y Hvx Hvy (Hx y Hy)).
    assert (toordinal x ≠ toordinal y); [|lia].
    intros Heq. apply toordinal_inj in Heq; [|done..]. by subst.
Qed.

Lemma mapM_strptime_iso (completions : list string) :
  (∀ s, s ∈ completions → is_iso_date s = true) →
  ∃ dates, mapM strptime completions = Some dates
           ∧ completions = isoformat <$> dates
           ∧ (∀ dt, dt ∈ dates → valid_date dt = true)
           ∧ (∀ dt, dt ∈ dates ↔ ∃ s, s ∈ completions ∧ strptime s = Some dt).
Proof.
  induction completions as [|s l IH]; intros Hiso.
  { exists []. split_and!; try done.
    - intros dt Hdt. by apply elem_of_nil in Hdt.
    - intros dt. rewrite elem_of_nil. split; [done|].
      intros (s & Hs & _). by apply elem_of_nil in Hs. }
  destruct IH as (dates & Hm & Hl & Hv & Hin).
  { intros s' Hs'. apply Hiso. by right. }
  destruct (proj1 (is_iso_date_spec s) (Hiso s ltac:(left))) as (dt & Hs & Hf).
  exists (dt :: dates). split_and!.
  - cbn. rewrite Hs. cbn. by rewrite Hm.
  - by rewrite fmap_cons, Hf, <-Hl.
  - intros dt' [->|Hdt']%elem_of_cons; [by eapply strptime_valid|by apply Hv].
  - intros dt'. rewrite elem_of_cons, Hin. split.
    + intros [->|(s' & Hs' & Hp)].
      * exists s. split; [by left|done].
      * exists s'. split; [by right|done].
    + intros (s' & [->|Hs']%elem_of_cons & Hp).
      * left. rewrite Hs in Hp. by simplify_eq.
      * right. by exists s'.
Qed.

Lemma best_streak_of_spec (completions : list string) :
  (∀ s, s ∈ completions → is_iso_date s = true) →
  NoDup completions →
  let days := λ n, ∃ s dt, s ∈ completions ∧ strptime s = Some dt
                           ∧ toordinal dt = n in
  ∃ best, best_streak_of completions = Some best
          ∧ 0 ≤ best
          ∧ (∃ start, run days start best)
          ∧ (∀ start len, run days start len → len ≤ best).
Proof.
  intros Hiso Hnd days.
  destruct (decide (completions = [])) as [Hnil|Hne].
  { exists 0. split_and!; try done.
    - by rewrite Hnil.
    - exists 0. intros i Hi. lia.
    - intros start len Hrun. destruct (decide (len ≤ 0)); [done|].
      destruct (Hrun 0 ltac:(lia)) as (s & _ & Hs & _).
      rewrite Hnil in Hs. by apply elem_of_nil in Hs. }
  destruct (mapM_strptime_iso completions Hiso) as (dates & Hm & Hc & Hv & Hin).
  assert (Hbest : best_streak_of completions
                  = match merge_sort date_le dates with
                    | [] => Some 0
                    | first :: rest => Some (best_scan first rest 1 0)
                    end).
  { unfold best_streak_of. rewrite Hm. clear -Hne. by destruct completions. }
  rewrite Hbest. clear Hbest.
  assert (Hnd' : NoDup dates).
  { rewrite Hc in Hnd. by apply NoDup_fmap_1 in Hnd. }
  pose proof (merge_sort_Permutation date_le dates) as Hperm.
  assert (Hsorted : StronglySorted Z.lt (toordinal <$> merge_sort date_le dates)).
  { apply sorted_ordinals.
    - intros dt Hdt. apply Hv. by rewrite <-Hperm.
    - by rewrite Hperm.
    - apply StronglySorted_merge_sort; apply _. }
  assert (Hdays : ∀ n, days n ↔ n ∈ toordinal <$> merge_sort date_le dates).
  { intros n. unfold days. rewrite Hperm, list_elem_of_fmap. split.
    - intros (s & dt & Hs & Hp & <-). exists dt. split; [done|].
      apply Hin. by exists s.
    - intros (dt & -> & (s & Hs & Hp)%Hin). by exists s, dt. }
  destruct (merge_sort date_le dates) as [|first rest] eqn:Es.
  { exfalso. apply Permutation_nil in Hperm. rewrite Hperm in Hc. done. }
  rewrite fmap_cons in Hsorted.
  destruct (best_scan_spec rest first 1 0 (λ n, n = toordinal first) days)
    as [Hwit Hupper]; try done; try lia.
  - intros i Hi. assert (i = 0) as -> by lia. lia.
  - intros start len Hrun Hend. destruct (decide (len ≤ 1)); [done|].
    specialize (Hrun (len - 2) ltac:(lia)). cbn in Hrun. lia.
  - intros start len Hrun. destruct (decide (len ≤ 1)); [lia|].
    pose proof (Hrun 0 ltac:(lia)) as H0. pose proof (Hrun 1 ltac:(lia)) as H1.
    cbn in H0, H1. lia.
  - intros n. rewrite Hdays, fmap_cons, elem_of_cons. tauto.
  - eexists. split; [done|]. split_and!; try done.
    assert (1 ≤ best_scan first rest 1 0); [|lia].
    apply (Hupper (toordinal first) 1). intros i Hi. apply Hdays.
    rewrite fmap_cons. assert (i = 0) as -> by lia. rewrite Z.add_0_r. left.
Qed.

(** *** Days with a completion *)

(** The habit has a completion on the day of ordinal [n]. *)
Definition completed_on (st : store) (habit_id : Z) (n : Z) : Prop :=
  ∃ c dt, c ∈ completions st ∧ hc_habit_id c = habit_id
          ∧ strptime (hc_date c) = Some dt ∧ toordinal dt = n.

Lemma char_of_digit_inj (j k : Z) :
  is_digit_value j → is_digit_value k → char_of_digit j = char_of_digit k → j = k.
Proof.
  intros Hj Hk Heq. pose proof (char_of_digit_eqb j k Hj Hk) as Hb.
  rewrite Heq, Ascii.eqb_refl in Hb. symmetry in Hb.
  by apply bool_decide_eq_true in Hb.
Qed.

Lemma isoformat_inj (a b : date) :
  valid_date a = true → valid_date b = true → isoformat a = isoformat b → a = b.
Proof.
  intros Ha Hb Heq.
  destruct (isoformat_chars a Ha)
    as (y1 & y2 & y3 & y4 & m1 & m2 & d1 & d2
        & ? & ? & ? & ? & ? & ? & ? & ? & Hy & Hm & Hd & Hs).
  destruct (isoformat_chars b Hb)
    as (y1' & y2' & y3' & y4' & m1' & m2' & d1' & d2'
        & ? & ? & ? & ? & ? & ? & ? & ? & Hy' & Hm' & Hd' & Hs').
  rewrite Hs, Hs' in Heq. unfold iso_chars in Heq.
  injection Heq as E1 E2 E3 E4 E5 E6 E7 E8.
  apply char_of_digit_inj in E1, E2, E3, E4, E5, E6, E7, E8; try done.
  destruct a, b. cbn in *. f_equal; lia.
Qed.

Lemma completion_dates_elem (st : store) (habit_id : Z) (s : string) :
  s ∈ completion_dates st habit_id
  ↔ ∃ c, c ∈ completions st ∧ hc_habit_id c = habit_id ∧ hc_date c = s.
Proof.
  unfold completion_dates. rewrite merge_sort_Permutation, list_elem_of_fmap.
  split.
  - intros (c & -> & [Hid Hc]%list_elem_of_filter). by exists c.
  - intros (c & Hc & Hid & <-). exists c. split; [done|].
    by apply list_elem_of_filter.
Qed.

Lemma completion_dates_NoDup (st : store) (habit_id : Z) :
  unique_completions st → NoDup (completion_dates st habit_id).
Proof.
  unfold unique_completions, completion_keys, completion_dates.
  rewrite merge_sort_Permutation.
  induction (completions st) as [|c l IH]; [constructor|].
  rewrite fmap_cons, NoDup_cons. intros [Hc Hl].
  rewrite filter_cons. case_decide as Hid; [|by apply IH].
  rewrite fmap_cons. apply NoDup_cons. split; [|by apply IH].
  intros Hin. apply Hc. apply list_elem_of_fmap in Hin as (c' & Hd & Hc').
  apply list_elem_of_filter in Hc' as [Hid' Hc'].
  apply list_elem_of_fmap. exists c'. split; [|done].
  unfold completion_key. by rewrite Hd, Hid, Hid'.
Qed.

Lemma completion_dates_length (st : store) (habit_id : Z) :
  length (completion_dates st habit_id)
  = length (filter (λ c, hc_habit_id c = habit_id) (completions st)).
Proof.
  unfold completion_dates. by rewrite merge_sort_Permutation, length_fmap.
Qed.

(** On canonical dates, looking a day's ISO rendering up among the stored
    strings is asking whether the habit has a completion on that day. *)
Lemma rendered_day_completed (st : store) (habit_id n : Z) :
  iso_store st → 1 ≤ n ≤ MAXORDINAL →
  isoformat (ord2ymd n) ∈ completion_dates st habit_id
  ↔ completed_on st habit_id n.
Proof.
  intros Hiso Hn. destruct (ord2ymd_correct n Hn) as [Hv Hord].
  rewrite completion_dates_elem. split.
  - intros (c & Hc & Hid & Hd).
    destruct (proj1 (is_iso_date_spec _) (Hiso c Hc)) as (dt & Hs & Hf).
    exists c, dt. split_and!; try done.
    assert (dt = ord2ymd n) as ->; [|done].
    apply isoformat_inj; [by eapply strptime_valid|done|congruence].
  - intros (c & dt & Hc & Hid & Hs & Hdt). exists c. split_and!; try done.
    destruct (proj1 (is_iso_date_spec _) (Hiso c Hc)) as (dt' & Hs' & Hf).
    rewrite Hs in Hs'. simplify_eq.
    by rewrite fromordinal_toordinal by (by eapply strptime_valid).
Qed.

(** What [get_habit_streaks] must report for a habit. *)
Definition streak_entry_ok (st : store) (today : Z) (h : habit) (e : habit_streak)
  : Prop :=
  let done_on := completed_on st (h_id h) in
  hs_id e = h_id h ∧ hs_name e = h_name h
  ∧ hs_icon e = h_icon h ∧ hs_color e = h_color h
  ∧ 0 ≤ hs_current_streak e
  ∧ run done_on (today - hs_current_streak e + 1) (hs_current_streak e)
  ∧ ¬ done_on (today - hs_current_streak e)
  ∧ (¬ done_on today → hs_current_streak e = 0)
  ∧ 0 ≤ hs_best_streak e
  ∧ (∃ start, run done_on start (hs_best_streak e))
  ∧ (∀ start len, run done_on start len → len ≤ hs_best_streak e)
  ∧ hs_total_completions e
    = Z.of_nat (length (filter (λ c, hc_habit_id c = h_id h) (completions st))).

Lemma habit_streak_of_spec (st : store) (today : Z) (h : habit) :
  unique_completions st → iso_store st →
  1 ≤ today ≤ MAXORDINAL →
  (∃ j, 1 ≤ j ≤ today ∧ ¬ completed_on st (h_id h) j) →
  ∃ e, habit_streak_of st today h = Some e ∧ streak_entry_ok st today h e.
Proof.
  intros Hunique Hiso Htoday (j & Hj & Hgap).
  unfold habit_streak_of. rewrite fromordinal_in_range by done.
  cbn [mbind option_bind].
  set (dates := completion_dates st (h_id h)).
  destruct (current_streak_loop_spec dates (Z.to_nat today) 0)
    as (k & Hk & Hloop & Hdays & Hstop).
  { exists (Z.to_nat j). split; [lia|]. rewrite Z2Nat.id by lia.
    unfold dates. rewrite rendered_day_completed; [done|done|].
    unfold MAXORDINAL in *. lia. }
  rewrite Hloop. cbn [mbind option_bind].
  destruct (best_streak_of_spec dates) as (best & Hbest & Hpos & Hwit & Hupper).
  { intros s (c & Hc & _ & <-)%completion_dates_elem. by apply Hiso. }
  { by apply completion_dates_NoDup. }
  rewrite Hbest. cbn [mbind option_bind]. eexists. split; [done|].
  assert (Hday : ∀ n, (∃ s dt, s ∈ dates ∧ strptime s = Some dt ∧ toordinal dt = n)
                      ↔ completed_on st (h_id h) n).
  { intros n. split.
    - intros (s & dt & (c & Hc & Hid & <-)%completion_dates_elem & Hs & Hdt).
      by exists c, dt.
    - intros (c & dt & Hc & Hid & Hs & Hdt). exists (hc_date c), dt.
      split_and!; try done. apply completion_dates_elem. by exists c. }
  unfold streak_entry_ok.
  cbn [hs_id hs_name hs_icon hs_color hs_current_streak hs_best_streak
       hs_total_completions].
  rewrite Z.add_0_l.
  assert (Hrange : ∀ i, (i ≤ k)%nat →
            1 ≤ Z.of_nat (Z.to_nat today - i) ≤ MAXORDINAL) by lia.
  split_and!; try done.
  - lia.
  - intros i Hi.
    replace (today - Z.of_nat k + 1 + i)
      with (Z.of_nat (Z.to_nat today - (k - 1 - Z.to_nat i))) by lia.
    apply rendered_day_completed; [done|apply Hrange; lia|].
    apply Hdays. lia.
  - replace (today - Z.of_nat k) with (Z.of_nat (Z.to_nat today - k)) by lia.
    rewrite <-rendered_day_completed; [done|done|by apply Hrange].
  - intros Hnot. destruct k as [|k]; [done|]. exfalso. apply Hnot.
    specialize (Hdays 0%nat ltac:(lia)). rewrite Nat.sub_0_r, Z2Nat.id in Hdays by lia.
    by apply rendered_day_completed in Hdays.
  - destruct Hwit as (start & Hrun). exists start. intros i Hi.
    apply Hday. by apply Hrun.
  - intros start len Hrun. apply (Hupper start). intros i Hi.
    apply Hday. by apply Hrun.
  - unfold dates. by rewrite completion_dates_length.
Qed.

(** A decision procedure for [completed_on]. *)
Definition completed_onb (st : store) (habit_id n : Z) : bool :=
  existsb (λ c, (hc_habit_id c =? habit_id)
                && match strptime (hc_date c) with
                   | Some dt => toordinal dt =? n
                   | None => false
                   end) (completions st).

Lemma completed_onb_spec (st : store) (habit_id n : Z) :
  completed_onb st habit_id n = true ↔ completed_on st habit_id n.
Proof.
  unfold completed_onb, completed_on. rewrite existsb_exists. split.
  - intros (c & Hc%list_elem_of_In & [Hid Hs]%andb_true_iff).
    destruct (strptime (hc_date c)) as [dt|] eqn:E; [|done].
    exists c, dt. by rewrite Z.eqb_eq in Hid, Hs.
  - intros (c & dt & Hc & Hid & Hs & Hdt). exists c.
    split; [by apply list_elem_of_In|].
    rewrite Hs. apply andb_true_iff. by rewrite !Z.eqb_eq.
Qed.

(** The example of the specification: one habit, completed on the first,
    second, third, fifth and sixth of January 2024. *)
Definition january : store :=
  let st := init_database empty_store in
  let st := (create_habit st "2024-01-01 08:00:00" "Read" "R" "#6366F1").1 in
  toggle_all st 1
    ["2024-01-01"; "2024-01-02"; "2024-01-03"; "2024-01-05"; "2024-01-06"].

Definition january_6 : Z := 738891.

(** C2, as the code has it.  On a store that satisfies
    [UNIQUE(habit_id, date)] and whose completion dates are all zero-padded
    ISO dates, for a habit that has some day up to today without a
    completion, [get_habit_streaks] returns one entry per habit, in listing
    order, in which: the current streak is the number of consecutive days
    with a completion counted backward from today and stopped by the first
    day without one, so 0 when today has none; the best streak is the
    length of the longest run of consecutive days with a completion, in the
    whole history; and the total is the number of completion records.  For
    completions on 2024-01-01, 02, 03, 05 and 06 the best streak is 3. *)
Theorem habit_streaks_correct :
  (∀ (st : store) (today : Z),
     unique_completions st → iso_store st →
     1 ≤ today ≤ MAXORDINAL →
     (∀ h, h ∈ habits st → ∃ j, 1 ≤ j ≤ today ∧ ¬ completed_on st (h_id h) j) →
     ∃ result,
       get_habit_streaks st today = Some result
       ∧ Forall2 (streak_entry_ok st today) (get_all_habits st) result)
  ∧ (λ e, (hs_id e, hs_current_streak e, hs_best_streak e, hs_total_completions e))
      <$> default [] (get_habit_streaks january january_6)
    = [(1, 2, 3, 5)].
Proof.
  split; [|by vm_compute].
  intros st today Hunique Hiso Htoday Hgap. unfold get_habit_streaks.
  assert (Hall : ∀ h, h ∈ get_all_habits st →
            ∃ e, habit_streak_of st today h = Some e ∧ streak_entry_ok st today h e).
  { intros h Hh. apply habit_streak_of_spec; try done.
    apply Hgap. by rewrite <-(get_all_habits_perm st). }
  induction (get_all_habits st) as [|h l IH].
  { exists []. split; [done|constructor]. }
  destruct (Hall h ltac:(left)) as (e & He & Hok).
  destruct IH as (result & Hres & Hf).
  { intros h' Hh'. apply Hall. by right. }
  exists (e :: result). split; [|by constructor].
  cbn. rewrite He. cbn. by rewrite Hres.
Qed.

(** One habit with completions dated 2024-01-01, 2024-01-02 and 2024-01-03
    and one more, for the second of January again, written without zero
    padding. *)
Definition unpadded : store :=
  let st := init_database empty_store in
  let st := (create_habit st "2024-01-01 08:00:00" "Read" "R" "#6366F1").1 in
  toggle_all st 1 ["2024-01-01"; "2024-01-02"; "2024-1-2"; "2024-01-03"].

(** One habit with a completion whose date is not a date. *)
Definition undated : store :=
  let st := init_database empty_store in
  let st := (create_habit st "2024-01-01 08:00:00" "Read" "R" "#6366F1").1 in
  toggle_all st 1 ["someday"].

(** With a stored date that is not a date, [get_habit_streaks] raises. *)
Lemma habit_streaks_raise_on_undated (today : Z) :
  reachable undated ∧ get_habit_streaks undated today = None.
Proof.
  split.
  { apply toggle_all_reachable, reach_create_habit, reach_first_start. }
  assert (Hh : get_all_habits undated
               = [mk_habit 1 "Read" "R" "#6366F1" "2024-01-01 08:00:00" (Some 0)])
    by (by vm_compute).
  unfold get_habit_streaks. rewrite Hh. cbn [mapM]. unfold habit_streak_of.
  destruct (fromordinal today); [|done]. cbn [mbind option_bind].
  destruct (current_streak_loop _ _ _); [|done]. cbn [mbind option_bind].
  assert (best_streak_of
            (completion_dates undated
               (h_id (mk_habit 1 "Read" "R" "#6366F1" "2024-01-01 08:00:00" (Some 0))))
          = None) as -> by (by vm_compute).
  done.
Qed.

(** C2 as stated fails.  In the store [unpadded], reachable through
    [toggle_habit_completion], the habit has completions on the three
    consecutive days 2024-01-01 to 2024-01-03, yet on 2024-01-06 the
    function reports a best streak of 2: [strptime] reads both [2024-01-02]
    and [2024-1-2] as the second of January, and the repeated date cuts the
    run in the scan. *)
Lemma habit_streaks_wrong_on_unpadded :
  ¬ (∀ (st : store) (today : Z),
       reachable st → unique_completions st → 1 ≤ today ≤ MAXORDINAL →
       (∀ h, h ∈ habits st → ∃ j, 1 ≤ j ≤ today ∧ ¬ completed_on st (h_id h) j) →
       ∃ result,
         get_habit_streaks st today = Some result
         ∧ Forall2 (streak_entry_ok st today) (get_all_habits st) result).
Proof.
  intros Hclaim.
  destruct (Hclaim unpadded january_6) as (result & Hres & Hok).
  - apply toggle_all_reachable, reach_create_habit, reach_first_start.
  - unfold unique_completions. apply (bool_decide_unpack _). by vm_compute.
  - by vm_compute.
  - intros h Hh. exists 738885. split; [by vm_compute|].
    assert (habits unpadded
            = [mk_habit 1 "Read" "R" "#6366F1" "2024-01-01 08:00:00" (Some 0)])
      as Hhs by (by vm_compute).
    rewrite Hhs in Hh. apply list_elem_of_singleton in Hh as ->.
    rewrite <-completed_onb_spec. by vm_compute.
  - assert (Hh : get_all_habits unpadded
               = [mk_habit 1 "Read" "R" "#6366F1" "2024-01-01 08:00:00" (Some 0)])
      by (by vm_compute).
    assert (Hr : get_habit_streaks unpadded january_6
                 = Some [mk_habit_streak 1 "Read" "R" "#6366F1" 0 2 4])
      by (by vm_compute).
    rewrite Hh in Hok. rewrite Hr in Hres. clear Hh Hr Hclaim.
    injection Hres as <-.
    apply Forall2_cons_1 in Hok as [Hentry _].
    destruct Hentry as (_ & _ & _ & _ & _ & _ & _ & _ & _ & _ & Hupper & _).
    cbn [hs_best_streak h_id] in Hupper. specialize (Hupper 738886 3).
    assert (3 ≤ 2); [|lia]. apply Hupper.
    intros i Hi. apply completed_onb_spec.
    assert (i = 0 ∨ i = 1 ∨ i = 2) as [->|[->| ->]] by lia; by vm_compute.
Qed.

End HabitStreaks.

(** * Further properties of the operations *)

(** ** Listing the tasks of a day *)

Section Tasks.

Lemma leb_le (a b : string) : String.leb a b = true ↔ String.le a b.
Proof. unfold String.le. by rewrite Is_true_true. Qed.

Lemma task_order_cases (a b : task) :
  task_order a b
  ↔ (t_priority a = t_priority b ∧ String.le (t_created_at a) (t_created_at b))
    ∨ (t_priority a ≠ t_priority b ∧ String.le (t_priority b) (t_priority a)).
Proof.
  unfold task_order, task_order_leb.
  destruct (String.eqb (t_priority a) (t_priority b)) eqn:E.
  - apply String.eqb_eq in E. rewrite leb_le. naive_solver.
  - apply String.eqb_neq in E. rewrite leb_le. naive_solver.
Qed.

#[global] Instance task_order_total : Total task_order.
Proof.
  intros a b. rewrite !task_order_cases.
  destruct (decide (t_priority a = t_priority b)) as [E|E].
  - destruct (total String.le (t_created_at a) (t_created_at b)); [left|right]; left;
      by split.
  - destruct (total String.le (t_priority a) (t_priority b)); [right|left]; right;
      by split.
Qed.

#[global] Instance task_order_trans : Transitive task_order.
Proof.
  intros a b c. rewrite !task_order_cases.
  intros [[E1 H1]|[E1 H1]] [[E2 H2]|[E2 H2]].
  - left. split; [congruence|]. by etrans.
  - right. split; [congruence|]. by rewrite E1.
  - right. split; [congruence|]. by rewrite <-E2.
  - right. split; [|by etrans].
    intros E. apply E1. apply (anti_symm String.le); [|done]. by rewrite E.
Qed.

Lemma get_tasks_for_date_perm (st : store) (date_str : string) :
  get_tasks_for_date st date_str ≡ₚ filter (λ t, t_date t = date_str) (tasks st).
Proof. apply merge_sort_Permutation. Qed.

Lemma get_tasks_for_date_elem (st : store) (date_str : string) (t : task) :
  t ∈ get_tasks_for_date st date_str ↔ t ∈ tasks st ∧ t_date t = date_str.
Proof. rewrite get_tasks_for_date_perm, list_elem_of_filter. tauto. Qed.

Lemma StronglySorted_lookup {A} (R : relation A) (l : list A) (i j : nat) (a b : A) :
  StronglySorted R l → l !! i = Some a → l !! j = Some b → (i < j)%nat → R a b.
Proof.
  intros Hs. revert i j. induction Hs as [|x l Hs IH Hx]; intros i j Hi Hj Hlt.
  { done. }
  destruct j as [|j]; [lia|]. destruct i as [|i].
  - cbn in Hi, Hj. injection Hi as <-. rewrite Forall_forall in Hx.
    eapply Hx, list_elem_of_lookup_2, Hj.
  - cbn in Hi, Hj. eapply IH; [done|done|lia].
Qed.

Lemma get_tasks_for_date_order (st : store) (date_str : string) (i j : nat)
    (a b : task) :
  get_tasks_for_date st date_str !! i = Some a →
  get_tasks_for_date st date_str !! j = Some b →
  (i < j)%nat →
  task_order a b.
Proof.
  apply StronglySorted_lookup. apply StronglySorted_merge_sort; apply _.
Qed.

(** X1.  [get_tasks_for_date] returns the tasks whose date is the given
    string, each as often as the table holds it, and no other row.  Of two
    rows of the result the earlier one has the priority that is greater or
    equal as a string; with equal priorities it has the [created_at] that is
    smaller or equal. *)
Theorem get_tasks_for_date_sorted (st : store) (date_str : string) :
  let listing := get_tasks_for_date st date_str in
  listing ≡ₚ filter (λ t, t_date t = date_str) (tasks st)
  ∧ (∀ t, t ∈ listing ↔ t ∈ tasks st ∧ t_date t = date_str)
  ∧ ∀ i j a b,
      listing !! i = Some a → listing !! j = Some b → (i < j)%nat →
      String.le (t_priority b) (t_priority a)
      ∧ (t_priority a = t_priority b
         → String.le (t_created_at a) (t_created_at b)).
Proof.
  cbv zeta. split; [apply get_tasks_for_date_perm|].
  split; [apply get_tasks_for_date_elem|].
  intros i j a b Hi Hj Hlt.
  pose proof (get_tasks_for_date_order st date_str i j a b Hi Hj Hlt) as Ho.
  apply task_order_cases in Ho as [[E Hc]|[E Hp]].
  - split; [by rewrite E|done].
  - split; [done|by intros ?].
Qed.

(** X2.  The priorities are ordered as text, so the listing of a day shows
    the tasks of priority "medium" first, then "low", then "high": a "high"
    task never stands before a "medium" or a "low" one, and a "low" task
    never before a "medium" one. *)
Theorem priority_order_is_alphabetical (st : store) (date_str : string)
    (i j : nat) (a b : task) :
  get_tasks_for_date st date_str !! i = Some a →
  get_tasks_for_date st date_str !! j = Some b →
  (i < j)%nat →
  (t_priority a = "high" → t_priority b ≠ "medium" ∧ t_priority b ≠ "low")
  ∧ (t_priority a = "low" → t_priority b ≠ "medium").
Proof.
  intros Hi Hj Hlt.
  pose proof (get_tasks_for_date_order st date_str i j a b Hi Hj Hlt) as Ho.
  apply task_order_cases in Ho as [[E Hc]|[E Hp]].
  - rewrite <-E. split; [intros ->; by split|by intros ->].
  - split.
    + intros Ea. rewrite Ea in Hp. split; intros Eb; by rewrite Eb in Hp.
    + intros Ea Eb. by rewrite Ea, Eb in Hp.
Qed.

End Tasks.

(** ** The task operations *)

Section TaskOperations.

(** The constraints of the tasks table that the operations keep: ids that
    are unique, positive and bounded by the AUTOINCREMENT counter, and a
    [completed] flag that is 0 or 1. *)
Definition tasks_wf (st : store) : Prop :=
  NoDup (t_id <$> tasks st)
  ∧ 0 ≤ tasks_seq st
  ∧ ∀ t, t ∈ tasks st →
         1 ≤ t_id t ≤ tasks_seq st ∧ (t_completed t = 0 ∨ t_completed t = 1).

(** The row update of [toggle_task]. *)
Definition flip_completed (task_id : Z) (t : task) : task :=
  if t_id t =? task_id
  then mk_task (t_id t) (t_title t) (t_date t)
         (if t_completed t =? 1 then 0 else 1)
         (t_priority t) (t_start_time t) (t_end_time t) (t_created_at t)
  else t.

Lemma flip_completed_id (task_id : Z) (t : task) :
  t_id (flip_completed task_id t) = t_id t.
Proof. unfold flip_completed. by destruct (t_id t =? task_id). Qed.

Lemma toggle_task_rows (st : store) (task_id : Z) :
  tasks (toggle_task_bound st task_id).1 = flip_completed task_id <$> tasks st
  ∧ tasks_seq (toggle_task_bound st task_id).1 = tasks_seq st.
Proof. done. Qed.

Lemma toggle_task_ids (st : store) (task_id : Z) :
  t_id <$> tasks (toggle_task_bound st task_id).1 = t_id <$> tasks st.
Proof.
  destruct (toggle_task_rows st task_id) as [-> _].
  rewrite <-list_fmap_compose. apply list_fmap_ext. intros i t _.
  apply flip_completed_id.
Qed.

Lemma NoDup_fmap_filter {A B} (f : A → B) (P : A → Prop) `{!∀ x, Decision (P x)}
    (l : list A) :
  NoDup (f <$> l) → NoDup (f <$> filter P l).
Proof.
  induction l as [|x l IH]; [done|]. rewrite fmap_cons, NoDup_cons.
  intros [Hx Hnd]. rewrite filter_cons. case_decide; [|by apply IH].
  rewrite fmap_cons. apply NoDup_cons. split; [|by apply IH].
  intros Hin. apply Hx. apply list_elem_of_fmap in Hin as (y & -> & Hy).
  apply list_elem_of_filter in Hy as [_ Hy]. by apply list_elem_of_fmap_2.
Qed.

Lemma filter_by_key {A} (f : A → Z) (l : list A) (x : A) :
  NoDup (f <$> l) → x ∈ l → filter (λ y, f y = f x) l = [x].
Proof.
  induction l as [|y l IH]; intros Hnd Hx.
  { by apply elem_of_nil in Hx. }
  rewrite fmap_cons in Hnd. apply NoDup_cons in Hnd as [Hy Hnd].
  apply elem_of_cons in Hx as [->|Hx].
  - rewrite filter_cons_True by done. f_equal.
    apply elem_of_nil_inv. intros z [Hz Hin]%list_elem_of_filter.
    apply Hy. rewrite <-Hz. by apply list_elem_of_fmap_2.
  - rewrite filter_cons_False; [by apply IH|].
    intros Heq. apply Hy. rewrite Heq. by apply list_elem_of_fmap_2.
Qed.

Lemma filter_none {A} (P : A → Prop) `{!∀ x, Decision (P x)} (l : list A) :
  (∀ x, x ∈ l → ¬ P x) → filter P l = [].
Proof.
  intros Hl. apply elem_of_nil_inv. intros x [HP Hx]%list_elem_of_filter.
  by apply (Hl x).
Qed.

Lemma filter_all {A} (P : A → Prop) `{!∀ x, Decision (P x)} (l : list A) :
  (∀ x, x ∈ l → P x) → filter P l = l.
Proof.
  induction l as [|x l IH]; [done|]. intros Hl.
  rewrite filter_cons_True by (apply Hl; left).
  f_equal. apply IH. intros y Hy. apply Hl. by right.
Qed.

Lemma set_tasks_id (st : store) : set_tasks st (tasks st) = st.
Proof. by destruct st. Qed.

Lemma init_database_tasks (st : store) (t' : task) :
  t' ∈ tasks (init_database st) →
  ∃ t, t ∈ tasks st ∧ t_id t' = t_id t ∧ t_completed t' = t_completed t.
Proof.
  intros Hin. destruct (init_database_keeps_rows st) as (_ & _ & Ht & _).
  apply (list_elem_of_fmap_2
           (λ t, (t_id t, t_title t, t_date t, t_completed t, t_priority t,
                  t_created_at t))) in Hin.
  rewrite Ht in Hin. apply list_elem_of_fmap in Hin as (t & Heq & Hin).
  exists t. split; [done|]. by injection Heq as -> _ _ -> _ _.
Qed.

Lemma init_database_task_ids (st : store) :
  t_id <$> tasks (init_database st) = t_id <$> tasks st.
Proof.
  destruct (init_database_keeps_rows st) as (_ & _ & Ht & _).
  apply (f_equal (fmap (λ x : Z * string * string * Z * string * string,
                          x.1.1.1.1.1))) in Ht.
  by rewrite <-!list_fmap_compose in Ht.
Qed.

Lemma reachable_tasks_wf (st : store) : reachable st → tasks_wf st.
Proof.
  induction 1 as [|st Hr IH|st now name icon color Hr IH|st habit_id Hr IH
                  |st habit_ids Hr IH|st habit_id date_str st' new_state Hr IH Ht
                  |st now title date_str priority start_time end_time Hr IH
                  |st task_id Hr IH|st task_id Hr IH|st key value Hr IH]
    using reachable_bound_ind.
  - split_and!; [constructor|done|]. intros t Ht. by apply elem_of_nil in Ht.
  - destruct IH as (Hnd & Hseq & Hrows).
    assert (tasks_seq (init_database st) = tasks_seq st) as Hs
      by (by rewrite init_database_effect).
    split_and!.
    + by rewrite init_database_task_ids.
    + by rewrite Hs.
    + intros t' Ht'. apply init_database_tasks in Ht' as (t & Ht & -> & ->).
      rewrite Hs. by apply Hrows.
  - done.
  - done.
  - destruct (update_order_loop_frame habit_ids st 0)
      as (_ & _ & _ & _ & _ & Ht & Hs & _).
    unfold tasks_wf. cbn [update_habits_order_bound fst]. by rewrite Ht, Hs.
  - assert (tasks st' = tasks st ∧ tasks_seq st' = tasks_seq st) as [Ht' Hs'].
    { unfold toggle_habit_completion_bound in Ht.
      destruct (head (sql_select_completion st habit_id date_str)).
      - by injection Ht as <- <-.
      - unfold sql_insert_completion in Ht.
        case_bool_decide; [done|]. cbn in Ht. by injection Ht as <- <-. }
    unfold tasks_wf. by rewrite Ht', Hs'.
  - destruct IH as (Hnd & Hseq & Hrows).
    split_and!; cbn [create_task fst tasks tasks_seq].
    + rewrite fmap_app. apply NoDup_app. split_and!; [done| |apply NoDup_singleton].
      intros i Hi Hi'. cbn in Hi'. apply list_elem_of_singleton in Hi' as ->.
      apply list_elem_of_fmap in Hi as (t & Heq & Ht).
      destruct (Hrows t Ht). lia.
    + lia.
    + intros t [Ht| ->%list_elem_of_singleton]%elem_of_app.
      * destruct (Hrows t Ht). split; [lia|done].
      * cbn. split; [lia|by left].
  - destruct IH as (Hnd & Hseq & Hrows).
    destruct (toggle_task_rows st task_id) as [Ht Hs].
    split_and!.
    + by rewrite toggle_task_ids.
    + by rewrite Hs.
    + intros t'. rewrite Ht, Hs. intros (t & -> & Hin)%list_elem_of_fmap.
      destruct (Hrows t Hin) as [Hid Hc]. rewrite flip_completed_id.
      split; [done|]. unfold flip_completed.
      destruct (t_id t =? task_id); [|done]. cbn.
      destruct (t_completed t =? 1); [by left|by right].
  - destruct IH as (Hnd & Hseq & Hrows).
    split_and!; cbn [delete_task_bound fst tasks tasks_seq set_tasks].
    + by apply NoDup_fmap_filter.
    + done.
    + intros t [_ Hin]%list_elem_of_filter. by apply Hrows.
  - done.
Qed.

Lemma flip_completed_twice (task_id : Z) (t : task) :
  t_completed t = 0 ∨ t_completed t = 1 →
  flip_completed task_id (flip_completed task_id t) = t.
Proof.
  intros Hc. unfold flip_completed.
  destruct (t_id t =? task_id) eqn:E; cbn; rewrite E; [|done].
  destruct t as [i ti d c p s e cr]. cbn in *. f_equal.
  destruct Hc as [-> | ->]; done.
Qed.

Lemma head_filter_fmap {A} (P : A → Prop) `{!∀ x, Decision (P x)} (g : A → A)
    (l : list A) :
  (∀ x, P (g x) ↔ P x) →
  head (filter P (g <$> l)) = g <$> head (filter P l).
Proof.
  intros Hg. induction l as [|x l IH]; [done|].
  rewrite fmap_cons, !filter_cons.
  destruct (decide (P (g x))) as [H1|H1], (decide (P x)) as [H2|H2];
    try done.
  - exfalso. apply H2. by apply Hg.
  - exfalso. apply H1. by apply Hg.
Qed.

(** The value [toggle_task] returns for an id that binds, from the table
    before the call. *)
Lemma toggle_task_result (st : store) (task_id : Z) :
  (toggle_task_bound st task_id).2
  = match head (filter (λ t, t_id t = task_id) (tasks st)) with
    | Some row => negb (t_completed row =? 1)
    | None => false
    end.
Proof.
  unfold toggle_task_bound. cbn [snd tasks set_tasks].
  change (λ t : task, if t_id t =? task_id then _ else t)
    with (flip_completed task_id).
  rewrite (head_filter_fmap (λ t, t_id t = task_id) (flip_completed task_id))
    by (intros x; by rewrite flip_completed_id).
  destruct (head (filter (λ t, t_id t = task_id) (tasks st))) as [row|] eqn:E;
    [|done].
  cbn. apply head_Some_elem_of, list_elem_of_filter in E as [E _].
  unfold flip_completed. apply Z.eqb_eq in E as ->. cbn.
  by destruct (t_completed row =? 1).
Qed.

Lemma toggle_task_twice_bound (st : store) (t : task) :
  tasks_wf st → t ∈ tasks st →
  let st1 := (toggle_task_bound st (t_id t)).1 in
  let st2 := (toggle_task_bound st1 (t_id t)).1 in
  (toggle_task_bound st (t_id t)).2 = bool_decide (t_completed t = 0)
  ∧ (toggle_task_bound st1 (t_id t)).2 = bool_decide (t_completed t = 1)
  ∧ st2 = st
  ∧ (∀ t', t' ∈ tasks st → t_id t' ≠ t_id t → t' ∈ tasks st1)
  ∧ (∃ t1, t1 ∈ tasks st1 ∧ t_id t1 = t_id t
           ∧ t_completed t1 = 1 - t_completed t
           ∧ (t_title t1, t_date t1, t_priority t1, t_start_time t1,
              t_end_time t1, t_created_at t1)
             = (t_title t, t_date t, t_priority t, t_start_time t,
                t_end_time t, t_created_at t))
  ∧ habits st1 = habits st ∧ completions st1 = completions st
  ∧ settings st1 = settings st.
Proof.
  intros (Hnd & Hseq & Hrows) Ht. cbv zeta.
  destruct (Hrows t Ht) as [_ Hc].
  split_and!.
  - rewrite toggle_task_result, (filter_by_key t_id) by done. cbn.
    destruct Hc as [-> | ->]; done.
  - rewrite toggle_task_result.
    destruct (toggle_task_rows st (t_id t)) as [-> _].
    rewrite (head_filter_fmap (λ x, t_id x = t_id t) (flip_completed (t_id t)))
      by (intros x; by rewrite flip_completed_id).
    rewrite (filter_by_key t_id) by done. cbn.
    unfold flip_completed. rewrite Z.eqb_refl. cbn.
    destruct Hc as [-> | ->]; done.
  - unfold toggle_task_bound. cbn [fst tasks set_tasks].
    change (λ t0 : task, if t_id t0 =? t_id t then _ else t0)
      with (flip_completed (t_id t)).
    rewrite <-list_fmap_compose.
    transitivity (set_tasks st (tasks st)); [|apply set_tasks_id].
    unfold set_tasks. cbn. f_equal.
    transitivity (id <$> tasks st); [|apply list_fmap_id].
    apply list_fmap_ext. intros i x Hx. cbn.
    apply flip_completed_twice, Hrows. eapply list_elem_of_lookup_2, Hx.
  - intros t' Ht' Hne. destruct (toggle_task_rows st (t_id t)) as [-> _].
    apply list_elem_of_fmap. exists t'. split; [|done].
    unfold flip_completed. by apply Z.eqb_neq in Hne as ->.
  - exists (flip_completed (t_id t) t).
    destruct (toggle_task_rows st (t_id t)) as [-> _].
    split; [by apply list_elem_of_fmap_2|].
    unfold flip_completed. rewrite Z.eqb_refl. cbn.
    split_and!; [done| |done]. destruct Hc as [-> | ->]; done.
  - done.
  - done.
  - done.
Qed.

(** X3.  In a store that satisfies the constraints of the tasks table,
    toggling an existing task (its id in the 64-bit range) twice reports
    first the negation of its state and then its state, and gives back the
    store it started from; the first toggle changes the [completed] flag of
    that task alone. *)
Theorem toggle_task_twice (st : store) (t : task) :
  tasks_wf st → t ∈ tasks st → sqlite_int (t_id t) = true →
  ∃ st1 st2,
    toggle_task st (t_id t) = Some (st1, bool_decide (t_completed t = 0))
    ∧ toggle_task st1 (t_id t) = Some (st2, bool_decide (t_completed t = 1))
    ∧ st2 = st
    ∧ (∀ t', t' ∈ tasks st → t_id t' ≠ t_id t → t' ∈ tasks st1)
    ∧ (∃ t1, t1 ∈ tasks st1 ∧ t_id t1 = t_id t
             ∧ t_completed t1 = 1 - t_completed t
             ∧ (t_title t1, t_date t1, t_priority t1, t_start_time t1,
                t_end_time t1, t_created_at t1)
               = (t_title t, t_date t, t_priority t, t_start_time t,
                  t_end_time t, t_created_at t))
    ∧ habits st1 = habits st ∧ completions st1 = completions st
    ∧ settings st1 = settings st.
Proof.
  intros Hwf Ht Hrange.
  destruct (toggle_task_twice_bound st t Hwf Ht)
    as (Hb1 & Hb2 & Hback & Hothers & Hrow & Hh & Hc & Hs).
  exists (toggle_task_bound st (t_id t)).1,
    (toggle_task_bound (toggle_task_bound st (t_id t)).1 (t_id t)).1.
  rewrite !toggle_task_cases, Hrange.
  split_and!; try done.
  - f_equal. rewrite <-Hb1. apply surjective_pairing.
  - f_equal. rewrite <-Hb2. apply surjective_pairing.
Qed.

Lemma toggle_task_bound_missing (st : store) (task_id : Z) :
  (∀ t, t ∈ tasks st → t_id t ≠ task_id) →
  toggle_task_bound st task_id = (st, false).
Proof.
  intros Hne. rewrite (surjective_pairing (toggle_task_bound st task_id)).
  rewrite toggle_task_result, filter_none by done. cbn. f_equal.
  unfold toggle_task_bound. cbn [fst].
  transitivity (set_tasks st (tasks st)); [|apply set_tasks_id]. f_equal.
  transitivity (id <$> tasks st); [|apply list_fmap_id].
  apply list_fmap_ext. intros i x Hx. cbn.
  assert (t_id x ≠ task_id) as Hx' by (eapply Hne, list_elem_of_lookup_2, Hx).
  by apply Z.eqb_neq in Hx' as ->.
Qed.

(** X4.  [toggle_task] with an id that no task has: when the id is in the
    64-bit range the call changes nothing and returns [false]; when it is
    not, the call raises. *)
Theorem toggle_task_missing (st : store) (task_id : Z) :
  (∀ t, t ∈ tasks st → t_id t ≠ task_id) →
  toggle_task st task_id
  = if sqlite_int task_id then Some (st, false) else None.
Proof.
  intros Hne. by rewrite toggle_task_cases, toggle_task_bound_missing.
Qed.

Lemma delete_task_bound_effect (st : store) (task_id : Z) :
  let st' := (delete_task_bound st task_id).1 in
  let deleted := (delete_task_bound st task_id).2 in
  (∀ t, t ∈ tasks st' ↔ t ∈ tasks st ∧ t_id t ≠ task_id)
  ∧ (deleted = true ↔ ∃ t, t ∈ tasks st ∧ t_id t = task_id)
  ∧ delete_task_bound st' task_id = (st', false)
  ∧ ((∀ t, t ∈ tasks st → t_id t ≠ task_id) → delete_task_bound st task_id = (st, false))
  ∧ habits st' = habits st ∧ completions st' = completions st
  ∧ settings st' = settings st ∧ tasks_seq st' = tasks_seq st.
Proof.
  cbv zeta.
  assert (Hmissing : ∀ s, (∀ t, t ∈ tasks s → t_id t ≠ task_id) →
                          delete_task_bound s task_id = (s, false)).
  { intros s Hne. unfold delete_task_bound.
    rewrite (filter_none (λ t, t_id t = task_id)) by (intros t Ht; by apply Hne).
    rewrite filter_all by done. by rewrite set_tasks_id. }
  split_and!.
  - intros t. cbn. rewrite list_elem_of_filter. tauto.
  - cbn. rewrite filter_length_pos. naive_solver.
  - apply Hmissing. intros t. cbn. by intros [? _]%list_elem_of_filter.
  - apply Hmissing.
  - done.
  - done.
  - done.
  - done.
Qed.

(** X5.  For an id outside the 64-bit range [delete_task] raises.  For an
    id in range it removes every task with the given id and no other row,
    and touches no other table.  It then returns [true] exactly when such a
    task existed; deleting the same id again, or an id that no task has,
    changes nothing and returns [false]. *)
Theorem delete_task_effect (st : store) (task_id : Z) :
  (sqlite_int task_id = false → delete_task st task_id = None)
  ∧ (sqlite_int task_id = true →
     ∃ st' deleted,
       delete_task st task_id = Some (st', deleted)
       ∧ (∀ t, t ∈ tasks st' ↔ t ∈ tasks st ∧ t_id t ≠ task_id)
       ∧ (deleted = true ↔ ∃ t, t ∈ tasks st ∧ t_id t = task_id)
       ∧ delete_task st' task_id = Some (st', false)
       ∧ ((∀ t, t ∈ tasks st → t_id t ≠ task_id) → st' = st ∧ deleted = false)
       ∧ habits st' = habits st ∧ completions st' = completions st
       ∧ settings st' = settings st ∧ tasks_seq st' = tasks_seq st).
Proof.
  rewrite !delete_task_cases. split; [by intros ->|]. intros Hrange.
  rewrite Hrange.
  destruct (delete_task_bound_effect st task_id)
    as (Hrows & Hdel & Hagain & Hmissing & Hh & Hc & Hs & Hseq).
  exists (delete_task_bound st task_id).1, (delete_task_bound st task_id).2.
  split_and!; try done.
  - by rewrite delete_task_cases, Hrange, Hagain.
  - intros Hne. by rewrite (Hmissing Hne).
Qed.

Lemma create_task_lifecycle_bound (st : store) (now title date_str priority : string)
    (start_time end_time : option string) :
  tasks_wf st →
  let st1 := (create_task st now title date_str priority start_time end_time).1 in
  let task_id := (create_task st now title date_str priority start_time end_time).2 in
  let row := mk_task task_id title date_str 0 priority start_time end_time now in
  (∀ t, t ∈ tasks st → t_id t < task_id)
  ∧ tasks_wf st1
  ∧ get_tasks_for_date st1 date_str ≡ₚ row :: get_tasks_for_date st date_str
  ∧ (∀ other, other ≠ date_str →
              get_tasks_for_date st1 other = get_tasks_for_date st other)
  ∧ (toggle_task_bound st1 task_id).2 = true
  ∧ (delete_task_bound st1 task_id).2 = true
  ∧ tasks (delete_task_bound st1 task_id).1 = tasks st.
Proof.
  intros Hwf. pose proof Hwf as (Hnd & Hseq & Hrows). cbv zeta.
  assert (Hlt : ∀ t, t ∈ tasks st → t_id t < tasks_seq st + 1).
  { intros t Ht. destruct (Hrows t Ht). lia. }
  set (row := mk_task (tasks_seq st + 1) title date_str 0 priority start_time
                end_time now).
  assert (Htasks : tasks (create_task st now title date_str priority start_time
                            end_time).1 = tasks st ++ [row]) by done.
  assert (Hone : filter (λ t, t_id t = tasks_seq st + 1) (tasks st ++ [row]) = [row]).
  { rewrite filter_app, filter_none by (intros t Ht; specialize (Hlt t Ht); lia).
    by rewrite filter_cons_True. }
  split_and!.
  - exact Hlt.
  - split_and!; cbn [create_task fst tasks tasks_seq].
    + rewrite fmap_app. apply NoDup_app. split_and!; [done| |apply NoDup_singleton].
      intros i Hi Hi'. cbn in Hi'. apply list_elem_of_singleton in Hi' as ->.
      apply list_elem_of_fmap in Hi as (t & Heq & Ht). specialize (Hlt t Ht). lia.
    + lia.
    + intros t [Ht| ->%list_elem_of_singleton]%elem_of_app.
      * destruct (Hrows t Ht). split; [lia|done].
      * cbn. split; [lia|by left].
  - rewrite !get_tasks_for_date_perm, Htasks, filter_app.
    rewrite filter_cons_True by done. rewrite filter_nil.
    by rewrite Permutation_app_comm.
  - intros other Hne. unfold get_tasks_for_date. rewrite Htasks, filter_app.
    rewrite filter_cons_False by (cbn; congruence).
    by rewrite filter_nil, app_nil_r.
  - rewrite toggle_task_result, Htasks. cbn [create_task snd]. by rewrite Hone.
  - cbn [delete_task_bound create_task fst snd tasks]. fold row. by rewrite Hone.
  - cbn [delete_task_bound create_task fst snd tasks set_tasks]. fold row.
    rewrite filter_app, filter_all by (intros t Ht; specialize (Hlt t Ht); lia).
    rewrite filter_cons_False by (cbn; lia). by rewrite filter_nil, app_nil_r.
Qed.

(** X6.  In a store that satisfies the constraints of the tasks table,
    [create_task] returns an id above the id of every task present.  The
    new task is open and is listed under its date, the listings of the other
    dates do not change; and, the new id being in the 64-bit range, toggling
    the new task returns [true], and deleting it returns [true] and restores
    the table. *)
Theorem create_task_lifecycle (st : store) (now title date_str priority : string)
    (start_time end_time : option string) :
  tasks_wf st →
  let st1 := (create_task st now title date_str priority start_time end_time).1 in
  let task_id := (create_task st now title date_str priority start_time end_time).2 in
  let row := mk_task task_id title date_str 0 priority start_time end_time now in
  (∀ t, t ∈ tasks st → t_id t < task_id)
  ∧ tasks_wf st1
  ∧ get_tasks_for_date st1 date_str ≡ₚ row :: get_tasks_for_date st date_str
  ∧ (∀ other, other ≠ date_str →
              get_tasks_for_date st1 other = get_tasks_for_date st other)
  ∧ (sqlite_int task_id = true →
     (∃ st2, toggle_task st1 task_id = Some (st2, true))
     ∧ (∃ st3, delete_task st1 task_id = Some (st3, true) ∧ tasks st3 = tasks st)).
Proof.
  intros Hwf. cbv zeta.
  destruct (create_task_lifecycle_bound st now title date_str priority start_time
              end_time Hwf) as (Hlt & Hwf1 & Hperm & Hother & Htoggle & Hdel & Hback).
  change (create_task st now title date_str priority start_time end_time).2
    with (tasks_seq st + 1) in *.
  split_and!; [done|done|done|done|]. intros Hrange.
  rewrite toggle_task_cases, delete_task_cases, Hrange. split.
  - eexists. f_equal. rewrite <-Htoggle. apply surjective_pairing.
  - eexists. split; [|exact Hback]. f_equal. rewrite <-Hdel.
    apply surjective_pairing.
Qed.

End TaskOperations.

(** ** Settings *)

Section Settings.

(** X7.  A setting that was written is read back, whatever the default; the
    other keys read as before; a second write to a key replaces the first;
    on a database that was just created every key reads as its default; and
    writing a setting touches no other table. *)
Theorem settings_round_trip (st : store) (key value : string) :
  let st' := set_setting st key value in
  (∀ default_value, get_setting st' key default_value = value)
  ∧ (∀ other default_value,
       other ≠ key →
       get_setting st' other default_value = get_setting st other default_value)
  ∧ (∀ value', set_setting st' key value' = set_setting st key value')
  ∧ (∀ other default_value,
       get_setting (init_database empty_store) other default_value = default_value)
  ∧ habits st' = habits st ∧ completions st' = completions st
  ∧ tasks st' = tasks st.
Proof.
  cbv zeta. unfold get_setting, set_setting. cbn [settings].
  split_and!.
  - intros d. by rewrite lookup_insert_eq.
  - intros other d Hne. by rewrite lookup_insert_ne.
  - intros value'. cbn. by rewrite insert_insert_eq.
  - intros other d. rewrite init_database_effect. cbn. by rewrite lookup_empty.
  - done.
  - done.
  - done.
Qed.

End Settings.

(** ** What every reachable store satisfies *)

Section ReachableStores.

Lemma update_order_loop_rows (habit_ids : list Z) (st : store) (index : Z)
    (h' : habit) :
  h' ∈ habits (update_order_loop_bound st index habit_ids) →
  ∃ h, h ∈ habits st ∧ h_id h' = h_id h
       ∧ (is_Some (h_sort_order h) → is_Some (h_sort_order h')).
Proof.
  revert st index. induction habit_ids as [|hid ids IH]; intros st index Hin.
  { by exists h'. }
  cbn [update_order_loop_bound] in Hin.
  apply IH in Hin as (h1 & Hh1 & Hid & Hso).
  cbn in Hh1. apply list_elem_of_fmap in Hh1 as (h & -> & Hh).
  exists h. split; [done|].
  destruct (h_id h =? hid); [|done].
  split; [done|]. intros _. apply Hso. by eexists.
Qed.

(** What the constraints [store_wf] and [tasks_wf] leave open: the schema is
    the current one, no habit has a NULL [sort_order], and the completion
    rows have unique ids bounded by their counter and the flag 1. *)
Definition rows_wf (st : store) : Prop :=
  sch st = full_schema
  ∧ (∀ h, h ∈ habits st → is_Some (h_sort_order h))
  ∧ NoDup (hc_id <$> completions st)
  ∧ 0 ≤ completions_seq st
  ∧ ∀ c, c ∈ completions st → 1 ≤ hc_id c ≤ completions_seq st ∧ hc_completed c = 1.

Lemma toggle_habit_completion_rows (st st' : store) (habit_id : Z)
    (date_str : string) (new_state : bool) :
  toggle_habit_completion_bound st habit_id date_str = Some (st', new_state) →
  sch st' = sch st ∧ habits st' = habits st ∧ habits_seq st' = habits_seq st
  ∧ tasks st' = tasks st ∧ tasks_seq st' = tasks_seq st
  ∧ settings st' = settings st
  ∧ ((new_state = false
      ∧ completions st'
        = filter (λ c, ¬ (hc_habit_id c = habit_id ∧ hc_date c = date_str))
            (completions st)
      ∧ completions_seq st' = completions_seq st
      ∧ sql_select_completion st habit_id date_str ≠ [])
     ∨ (new_state = true
        ∧ completions st'
          = completions st
            ++ [mk_completion (completions_seq st + 1) habit_id date_str 1]
        ∧ completions_seq st' = completions_seq st + 1
        ∧ sql_select_completion st habit_id date_str = [])).
Proof.
  unfold toggle_habit_completion_bound.
  destruct (sql_select_completion st habit_id date_str) as [|c0 cs0] eqn:Hsel.
  - cbn [head mbind option_bind]. unfold sql_insert_completion.
    rewrite Hsel. cbn. intros [= <- <-]. split_and!; try done. by right.
  - cbn [head]. intros [= <- <-]. split_and!; try done. by left.
Qed.

Lemma reachable_rows_wf (st : store) : reachable st → rows_wf st.
Proof.
  induction 1 as [|st Hr IH|st now name icon color Hr IH|st habit_id Hr IH
                  |st habit_ids Hr IH|st habit_id date_str st' new_state Hr IH Ht
                  |st now title date_str priority start_time end_time Hr IH
                  |st task_id Hr IH|st task_id Hr IH|st key value Hr IH]
    using reachable_bound_ind.
  - split_and!; [done| |constructor|done|].
    + intros h Hh. by apply elem_of_nil in Hh.
    + intros c Hc. by apply elem_of_nil in Hc.
  - destruct IH as (Hsch & Hso & Hnd & Hseq & Hrows).
    rewrite init_database_effect. split_and!; try done.
    intros h. rewrite Hsch. cbn. intros (h0 & -> & Hh0)%list_elem_of_fmap.
    destruct (lacks_sort_order h0) eqn:E; [by eexists|by apply Hso].
  - destruct IH as (Hsch & Hso & Hnd & Hseq & Hrows).
    split_and!; try done. cbn. rewrite Hsch. cbn.
    intros h [Hh| ->%list_elem_of_singleton]%elem_of_app; [by apply Hso|].
    by eexists.
  - destruct IH as (Hsch & Hso & Hnd & Hseq & Hrows).
    split_and!; cbn; try done.
    + intros h [_ Hh]%list_elem_of_filter. by apply Hso.
    + by apply NoDup_fmap_filter.
    + intros c [_ Hc]%list_elem_of_filter. by apply Hrows.
  - destruct IH as (Hsch & Hso & Hnd & Hseq & Hrows).
    destruct (update_order_loop_frame habit_ids st 0)
      as (_ & Hs & _ & Hc & Hcs & _).
    unfold rows_wf. cbn [update_habits_order_bound fst]. rewrite Hs, Hc, Hcs.
    split_and!; try done.
    intros h' (h & Hh & _ & Hsome)%update_order_loop_rows. by apply Hsome, Hso.
  - destruct IH as (Hsch & Hso & Hnd & Hseq & Hrows).
    destruct (toggle_habit_completion_rows _ _ _ _ _ Ht)
      as (Hs & Hh & _ & _ & _ & _ & Hcases).
    unfold rows_wf. rewrite Hs, Hh.
    destruct Hcases as [(_ & -> & -> & _)|(_ & -> & -> & _)].
    + split_and!; try done.
      * by apply NoDup_fmap_filter.
      * intros c [_ Hc]%list_elem_of_filter. by apply Hrows.
    + split_and!; try done.
      * rewrite fmap_app. apply NoDup_app.
        split_and!; [done| |apply NoDup_singleton].
        intros i Hi Hi'. cbn in Hi'. apply list_elem_of_singleton in Hi' as ->.
        apply list_elem_of_fmap in Hi as (c & Heq & Hc).
        destruct (Hrows c Hc). lia.
      * lia.
      * intros c [Hc| ->%list_elem_of_singleton]%elem_of_app.
        -- destruct (Hrows c Hc). split; [lia|done].
        -- cbn. split; [lia|done].
  - done.
  - done.
  - done.
  - done.
Qed.

(** X8.  Every store the operations can produce from a missing database
    file has the current schema and satisfies the key constraints: habit,
    completion and task ids are unique, positive and at most the counter of
    their table; no two completions share a habit and a date; every habit
    has a sort order; every completion carries the flag 1 and every task the
    flag 0 or 1. *)
Theorem reachable_invariants (st : store) :
  reachable st →
  sch st = full_schema
  ∧ NoDup (h_id <$> habits st)
  ∧ (∀ h, h ∈ habits st →
          1 ≤ h_id h ≤ habits_seq st ∧ is_Some (h_sort_order h))
  ∧ unique_completions st
  ∧ NoDup (hc_id <$> completions st)
  ∧ (∀ c, c ∈ completions st →
          1 ≤ hc_id c ≤ completions_seq st ∧ hc_completed c = 1)
  ∧ NoDup (t_id <$> tasks st)
  ∧ (∀ t, t ∈ tasks st →
          1 ≤ t_id t ≤ tasks_seq st ∧ (t_completed t = 0 ∨ t_completed t = 1)).
Proof.
  intros Hr.
  destruct (reachable_store_wf st Hr) as (Hu & Hnd & _ & Hids).
  destruct (reachable_tasks_wf st Hr) as (Htnd & _ & Htasks).
  destruct (reachable_rows_wf st Hr) as (Hsch & Hso & Hcnd & _ & Hcs).
  split_and!; try done. intros h Hh. split; [by apply Hids|by apply Hso].
Qed.

End ReachableStores.

(** ** Creating habits *)

Section CreateHabit.

Lemma create_habit_rows (st : store) (now name icon color : string) :
  let row := mk_habit (habits_seq st + 1) name icon color now
               (if col_sort_order (sch st) then Some 0 else None) in
  habits (create_habit st now name icon color).1 = habits st ++ [row]
  ∧ habits_seq (create_habit st now name icon color).1 = habits_seq st + 1
  ∧ completions (create_habit st now name icon color).1 = completions st
  ∧ sch (create_habit st now name icon color).1 = sch st.
Proof. done. Qed.

Lemma create_habit_keeps_wf (st : store) (now name icon color : string) :
  store_wf st → store_wf (create_habit st now name icon color).1.
Proof.
  intros (Hu & Hnd & Hseq & Hids).
  split_and!; cbn [create_habit fst habits habits_seq].
  - done.
  - rewrite fmap_app. apply NoDup_app. split_and!; [done| |apply NoDup_singleton].
    intros i Hi Hi'. cbn in Hi'. apply list_elem_of_singleton in Hi' as ->.
    apply list_elem_of_fmap in Hi as (h & Heq & Hh).
    specialize (Hids h Hh). lia.
  - lia.
  - intros h [Hh| ->%list_elem_of_singleton]%elem_of_app.
    + specialize (Hids h Hh). lia.
    + cbn. lia.
Qed.

(** X9.  In a store that satisfies the key constraints, [create_habit]
    returns the given name, icon and color with an id above the id of every
    habit present; the listing gains that habit and keeps every other one;
    the key constraints still hold.  If every completion belongs to a habit
    of the store, the new habit is complete on no date.  Ids are not used
    again: after any deletion the next habit gets the following id. *)
Theorem create_habit_fresh (st : store) (now name icon color : string) :
  store_wf st →
  let st1 := (create_habit st now name icon color).1 in
  let habit_id := habits_seq st + 1 in
  (create_habit st now name icon color).2 = (habit_id, name, icon, color)
  ∧ (∀ h, h ∈ habits st → h_id h < habit_id)
  ∧ (∃ h, get_all_habits st1 ≡ₚ h :: get_all_habits st
          ∧ (h_id h, h_name h, h_icon h, h_color h) = (habit_id, name, icon, color))
  ∧ store_wf st1
  ∧ (referential_integrity st →
     referential_integrity st1
     ∧ ∀ date_str, is_complete st1 habit_id date_str = false)
  ∧ (∀ deleted_id st2 deleted now' name' icon' color',
       delete_habit st1 deleted_id = Some (st2, deleted) →
       (create_habit st2 now' name' icon' color').2
       = (habit_id + 1, name', icon', color')).
Proof.
  intros Hwf. pose proof Hwf as (Hu & Hnd & Hseq & Hids). cbv zeta.
  destruct (create_habit_rows st now name icon color) as (Hh & Hs & Hc & _).
  split_and!.
  - done.
  - intros h Hh'. specialize (Hids h Hh'). lia.
  - exists (mk_habit (habits_seq st + 1) name icon color now
              (if col_sort_order (sch st) then Some 0 else None)).
    split; [|done].
    rewrite !get_all_habits_perm, Hh. by rewrite Permutation_app_comm.
  - by apply create_habit_keeps_wf.
  - intros Hri. split.
    + intros c. rewrite Hc, Hh. intros Hin.
      destruct (Hri c Hin) as (h & Hh' & Heq). exists h.
      split; [|done]. apply elem_of_app. by left.
    + intros date_str. apply bool_decide_eq_false. unfold completion_keys.
      rewrite Hc. intros (c & Hk & Hin)%list_elem_of_fmap.
      destruct (Hri c Hin) as (h & Hh' & Heq). specialize (Hids h Hh').
      unfold completion_key in Hk. injection Hk as Hk _. lia.
  - intros deleted_id st2 deleted now' name' icon' color' Hd.
    apply delete_habit_Some in Hd as [_ Hd].
    assert (st2 = (delete_habit_bound (create_habit st now name icon color).1
                     deleted_id).1) as -> by (by rewrite Hd).
    done.
Qed.

Lemma habit_le_orders (a b : habit) (x y : Z) :
  h_sort_order a = Some x → h_sort_order b = Some y → x < y → habit_le a b.
Proof.
  intros Ha Hb Hlt. unfold habit_le, habit_leb. rewrite Ha, Hb. cbn.
  by apply Z.ltb_lt in Hlt as ->.
Qed.

(** X10.  The position of a new habit.  Take a store with the current
    schema in which every habit has a sort order between 1 and the id
    counter, as a startup leaves them.  A habit created now is stored with
    sort order 0 and so is listed first, before the habits that existed.
    The next startup gives it its id as sort order, which moves it to the
    end of the listing. *)
Theorem new_habit_first_then_last (st : store) (now name icon color : string) :
  store_wf st →
  sch st = full_schema →
  (∀ h, h ∈ habits st → ∃ o, h_sort_order h = Some o ∧ 0 < o ≤ habits_seq st) →
  let st1 := (create_habit st now name icon color).1 in
  let habit_id := habits_seq st + 1 in
  get_all_habits st1
  = mk_habit habit_id name icon color now (Some 0) :: get_all_habits st
  ∧ get_all_habits (init_database st1)
    = get_all_habits st ++ [mk_habit habit_id name icon color now (Some habit_id)].
Proof.
  intros Hwf Hsch Hso. cbv zeta.
  pose proof (create_habit_keeps_wf st now name icon color Hwf) as Hwf1.
  destruct (create_habit_rows st now name icon color) as (Hh & Hs & Hc & Hsch1).
  rewrite Hsch in Hh. cbn [col_sort_order full_schema] in Hh.
  set (st1 := (create_habit st now name icon color).1) in *.
  set (row := mk_habit (habits_seq st + 1) name icon color now (Some 0)) in *.
  destruct Hwf1 as (_ & Hnd1 & _ & _).
  assert (Hlisted : ∀ h, h ∈ get_all_habits st →
                         ∃ o, h_sort_order h = Some o ∧ 0 < o ≤ habits_seq st).
  { intros h Hh'. apply Hso. by rewrite <-get_all_habits_perm. }
  split.
  - apply sorted_listing_unique.
    + by rewrite get_all_habits_perm.
    + apply get_all_habits_sorted.
    + constructor; [apply get_all_habits_sorted|].
      apply Forall_forall. intros h Hh'.
      destruct (Hlisted h Hh') as (o & Ho & Hpos).
      apply (habit_le_orders row h 0 o); [done|done|lia].
    + rewrite !get_all_habits_perm, Hh. by rewrite Permutation_app_comm.
  - set (row' := mk_habit (habits_seq st + 1) name icon color now
                   (Some (habits_seq st + 1))).
    assert (Hinit : habits (init_database st1) = habits st ++ [row']).
    { rewrite init_database_effect, Hsch1, Hsch.
      cbn [tbl_habits col_sort_order full_schema andb habits backfill_sort_order
           set_habits].
      rewrite Hh, fmap_app. f_equal.
      transitivity (id <$> habits st); [|apply list_fmap_id].
      apply list_fmap_ext. intros i h Hi. cbn.
      destruct (Hso h (list_elem_of_lookup_2 _ _ _ Hi)) as (o & Ho & Hpos).
      unfold lacks_sort_order. rewrite Ho.
      assert (o ≠ 0) as Hne by lia. by apply Z.eqb_neq in Hne as ->. }
    apply sorted_listing_unique.
    + rewrite get_all_habits_perm, Hinit.
      replace (h_id <$> habits st ++ [row']) with (h_id <$> habits st ++ [row])
        by (by rewrite !fmap_app).
      by rewrite <-Hh.
    + apply get_all_habits_sorted.
    + apply StronglySorted_app. split_and!.
      * intros h1 h2 Hh1 ->%list_elem_of_singleton.
        destruct (Hlisted h1 Hh1) as (o & Ho & Hpos).
        apply (habit_le_orders h1 row' o (habits_seq st + 1)); [done|done|lia].
      * apply get_all_habits_sorted.
      * repeat constructor.
    + by rewrite !get_all_habits_perm, Hinit.
Qed.

End CreateHabit.

(** ** Reordering with any list of ids *)

Section ReorderAll.

(** The sort order that [update_habits_order] leaves on the habits with a
    given id: the index of the last occurrence of the id in the list, counted
    from [index]. *)
Fixpoint final_index (index : Z) (habit_ids : list Z) (habit_id : Z) : option Z :=
  match habit_ids with
  | [] => None
  | x :: rest =>
      match final_index (index + 1) rest habit_id with
      | Some j => Some j
      | None => if x =? habit_id then Some index else None
      end
  end.

Definition reordered (index : Z) (habit_ids : list Z) (h : habit) : habit :=
  match final_index index habit_ids (h_id h) with
  | Some j => set_sort_order h (Some j)
  | None => h
  end.

Lemma reordered_id (index : Z) (habit_ids : list Z) (h : habit) :
  h_id (reordered index habit_ids h) = h_id h.
Proof. unfold reordered. by destruct (final_index _ _ _). Qed.

Lemma update_order_loop_char (habit_ids : list Z) (st : store) (index : Z) :
  update_order_loop_bound st index habit_ids
  = set_habits st (reordered index habit_ids <$> habits st).
Proof.
  revert st index. induction habit_ids as [|x rest IH]; intros st index.
  - cbn. rewrite <-(set_habits_id st) at 1. f_equal.
    by rewrite <-(list_fmap_id (habits st)) at 1.
  - cbn [update_order_loop_bound]. rewrite IH.
    unfold sql_update_sort_order, set_habits. cbn. f_equal.
    rewrite <-list_fmap_compose. apply list_fmap_ext. intros i h _. cbn.
    unfold reordered. cbn [final_index].
    destruct (h_id h =? x) eqn:E.
    + cbn [set_sort_order h_id].
      destruct (final_index (index + 1) rest (h_id h)); [done|].
      by rewrite Z.eqb_sym, E.
    + destruct (final_index (index + 1) rest (h_id h)); [done|].
      by rewrite Z.eqb_sym, E.
Qed.

Lemma final_index_None (habit_ids : list Z) (index habit_id : Z) :
  final_index index habit_ids habit_id = None ↔ habit_id ∉ habit_ids.
Proof.
  revert index. induction habit_ids as [|x rest IH]; intros index.
  { split; [intros _; apply not_elem_of_nil|done]. }
  cbn. rewrite not_elem_of_cons, <-(IH (index + 1)).
  destruct (final_index (index + 1) rest habit_id) as [j|].
  - split; [done|]. by intros [_ ?].
  - destruct (x =? habit_id) eqn:E.
    + apply Z.eqb_eq in E. split; [done|]. by intros [? _].
    + apply Z.eqb_neq in E. split; [|done]. intros _. split; [congruence|done].
Qed.

Lemma final_index_Some (habit_ids : list Z) (index habit_id j : Z) :
  final_index index habit_ids habit_id = Some j →
  ∃ i, habit_ids !! i = Some habit_id ∧ j = index + Z.of_nat i
       ∧ ∀ i', (i < i')%nat → habit_ids !! i' ≠ Some habit_id.
Proof.
  revert index. induction habit_ids as [|x rest IH]; intros index Hj; [done|].
  cbn in Hj. destruct (final_index (index + 1) rest habit_id) as [j'|] eqn:E.
  - injection Hj as ->. destruct (IH _ E) as (i & Hi & -> & Hlast).
    exists (S i). split_and!; [done|lia|].
    intros [|i'] Hlt; [lia|]. cbn. apply Hlast. lia.
  - destruct (x =? habit_id) eqn:Ex; [|done]. injection Hj as <-.
    apply Z.eqb_eq in Ex as ->. exists 0%nat. split_and!; [done|lia|].
    intros [|i'] Hlt; [lia|]. cbn. intros Hin.
    apply final_index_None in E. apply list_elem_of_lookup_2 in Hin. by apply E in Hin.
Qed.

Lemma final_index_last (habit_ids : list Z) (index habit_id : Z) (i : nat) :
  habit_ids !! i = Some habit_id →
  (∀ i', (i < i')%nat → habit_ids !! i' ≠ Some habit_id) →
  final_index index habit_ids habit_id = Some (index + Z.of_nat i).
Proof.
  intros Hi Hlast.
  destruct (final_index index habit_ids habit_id) as [j|] eqn:E.
  - destruct (final_index_Some _ _ _ _ E) as (i0 & Hi0 & -> & Hlast0).
    destruct (Nat.lt_trichotomy i i0) as [Hlt|[->|Hlt]].
    + by apply Hlast in Hlt.
    + done.
    + by apply Hlast0 in Hlt.
  - apply final_index_None in E. apply list_elem_of_lookup_2 in Hi. by apply E in Hi.
Qed.

Lemma reordered_twice (index : Z) (habit_ids : list Z) (h : habit) :
  reordered index habit_ids (reordered index habit_ids h)
  = reordered index habit_ids h.
Proof.
  unfold reordered at 2 3.
  destruct (final_index index habit_ids (h_id h)) as [j|] eqn:E.
  - unfold reordered. cbn [h_id set_sort_order]. by rewrite E.
  - unfold reordered. by rewrite E.
Qed.

Lemma update_habits_order_bound_last_wins (st : store) (habit_ids : list Z) :
  let st' := (update_habits_order_bound st habit_ids).1 in
  (∀ h i, h ∈ habits st →
          habit_ids !! i = Some (h_id h) →
          (∀ i', (i < i')%nat → habit_ids !! i' ≠ Some (h_id h)) →
          set_sort_order h (Some (Z.of_nat i)) ∈ habits st')
  ∧ (∀ h, h ∈ habits st → h_id h ∉ habit_ids → h ∈ habits st')
  ∧ (∀ h', h' ∈ habits st' →
           ∃ h, h ∈ habits st
                ∧ (h' = h ∧ h_id h ∉ habit_ids
                   ∨ ∃ i, habit_ids !! i = Some (h_id h)
                          ∧ h' = set_sort_order h (Some (Z.of_nat i))))
  ∧ update_habits_order_bound st' habit_ids = update_habits_order_bound st habit_ids.
Proof.
  cbv zeta. unfold update_habits_order_bound. cbn [fst].
  rewrite !update_order_loop_char. cbn [habits set_habits].
  split_and!.
  - intros h i Hh Hi Hlast. apply list_elem_of_fmap. exists h. split; [|done].
    unfold reordered. rewrite (final_index_last _ 0 _ i) by done.
    by rewrite Z.add_0_l.
  - intros h Hh Hnot. apply list_elem_of_fmap. exists h. split; [|done].
    unfold reordered. apply (final_index_None _ 0) in Hnot. by rewrite Hnot.
  - intros h' (h & -> & Hh)%list_elem_of_fmap. exists h. split; [done|].
    unfold reordered.
    destruct (final_index 0 habit_ids (h_id h)) as [j|] eqn:E.
    + right. destruct (final_index_Some _ _ _ _ E) as (i & Hi & -> & _).
      exists i. by rewrite Z.add_0_l.
    + left. by apply final_index_None in E.
  - f_equal. unfold set_habits. cbn. f_equal.
    rewrite <-list_fmap_compose. apply list_fmap_ext. intros i h _. cbn.
    apply reordered_twice.
Qed.

Lemma StronglySorted_of_lookup {A} (R : relation A) (l : list A) :
  (∀ i j a b, l !! i = Some a → l !! j = Some b → (i < j)%nat → R a b) →
  StronglySorted R l.
Proof.
  induction l as [|x l IH]; intros Hl; [constructor|].
  constructor.
  - apply IH. intros i j a b Hi Hj Hlt. apply (Hl (S i) (S j)); [done|done|lia].
  - apply Forall_forall. intros y Hy.
    apply list_elem_of_lookup_1 in Hy as [j Hj].
    apply (Hl 0%nat (S j)); [done|done|lia].
Qed.

Lemma StronglySorted_fmap_elem {A B} (R1 : relation A) (R2 : relation B)
    (f : A → B) (l : list A) :
  (∀ x y, x ∈ l → y ∈ l → R1 x y → R2 (f x) (f y)) →
  StronglySorted R1 l → StronglySorted R2 (f <$> l).
Proof.
  intros Hf Hs. induction Hs as [|x l Hs IH Hx]; [constructor|].
  rewrite fmap_cons. constructor.
  - apply IH. intros a b Ha Hb. apply Hf; by right.
  - apply Forall_fmap, Forall_forall. intros y Hy. cbn.
    rewrite Forall_forall in Hx. apply Hf; [left|by right|by apply Hx].
Qed.

(** X11.  On a list of ids in the 64-bit range [update_habits_order]
    gives a habit whose id is listed the index of the last occurrence of its
    id as sort order, and leaves the rows it does not list as they are.
    Sending the same list a second time changes nothing. *)
Theorem update_habits_order_last_wins (st : store) (habit_ids : list Z) :
  (∀ hid, hid ∈ habit_ids → sqlite_int hid = true) →
  ∃ st',
    update_habits_order st habit_ids = Some (st', true)
    ∧ (∀ h i, h ∈ habits st →
              habit_ids !! i = Some (h_id h) →
              (∀ i', (i < i')%nat → habit_ids !! i' ≠ Some (h_id h)) →
              set_sort_order h (Some (Z.of_nat i)) ∈ habits st')
    ∧ (∀ h, h ∈ habits st → h_id h ∉ habit_ids → h ∈ habits st')
    ∧ (∀ h', h' ∈ habits st' →
             ∃ h, h ∈ habits st
                  ∧ (h' = h ∧ h_id h ∉ habit_ids
                     ∨ ∃ i, habit_ids !! i = Some (h_id h)
                            ∧ h' = set_sort_order h (Some (Z.of_nat i))))
    ∧ update_habits_order st' habit_ids = Some (st', true).
Proof.
  intros Hall. apply forallb_sqlite_int in Hall.
  destruct (update_habits_order_bound_last_wins st habit_ids)
    as (Hlast & Hkept & Hrows & Hagain).
  exists (update_habits_order_bound st habit_ids).1.
  rewrite !update_habits_order_cases, Hall.
  split_and!; try done. by rewrite Hagain.
Qed.

Lemma reorder_all_bound (st : store) (habit_ids : list Z) :
  NoDup (h_id <$> habits st) →
  habit_ids ≡ₚ h_id <$> habits st →
  h_id <$> get_all_habits (update_habits_order_bound st habit_ids).1 = habit_ids.
Proof.
  intros Hnd Hperm.
  assert (Hnd' : NoDup habit_ids) by (by rewrite Hperm).
  unfold update_habits_order_bound. cbn [fst]. rewrite update_order_loop_char.
  set (st' := set_habits st (reordered 0 habit_ids <$> habits st)).
  assert (Hids : h_id <$> habits st' = h_id <$> habits st).
  { unfold st'. cbn. rewrite <-list_fmap_compose. apply list_fmap_ext.
    intros i h _. apply reordered_id. }
  assert (Hpos : ∀ x i, habit_ids !! i = Some x →
                        final_index 0 habit_ids x = Some (Z.of_nat i)).
  { intros x i Hi. rewrite (final_index_last _ 0 _ i); [by rewrite Z.add_0_l|done|].
    intros i' Hlt Hi'. pose proof (NoDup_lookup _ _ _ _ Hnd' Hi Hi'). lia. }
  assert (Horder : ∀ h, h ∈ get_all_habits st' →
                        ∃ i, habit_ids !! i = Some (h_id h)
                             ∧ h_sort_order h = Some (Z.of_nat i)).
  { intros h. rewrite get_all_habits_perm. unfold st'. cbn.
    intros (h0 & -> & Hh0)%list_elem_of_fmap.
    assert (h_id h0 ∈ habit_ids) as Hin
      by (rewrite Hperm; by apply list_elem_of_fmap_2).
    apply list_elem_of_lookup_1 in Hin as [i Hi]. exists i.
    rewrite reordered_id. split; [done|].
    unfold reordered. by rewrite (Hpos _ _ Hi). }
  set (R := λ x y : Z, ∃ i j, habit_ids !! i = Some x ∧ habit_ids !! j = Some y
                              ∧ (i ≤ j)%nat).
  apply (StronglySorted_unique_strong R).
  - intros x1 x2 _ _ (i & j & Hi & Hj & Hij) (j' & i' & Hj' & Hi' & Hji).
    pose proof (NoDup_lookup _ _ _ _ Hnd' Hi Hi').
    pose proof (NoDup_lookup _ _ _ _ Hnd' Hj Hj').
    assert (i = j) as -> by lia. congruence.
  - apply (StronglySorted_fmap_elem habit_le R); [|apply get_all_habits_sorted].
    intros a b Ha Hb Hab.
    destruct (Horder a Ha) as (i & Hi & Hoa), (Horder b Hb) as (j & Hj & Hob).
    exists i, j. split_and!; [done|done|].
    unfold habit_le, habit_leb in Hab. rewrite Hoa, Hob in Hab. cbn in Hab.
    apply orb_true_iff in Hab as [Hlt|[Hle _]%andb_true_iff]; lia.
  - apply StronglySorted_of_lookup. intros i j a b Hi Hj Hlt.
    exists i, j. split_and!; [done|done|lia].
  - by rewrite get_all_habits_perm, Hids, Hperm.
Qed.

(** X12.  When the list sent to [update_habits_order] names every habit of
    the store exactly once, the ids being unique and in the 64-bit range,
    the listing that follows shows the habits in exactly the order of the
    list. *)
Theorem reorder_all_then_list (st : store) (habit_ids : list Z) :
  NoDup (h_id <$> habits st) →
  (∀ h, h ∈ habits st → sqlite_int (h_id h) = true) →
  habit_ids ≡ₚ h_id <$> habits st →
  ∃ st',
    update_habits_order st habit_ids = Some (st', true)
    ∧ h_id <$> get_all_habits st' = habit_ids.
Proof.
  intros Hnd Hrange Hperm.
  exists (update_habits_order_bound st habit_ids).1.
  split; [|by apply reorder_all_bound].
  assert (forallb sqlite_int habit_ids = true) as Hall.
  { apply forallb_sqlite_int. intros hid Hin. rewrite Hperm in Hin.
    apply list_elem_of_fmap in Hin as (h & -> & Hh). by apply Hrange. }
  by rewrite update_habits_order_cases, Hall.
Qed.

End ReorderAll.

(** ** Deleting and toggling, seen through the listing and the pair states *)

Section HabitOperations.

(** X13.  With unique habit ids, deleting a habit (an id in the 64-bit
    range) takes it out of the listing and leaves the other habits in the
    order they had. *)
Theorem delete_habit_keeps_order (st : store) (habit_id : Z) :
  NoDup (h_id <$> habits st) →
  sqlite_int habit_id = true →
  ∃ st' deleted,
    delete_habit st habit_id = Some (st', deleted)
    ∧ get_all_habits st'
      = filter (λ h, h_id h ≠ habit_id) (get_all_habits st).
Proof.
  intros Hnd Hrange. destruct (delete_habit_rows st habit_id) as (Hh & _ & _).
  exists (delete_habit_bound st habit_id).1, (delete_habit_bound st habit_id).2.
  split.
  { by rewrite delete_habit_cases, Hrange. }
  apply sorted_listing_unique.
  - rewrite get_all_habits_perm, Hh. by apply NoDup_ids_filter.
  - apply get_all_habits_sorted.
  - apply StronglySorted_filter, get_all_habits_sorted.
  - by rewrite !get_all_habits_perm, Hh.
Qed.

Lemma toggle_habit_completion_total (st : store) (habit_id : Z) (date_str : string) :
  is_Some (toggle_habit_completion_bound st habit_id date_str).
Proof.
  unfold toggle_habit_completion_bound.
  destruct (sql_select_completion st habit_id date_str) as [|c0 cs0] eqn:Hsel.
  - cbn [head mbind option_bind]. unfold sql_insert_completion.
    rewrite Hsel. cbn. by eexists.
  - cbn [head]. by eexists.
Qed.

Lemma is_complete_select (st : store) (habit_id : Z) (date_str : string) :
  is_complete st habit_id date_str = false
  ↔ sql_select_completion st habit_id date_str = [].
Proof.
  unfold is_complete. rewrite bool_decide_eq_false. symmetry.
  apply select_completion_nil.
Qed.

Lemma toggle_bound_flips_one_pair (st : store) (habit_id : Z) (date_str : string) :
  ∃ st' new_state,
    toggle_habit_completion_bound st habit_id date_str = Some (st', new_state)
    ∧ new_state = negb (is_complete st habit_id date_str)
    ∧ is_complete st' habit_id date_str = new_state
    ∧ (∀ other_id other_date,
         (other_id, other_date) ≠ (habit_id, date_str) →
         is_complete st' other_id other_date = is_complete st other_id other_date)
    ∧ habits st' = habits st ∧ tasks st' = tasks st ∧ settings st' = settings st.
Proof.
  destruct (toggle_habit_completion_total st habit_id date_str) as [[st' b] Ht].
  exists st', b. split; [done|].
  destruct (toggle_habit_completion_rows _ _ _ _ _ Ht)
    as (_ & Hh & _ & Htasks & _ & Hset & Hcases).
  assert (Hkeys : ∀ k,
            k ∈ completion_keys st'
            ↔ (if b then k ∈ completion_keys st ∨ k = (habit_id, date_str)
               else k ∈ completion_keys st ∧ k ≠ (habit_id, date_str))).
  { intros k. unfold completion_keys.
    destruct Hcases as [(-> & -> & _ & _)|(-> & -> & _ & _)].
    - rewrite !list_elem_of_fmap. split.
      + intros (c & -> & [Hne Hc]%list_elem_of_filter). split; [by exists c|].
        unfold completion_key. intros [= ? ?]. by apply Hne.
      + intros [(c & -> & Hc) Hne]. exists c. split; [done|].
        apply list_elem_of_filter. split; [|done].
        intros [? ?]. apply Hne. unfold completion_key. congruence.
    - rewrite fmap_app, elem_of_app. cbn. by rewrite list_elem_of_singleton. }
  assert (Hb : b = negb (is_complete st habit_id date_str)).
  { destruct Hcases as [(-> & _ & _ & Hsel)|(-> & _ & _ & Hsel)].
    - destruct (is_complete st habit_id date_str) eqn:E; [done|].
      by apply is_complete_select in E.
    - apply is_complete_select in Hsel. by rewrite Hsel. }
  split_and!; try done.
  - unfold is_complete. destruct b.
    + apply bool_decide_eq_true. apply Hkeys. by right.
    + apply bool_decide_eq_false. rewrite Hkeys. by intros [_ ?].
  - intros other_id other_date Hne. unfold is_complete.
    apply bool_decide_ext. rewrite Hkeys. destruct b; naive_solver.
Qed.

(** X14.  [toggle_habit_completion] raises for a habit id outside the
    64-bit range.  For every id in range it succeeds, on every store and
    for every string as date.  It then returns the negation of the state the
    pair had, which is the state the pair has afterwards; the state of every
    other pair of habit and date is unchanged, and so are the habits, the
    tasks and the settings. *)
Theorem toggle_flips_one_pair (st : store) (habit_id : Z) (date_str : string) :
  (sqlite_int habit_id = false →
   toggle_habit_completion st habit_id date_str = None)
  ∧ (sqlite_int habit_id = true →
     ∃ st' new_state,
       toggle_habit_completion st habit_id date_str = Some (st', new_state)
       ∧ new_state = negb (is_complete st habit_id date_str)
       ∧ is_complete st' habit_id date_str = new_state
       ∧ (∀ other_id other_date,
            (other_id, other_date) ≠ (habit_id, date_str) →
            is_complete st' other_id other_date
            = is_complete st other_id other_date)
       ∧ habits st' = habits st ∧ tasks st' = tasks st
       ∧ settings st' = settings st).
Proof.
  rewrite !toggle_habit_completion_cases. split; [by intros ->|].
  intros ->. apply toggle_bound_flips_one_pair.
Qed.

Lemma init_database_habit_ids (st : store) :
  h_id <$> habits (init_database st) = h_id <$> habits st.
Proof.
  destruct (init_database_keeps_rows st) as (_ & Hh & _).
  apply (f_equal (fmap (λ x : Z * string * string * string * string, x.1.1.1.1)))
    in Hh.
  by rewrite <-!list_fmap_compose in Hh.
Qed.

Lemma integrity_transfer (st st' : store) :
  (∀ c, c ∈ completions st' → c ∈ completions st) →
  (∀ i, i ∈ h_id <$> habits st → i ∈ h_id <$> habits st') →
  referential_integrity st → referential_integrity st'.
Proof.
  intros Hc Hh Hri c Hin. destruct (Hri c (Hc c Hin)) as (h & Hh' & Heq).
  assert (h_id h ∈ h_id <$> habits st') as (h' & Heq' & Hin')%list_elem_of_fmap
    by (by apply Hh, list_elem_of_fmap_2).
  exists h'. split; [done|congruence].
Qed.

(** X15.  Every completion belonging to a habit of the store is a property
    that each operation keeps, with one exception: switching a pair on for a
    habit id that names no habit.  Startup, creating, deleting and
    reordering habits, switching a pair off, switching a pair on for a habit
    that exists, and the task and settings operations all keep it. *)
Theorem integrity_kept (st : store) :
  referential_integrity st →
  referential_integrity (init_database st)
  ∧ (∀ now name icon color,
       referential_integrity (create_habit st now name icon color).1)
  ∧ (∀ habit_id st' deleted,
       delete_habit st habit_id = Some (st', deleted) →
       referential_integrity st')
  ∧ (∀ habit_ids st' success,
       update_habits_order st habit_ids = Some (st', success) →
       referential_integrity st')
  ∧ (∀ habit_id date_str st' new_state,
       toggle_habit_completion st habit_id date_str = Some (st', new_state) →
       new_state = false ∨ (∃ h, h ∈ habits st ∧ h_id h = habit_id) →
       referential_integrity st')
  ∧ (∀ now title date_str priority start_time end_time,
       referential_integrity
         (create_task st now title date_str priority start_time end_time).1)
  ∧ (∀ task_id st' new_state,
       toggle_task st task_id = Some (st', new_state) →
       referential_integrity st')
  ∧ (∀ task_id st' deleted,
       delete_task st task_id = Some (st', deleted) →
       referential_integrity st')
  ∧ (∀ key value, referential_integrity (set_setting st key value)).
Proof.
  intros Hri. split_and!; try (intros; exact Hri).
  - apply (integrity_transfer st); [| |done].
    + destruct (init_database_keeps_rows st) as (-> & _). done.
    + intros i. by rewrite init_database_habit_ids.
  - intros now name icon color. apply (integrity_transfer st); [done| |done].
    intros i Hi. cbn. rewrite fmap_app, elem_of_app. by left.
  - intros habit_id st' deleted [_ Hd]%delete_habit_Some.
    replace st' with (delete_habit_bound st habit_id).1 by (by rewrite Hd).
    by apply delete_habit_keeps_integrity.
  - intros habit_ids st' success [_ Hu]%update_habits_order_Some.
    replace st' with (update_habits_order_bound st habit_ids).1
      by (by rewrite Hu).
    apply (integrity_transfer st); [| |done].
    + destruct (update_order_loop_frame habit_ids st 0) as (_ & _ & _ & Hc & _).
      cbn [update_habits_order_bound fst]. by rewrite Hc.
    + destruct (update_order_loop_frame habit_ids st 0) as (Hh & _).
      cbn [update_habits_order_bound fst]. by rewrite Hh.
  - intros habit_id date_str st' new_state [_ Ht]%toggle_habit_completion_Some Hok.
    destruct (toggle_habit_completion_rows _ _ _ _ _ Ht)
      as (_ & Hh & _ & _ & _ & _ & Hcases).
    destruct Hcases as [(_ & Hc & _ & _)|(-> & Hc & _ & _)].
    + apply (integrity_transfer st); [|by rewrite Hh|done].
      intros c. rewrite Hc. by intros [_ ?]%list_elem_of_filter.
    + destruct Hok as [?|(h & Hin & Hid)]; [done|].
      intros c. rewrite Hc, Hh.
      intros [Hc'| ->%list_elem_of_singleton]%elem_of_app; [by apply Hri|].
      by exists h.
  - intros task_id st' new_state [_ Ht]%toggle_task_Some.
    by replace st' with (toggle_task_bound st task_id).1 by (by rewrite Ht).
  - intros task_id st' deleted [_ Hd]%delete_task_Some.
    by replace st' with (delete_task_bound st task_id).1 by (by rewrite Hd).
Qed.

End HabitOperations.

(** ** Startup *)

Section Startup.

(** X16.  Startup completes the schema and keeps the data: the completions,
    the settings, the id counters, and every column of the habits and tasks
    apart from the sort order and the two time columns it may add.  On a
    database that has the current schema it changes nothing but the sort
    order of the habits whose sort order is 0 or NULL.  A second startup in
    a row changes nothing. *)
Theorem startup_keeps_data (st : store) :
  let st' := init_database st in
  sch st' = full_schema
  ∧ init_database st' = st'
  ∧ completions st' = completions st
  ∧ settings st' = settings st
  ∧ (habits_seq st', completions_seq st', tasks_seq st')
    = (habits_seq st, completions_seq st, tasks_seq st)
  ∧ (λ h, (h_id h, h_name h, h_icon h, h_color h, h_created_at h)) <$> habits st'
    = (λ h, (h_id h, h_name h, h_icon h, h_color h, h_created_at h)) <$> habits st
  ∧ (λ t, (t_id t, t_title t, t_date t, t_completed t, t_priority t, t_created_at t))
      <$> tasks st'
    = (λ t, (t_id t, t_title t, t_date t, t_completed t, t_priority t, t_created_at t))
        <$> tasks st
  ∧ (sch st = full_schema → st' = backfill_sort_order st).
Proof.
  cbv zeta. destruct (init_database_keeps_rows st) as (Hc & Hh & Ht & Hs).
  split_and!; try done.
  - by rewrite init_database_effect.
  - apply init_database_idempotent.
  - by rewrite init_database_effect.
  - intros Hsch. rewrite init_database_effect, Hsch.
    destruct (migrated_store_is_fixed st Hsch) as (-> & -> & ->).
    cbn [tbl_habits col_sort_order full_schema andb].
    unfold backfill_sort_order, set_habits. cbn. by rewrite Hsch.
Qed.

(** X17.  Upgrading a database whose habits table has no sort order column:
    startup adds the column and gives every habit its id as sort order, so
    the listing that follows is ordered by id. *)
Theorem startup_orders_legacy_habits_by_id (st : store) :
  col_sort_order (sch st) = false →
  habits (init_database st)
  = (λ h, set_sort_order h (Some (h_id h))) <$> habits st
  ∧ StronglySorted Z.le (h_id <$> get_all_habits (init_database st)).
Proof.
  intros Hcol.
  assert (Hrows : habits (init_database st)
                  = (λ h, set_sort_order h (Some (h_id h))) <$> habits st).
  { rewrite init_database_effect, Hcol, andb_false_r.
    cbn [habits backfill_sort_order set_habits].
    rewrite <-list_fmap_compose. by apply list_fmap_ext. }
  split; [done|].
  apply (StronglySorted_fmap_elem habit_le Z.le); [|apply get_all_habits_sorted].
  intros a b Ha Hb Hab.
  assert (Hown : ∀ h, h ∈ get_all_habits (init_database st) →
                      h_sort_order h = Some (h_id h)).
  { intros h. rewrite get_all_habits_perm, Hrows.
    by intros (h0 & -> & _)%list_elem_of_fmap. }
  unfold habit_le, habit_leb in Hab. rewrite (Hown a Ha), (Hown b Hb) in Hab.
  cbn in Hab. apply orb_true_iff in Hab as [Hlt|[Hle _]%andb_true_iff]; lia.
Qed.

End Startup.

(** ** The shape of the analytics results *)

Section AnalyticsShape.
Context `{Floats}.

Lemma mapM_pointwise {A B} (f : A → option B) (g : A → B) (l : list A) :
  (∀ x, x ∈ l → f x = Some (g x)) → mapM f l = Some (g <$> l).
Proof.
  intros Hfg. apply mapM_Some. induction l as [|x l IH]; [constructor|].
  rewrite fmap_cons. constructor; [apply Hfg; left|].
  apply IH. intros y Hy. apply Hfg. by right.
Qed.

(** The value of a rate, which [rate_total] shows to exist. *)
Definition rate_value (part total : Z) : num := default (Int 0) (rate part total).

Lemma rate_value_eq (part total : Z) : rate part total = Some (rate_value part total).
Proof.
  unfold rate_value. destruct (rate_total part total) as (r & -> & _). done.
Qed.

(** The stores in which a completion count can be compared with the number
    of habits: one completion per habit and date, each of a habit of the
    store, and unique habit ids. *)
Definition consistent (st : store) : Prop :=
  unique_completions st ∧ referential_integrity st ∧ NoDup (h_id <$> habits st).

Lemma NoDup_habit_ids_on (l : list completion) (date_str : string) :
  NoDup (completion_key <$> l) →
  (∀ c, c ∈ l → hc_date c = date_str) →
  NoDup (hc_habit_id <$> l).
Proof.
  induction l as [|c l IH]; [constructor|].
  rewrite !fmap_cons, !NoDup_cons. intros [Hc Hnd] Hdate.
  split; [|apply IH; [done|intros c' Hc'; apply Hdate; by right]].
  intros (c' & Heq & Hc')%list_elem_of_fmap. apply Hc.
  apply list_elem_of_fmap. exists c'. split; [|done].
  unfold completion_key. rewrite Heq.
  by rewrite (Hdate c) by left; rewrite (Hdate c') by (by right).
Qed.

Lemma completions_on_le_habits (st : store) (date_str : string) :
  consistent st → 0 ≤ count_completions_on st date_str ≤ count_habits st.
Proof.
  intros (Hu & Hri & Hnd). unfold count_completions_on, count_habits.
  split; [lia|]. apply inj_le.
  set (cs := filter (λ c, hc_date c = date_str) (completions st)).
  rewrite <-(length_fmap hc_habit_id cs), <-(length_fmap h_id (habits st)).
  apply submseteq_length, NoDup_submseteq.
  - apply (NoDup_habit_ids_on _ date_str).
    + by apply filter_keeps_unique.
    + intros c. unfold cs. by intros [? _]%list_elem_of_filter.
  - intros i (c & -> & [_ Hc]%list_elem_of_filter)%list_elem_of_fmap.
    destruct (Hri c Hc) as (h & Hh & <-). by apply list_elem_of_fmap_2.
Qed.

(** X18.  [get_weekly_data] fails when the start string is not a date, and
    when the week would pass the last day of year 9999.  Otherwise it
    returns seven entries for the seven consecutive days from the start day:
    entry [i] carries the ISO string of the day [i] days after the start,
    that day's number in its month and weekday name, and the number of
    completions stored under that string; in a consistent store that number
    is at most the number of habits. *)
Theorem get_weekly_data_days (st : store) (start_date_str : string) :
  (strptime start_date_str = None → get_weekly_data st start_date_str = None)
  ∧ ∀ start, strptime start_date_str = Some start →
      (MAXORDINAL < toordinal start + 6 → get_weekly_data st start_date_str = None)
      ∧ (toordinal start + 6 ≤ MAXORDINAL →
         ∃ ws, get_weekly_data st start_date_str = Some ws
               ∧ length ws = 7%nat
               ∧ ∀ (i : nat) w, ws !! i = Some w →
                   let d := ord2ymd (toordinal start + Z.of_nat i) in
                   valid_date d = true
                   ∧ toordinal d = toordinal start + Z.of_nat i
                   ∧ (i = 0%nat → d = start)
                   ∧ w_date w = isoformat d
                   ∧ w_day_num w = Some (day d)
                   ∧ w_day w = day_abbr (toordinal start + Z.of_nat i)
                   ∧ w_completed w = count_completions_on st (isoformat d)
                   ∧ w_percentage w
                     = round1 (rate_value (w_completed w) (count_habits st))
                   ∧ (consistent st → 0 ≤ w_completed w ≤ count_habits st)).
Proof.
  unfold get_weekly_data. split.
  { by intros ->. }
  intros start Hstart. rewrite Hstart. cbn [mbind option_bind].
  pose proof (strptime_valid _ _ Hstart) as Hvalid.
  pose proof (toordinal_positive _ Hvalid) as Hpos.
  split.
  - intros Hover. apply mapM_None, Exists_exists. exists 6.
    split; [by apply elem_of_seqZ|].
    unfold fromordinal.
    replace (toordinal start + 6 <=? MAXORDINAL) with false
      by (symmetry; apply Z.leb_gt; lia).
    by rewrite andb_false_r.
  - intros Hfit.
    set (entry := λ i : Z,
           let d := ord2ymd (toordinal start + i) in
           mk_weekly_entry (isoformat d) (day_abbr (toordinal start + i))
             (Some (day d))
             (round1 (rate_value (count_completions_on st (isoformat d))
                        (count_habits st)))
             (count_completions_on st (isoformat d))).
    exists (entry <$> seqZ 0 7). split_and!.
    + apply mapM_pointwise. intros i Hi%elem_of_seqZ.
      rewrite fromordinal_in_range by lia. cbn [mbind option_bind].
      by rewrite rate_value_eq.
    + by rewrite length_fmap, length_seqZ.
    + intros i w Hw. rewrite list_lookup_fmap in Hw.
      destruct (seqZ 0 7 !! i) as [z|] eqn:Hz; [|done].
      apply lookup_seqZ in Hz as [-> Hi]. injection Hw as <-.
      rewrite Z.add_0_l. cbv zeta.
      destruct (ord2ymd_correct (toordinal start + Z.of_nat i)) as [Hv Ho]; [lia|].
      split_and!; try done.
      * intros ->. rewrite Z.add_0_r. by apply fromordinal_toordinal.
      * intros Hc. by apply completions_on_le_habits.
Qed.

(** The days of a month, as [calendar.monthrange] counts them. *)
Lemma days_in_month_range (y m : Z) :
  1 ≤ m ≤ 12 →
  28 ≤ days_in_month y m ≤ 31
  ∧ (days_in_month y m = 29 ↔ m = 2 ∧ is_leap y = true)
  ∧ (days_in_month y m = 28 ↔ m = 2 ∧ is_leap y = false).
Proof.
  intros Hm. apply month_cases in Hm.
  unfold days_in_month.
  destruct Hm as [->|[->|[->|[->|[->|[->|[->|[->|[->|[->|[->| ->]]]]]]]]]]];
    destruct (is_leap y); simpl; (split; [lia|]); split; split;
    first [lia | by intros [? ?] | by split].
Qed.

Lemma year_string (year : Z) :
  1000 ≤ year ≤ 9999 →
  (if year <? 0 then String "-" (str_nat (- year)) else str_nat year)
  = format_0wd 4 year.
Proof.
  intros Hy. unfold format_0wd.
  replace (year <? 0) with false by (symmetry; apply Z.ltb_ge; lia).
  rewrite zfill_long; [done|].
  pose proof (str_nat_long 3 year) as Hlen. apply Hlen; [lia|].
  vm_compute. lia.
Qed.

Lemma sum_flags_le (l : list task) :
  (∀ t, t ∈ l → t_completed t = 0 ∨ t_completed t = 1) →
  0 ≤ foldr Z.add 0 (t_completed <$> l) ≤ Z.of_nat (length l)
  ∧ foldr Z.add 0 (t_completed <$> l)
    = Z.of_nat (length (filter (λ t, t_completed t = 1) l)).
Proof.
  induction l as [|t l IH]; intros Hl; [done|].
  destruct IH as [IH1 IH2]; [intros t' Ht'; apply Hl; by right|].
  rewrite fmap_cons, filter_cons. cbn [foldr length].
  destruct (Hl t) as [E|E]; [left| |]; rewrite E.
  - rewrite decide_False by lia. lia.
  - rewrite decide_True by done. cbn [length]. lia.
Qed.

(** X19.  [get_monthly_trends] fails exactly when the month is not one of
    1 to 12.  Otherwise it returns one entry for each day of the month, in
    order from day 1: 28 to 31 entries, 29 exactly for a February of a leap
    year.  For a four-digit year the entry of a day carries the ISO string
    of that date and counts the completions and tasks stored under it; with
    task flags 0 and 1 its [tasks_done] is the number of finished tasks, at
    most [tasks_total]; in a consistent store [habits_done] is at most
    [habits_total]. *)
Theorem get_monthly_trends_days (st : store) (year month : Z) :
  (¬ (1 ≤ month ≤ 12) → get_monthly_trends st year month = None)
  ∧ (1 ≤ month ≤ 12 →
     ∃ m, get_monthly_trends st year month = Some m
          ∧ m_year m = year ∧ m_month m = month
          ∧ d_day <$> m_daily_data m = seqZ 1 (days_in_month year month)
          ∧ 28 ≤ Z.of_nat (length (m_daily_data m)) ≤ 31
          ∧ (Z.of_nat (length (m_daily_data m)) = 29
             ↔ month = 2 ∧ is_leap year = true)
          ∧ ∀ e, e ∈ m_daily_data m →
              d_habits_done e = count_completions_on st (d_date e)
              ∧ d_habits_total e = count_habits st
              ∧ d_tasks_total e = Z.of_nat (length (tasks_on st (d_date e)))
              ∧ (1000 ≤ year ≤ 9999 →
                 valid_date (mk_date year month (d_day e)) = true
                 ∧ d_date e = isoformat (mk_date year month (d_day e)))
              ∧ (tasks_wf st →
                 0 ≤ d_tasks_done e ≤ d_tasks_total e
                 ∧ d_tasks_done e
                   = Z.of_nat (length (filter (λ t, t_completed t = 1)
                                         (tasks_on st (d_date e)))))
              ∧ (consistent st → 0 ≤ d_habits_done e ≤ d_habits_total e)).
Proof.
  split.
  { intros Hm. unfold get_monthly_trends, monthrange_days.
    destruct (Z.leb_spec 1 month), (Z.leb_spec month 12); try done. lia. }
  intros Hm.
  destruct (get_monthly_trends_rates st year month Hm) as (m & Hsome & _).
  exists m. split; [done|].
  unfold get_monthly_trends, monthrange_days in Hsome.
  replace ((1 <=? month) && (month <=? 12)) with true in Hsome
    by (symmetry; apply andb_true_iff; split; apply Z.leb_le; lia).
  cbn [mbind option_bind] in Hsome.
  match type of Hsome with context [mapM ?f ?l] =>
    destruct (mapM f l) as [daily|] eqn:Hdaily end; [|done].
  cbn [mbind option_bind] in Hsome.
  assert (Hdata : m_daily_data m = daily ∧ m_year m = year ∧ m_month m = month).
  { destruct (match daily with [] => _ | _ => _ end); [|done].
    cbn [mbind option_bind] in Hsome.
    destruct (if 0 <? _ then _ else _); [|done].
    cbn [mbind option_bind] in Hsome. by injection Hsome as <-. }
  destruct Hdata as (-> & -> & ->). clear Hsome.
  apply mapM_Some in Hdaily.
  assert (Hdays : d_day <$> daily = seqZ 1 (days_in_month year month)).
  { clear -Hdaily. induction Hdaily as [|i e l k Hie _ IH]; [done|].
    rewrite fmap_cons, IH. f_equal.
    destruct (rate _ (count_habits st)); [|done]. cbn [mbind option_bind] in Hie.
    destruct (rate _ _); [|done]. by injection Hie as <-. }
  assert (Hlen : Z.of_nat (length daily) = days_in_month year month).
  { rewrite <-(length_fmap d_day), Hdays, length_seqZ.
    destruct (days_in_month_range year month Hm) as (? & _). lia. }
  destruct (days_in_month_range year month Hm) as (Hrange & H29 & _).
  split_and!; try done; [lia|lia|by rewrite Hlen|].
  intros e He.
  assert (Hday : 1 ≤ d_day e ≤ days_in_month year month).
  { apply (list_elem_of_fmap_2 d_day) in He. rewrite Hdays in He.
    apply elem_of_seqZ in He. lia. }
  apply list_elem_of_lookup_1 in He as [n Hn].
  destruct (Forall2_lookup_r _ _ _ _ _ Hdaily Hn) as (i & _ & Hie).
  destruct (rate _ (count_habits st)); [|done]. cbn [mbind option_bind] in Hie.
  destruct (rate _ _); [|done]. injection Hie as <-.
  cbn [d_habits_done d_habits_total d_tasks_total d_tasks_done d_date d_day] in *.
  split_and!; try done.
  - intros Hy. split.
    + unfold valid_date. cbn [Date.year Date.month Date.day].
      repeat (apply andb_true_iff; split); apply Z.leb_le; lia.
    + rewrite year_string by done. done.
  - intros (_ & _ & Hflags). apply sum_flags_le.
    intros t [_ Ht]%list_elem_of_filter. by apply Hflags.
  - intros Hc. by apply completions_on_le_habits.
Qed.

End AnalyticsShape.

(** ** The dashboard statistics and the daily report *)

Section Dashboard.
Context `{Floats}.

Lemma streak_loop_bounds (dates : list string) (today : Z) (range : list Z)
    (streak r : Z) :
  streak_loop dates today range streak = Some r →
  streak ≤ r ≤ streak + Z.of_nat (length range).
Proof.
  revert streak. induction range as [|i range IH]; intros streak; cbn [streak_loop].
  { intros [= <-]. cbn. lia. }
  destruct (fromordinal (today - i)) as [d|]; [|done]. cbn [mbind option_bind].
  cbn [length]. case_bool_decide.
  - intros Hr%IH. lia.
  - destruct (0 <? i).
    + intros [= <-]. lia.
    + intros Hr%IH. lia.
Qed.

Lemma streak_loop_needs_recent_day (dates : list string) (today r : Z) :
  2 ≤ today ≤ MAXORDINAL →
  streak_loop dates today (seqZ 0 30) 0 = Some r → 0 < r →
  isoformat (ord2ymd today) ∈ dates ∨ isoformat (ord2ymd (today - 1)) ∈ dates.
Proof.
  intros Htoday.
  change (seqZ 0 30) with (0 :: 1 :: seqZ 2 28). cbn [streak_loop].
  rewrite Z.sub_0_r, !fromordinal_in_range by lia. cbn [mbind option_bind].
  case_bool_decide; [by left|]. cbn. case_bool_decide; [by right|].
  intros [= <-]. lia.
Qed.

Lemma recent_dates_stored (st : store) (s : string) :
  s ∈ recent_dates st → ∃ c, c ∈ completions st ∧ hc_date c = s.
Proof.
  unfold recent_dates. intros Hin.
  assert (s ∈ merge_sort (flip String.le) (remove_dups (hc_date <$> completions st)))
    as Hs.
  { rewrite <-(take_drop 30). apply elem_of_app. by left. }
  rewrite merge_sort_Permutation, elem_of_remove_dups in Hs.
  apply list_elem_of_fmap in Hs as (c & -> & Hc). by exists c.
Qed.

(** X20.  For a day from ordinal 30 on, [get_statistics] returns the number
    of habits, the number of completions stored under today's ISO string,
    and a streak between 0 and 30 that is positive only if some completion
    is stored under today's or yesterday's string.  The weekly data has
    seven entries, for the six days before today and then today, each with
    the count of its day; the last one repeats today's count, and its
    percentage is the completion rate.  The tasks done today are at most
    today's tasks, and in a consistent store today's completions are at most
    the habits. *)
Theorem get_statistics_shape (st : store) (today : Z) :
  30 ≤ today ≤ MAXORDINAL →
  ∃ s, get_statistics st today = Some s
       ∧ s_total_habits s = count_habits st
       ∧ s_today_completions s
         = count_completions_on st (isoformat (ord2ymd today))
       ∧ 0 ≤ s_streak s ≤ 30
       ∧ (0 < s_streak s →
          ∃ c, c ∈ completions st
               ∧ (hc_date c = isoformat (ord2ymd today)
                  ∨ hc_date c = isoformat (ord2ymd (today - 1))))
       ∧ 0 ≤ s_today_tasks_done s ≤ s_today_tasks_total s
       ∧ length (s_weekly_data s) = 7%nat
       ∧ (∀ (i : nat) w, s_weekly_data s !! i = Some w →
            let d := ord2ymd (today - 6 + Z.of_nat i) in
            w_date w = isoformat d
            ∧ w_day w = day_abbr (today - 6 + Z.of_nat i)
            ∧ w_completed w = count_completions_on st (isoformat d)
            ∧ w_percentage w
              = round1 (rate_value (w_completed w) (count_habits st)))
       ∧ (∃ w, last (s_weekly_data s) = Some w
               ∧ w_date w = isoformat (ord2ymd today)
               ∧ w_completed w = s_today_completions s
               ∧ w_percentage w = s_completion_rate s)
       ∧ (consistent st → s_today_completions s ≤ s_total_habits s).
Proof.
  intros Htoday. unfold get_statistics.
  rewrite fromordinal_in_range by (unfold MAXORDINAL in *; lia).
  cbn [mbind option_bind].
  destruct (streak_loop (recent_dates st) today (seqZ 0 30) 0) as [streak|]
    eqn:Hstreak.
  2:{ destruct (streak_loop_total (recent_dates st) today (seqZ 0 30) 0)
        as [? Hs]; [|by rewrite Hs in Hstreak].
      intros i Hi. apply elem_of_seqZ in Hi. unfold MAXORDINAL in *. lia. }
  cbn [mbind option_bind].
  set (entry := λ i : Z,
         let d := ord2ymd (today - i) in
         mk_weekly_entry (isoformat d) (day_abbr (today - i)) None
           (round1 (rate_value (count_completions_on st (isoformat d))
                      (count_habits st)))
           (count_completions_on st (isoformat d))).
  rewrite (mapM_pointwise _ entry).
  2:{ intros i Hi. rewrite fromordinal_in_range.
      2:{ rewrite !elem_of_cons, elem_of_nil in Hi. unfold MAXORDINAL in *. lia. }
      cbn [mbind option_bind]. by rewrite rate_value_eq. }
  cbn [mbind option_bind]. rewrite rate_value_eq. cbn [mbind option_bind].
  eexists. split; [done|].
  cbn [s_total_habits s_today_completions s_streak s_today_tasks_done
       s_today_tasks_total s_weekly_data s_completion_rate].
  split_and!; try done.
  - apply streak_loop_bounds in Hstreak. lia.
  - apply streak_loop_bounds in Hstreak. rewrite length_seqZ in Hstreak. lia.
  - intros Hpos.
    assert (2 ≤ today ≤ MAXORDINAL) as Hrange by lia.
    destruct (streak_loop_needs_recent_day _ _ _ Hrange Hstreak Hpos)
      as [Hin|Hin]; apply recent_dates_stored in Hin as (c & Hc & Hd);
      exists c; auto.
  - lia.
  - apply inj_le, length_filter.
  - intros i w Hw. cbv zeta.
    do 7 (destruct i as [|i]; [injection Hw as <-; cbn [entry w_date w_day
            w_completed w_percentage];
          match goal with |- context [today - 6 + Z.of_nat ?n] =>
            replace (today - 6 + Z.of_nat n) with (today - (6 - Z.of_nat n)) by lia
          end; by split_and!|]).
    done.
  - exists (entry 0). cbn [last fmap list_fmap entry w_date w_completed
                          w_percentage]. by rewrite Z.sub_0_r.
  - intros Hc. by apply completions_on_le_habits.
Qed.

Lemma select_at_most_one (st : store) (habit_id : Z) (date_str : string) :
  unique_completions st →
  sql_select_completion st habit_id date_str = []
  ∨ ∃ c, sql_select_completion st habit_id date_str = [c].
Proof.
  unfold unique_completions, completion_keys, sql_select_completion.
  induction (completions st) as [|c l IH]; [by left|].
  rewrite fmap_cons, NoDup_cons. intros [Hc Hnd]. rewrite filter_cons.
  case_decide as Hk; [|by apply IH]. right. exists c. f_equal.
  apply elem_of_nil_inv. intros c' [Hk' Hin]%list_elem_of_filter.
  apply Hc. apply list_elem_of_fmap. exists c'. split; [|done].
  unfold completion_key. destruct Hk as [-> ->], Hk' as [-> ->]. done.
Qed.

Lemma bind_singletons {A B} (f : A → list B) (g : A → B) (l : list A) :
  (∀ x, x ∈ l → f x = [g x]) → l ≫= f = g <$> l.
Proof.
  induction l as [|x l IH]; intros Hf; [done|].
  cbn. rewrite (Hf x) by left. cbn. f_equal. apply IH.
  intros y Hy. apply Hf. by right.
Qed.

Lemma habits_left_join_unique (st : store) (target_date : string) :
  unique_completions st →
  habits_left_join st target_date
  = (λ h, (h, if is_complete st (h_id h) target_date then 1 else 0))
      <$> get_all_habits st.
Proof.
  intros Hu. unfold habits_left_join. apply bind_singletons. intros h _.
  destruct (select_at_most_one st (h_id h) target_date Hu) as [Hsel|[c Hsel]].
  - rewrite Hsel. apply is_complete_select in Hsel. by rewrite Hsel.
  - rewrite Hsel. cbn.
    destruct (is_complete st (h_id h) target_date) eqn:E; [done|].
    apply is_complete_select in E. by rewrite E in Hsel.
Qed.

Lemma filter_flagged (flag : habit → bool) (l : list habit) :
  filter (λ p : habit * Z, p.2 ≠ 0) ((λ h, (h, if flag h then 1 else 0)) <$> l)
  = (λ h, (h, if flag h then 1 else 0)) <$> filter (λ h, flag h = true) l.
Proof.
  induction l as [|h l IH]; [done|].
  rewrite fmap_cons, !filter_cons, IH. cbn [snd].
  destruct (flag h) eqn:E; repeat case_decide; try done; try lia.
  by rewrite fmap_cons, E.
Qed.

Lemma task_le_cases (a b : task) :
  task_le a b
  ↔ match t_start_time a, t_start_time b with
    | None, None => t_id a ≤ t_id b
    | None, Some _ => True
    | Some _, None => False
    | Some x, Some y => (x = y ∧ t_id a ≤ t_id b) ∨ (x ≠ y ∧ String.le x y)
    end.
Proof.
  unfold task_le, task_leb.
  destruct (t_start_time a) as [x|], (t_start_time b) as [y|]; try done.
  - destruct (String.eqb x y) eqn:E.
    + apply String.eqb_eq in E. rewrite Z.leb_le. naive_solver.
    + apply String.eqb_neq in E. rewrite leb_le. naive_solver.
  - apply Z.leb_le.
Qed.

#[global] Instance task_le_total : Total task_le.
Proof.
  intros a b. rewrite !task_le_cases.
  destruct (t_start_time a) as [x|], (t_start_time b) as [y|]; try tauto; [|lia].
  destruct (decide (x = y)) as [->|Hne].
  - destruct (Z.le_ge_cases (t_id a) (t_id b)); [left|right]; left; split; (done || lia).
  - destruct (total String.le x y); [left|right]; right; by split.
Qed.

#[global] Instance task_le_trans : Transitive task_le.
Proof.
  intros a b c. rewrite !task_le_cases.
  destruct (t_start_time a) as [x|], (t_start_time b) as [y|],
    (t_start_time c) as [z|]; try tauto; [|lia].
  intros [[-> H1]|[E1 H1]] [[-> H2]|[E2 H2]].
  - left. split; [done|lia].
  - by right.
  - by right.
  - right. split; [|by etrans].
    intros ->. apply E1. by apply (anti_symm String.le).
Qed.

(** X21.  [get_daily_report] returns a report for every date string.  With
    one completion per habit and date, its habit list is the listing of the
    habits in listing order, each habit once, flagged 1 exactly when it is
    complete on the date; [habits_total] is the number of habits and
    [habits_completed] the number of flagged ones.  Its task list holds the
    tasks of the date ordered by start time, those without one first, then
    by id; [tasks_completed] counts the tasks with a non-zero flag. *)
Theorem get_daily_report_rows (st : store) (target_date : string) :
  unique_completions st →
  ∃ r, get_daily_report st target_date = Some r
       ∧ r_date r = target_date
       ∧ r_habits r
         = (λ h, (h, if is_complete st (h_id h) target_date then 1 else 0))
             <$> get_all_habits st
       ∧ r_habits_total r = count_habits st
       ∧ r_habits_completed r
         = Z.of_nat (length (filter (λ h, is_complete st (h_id h) target_date = true)
                               (get_all_habits st)))
       ∧ 0 ≤ r_habits_completed r ≤ r_habits_total r
       ∧ r_tasks r ≡ₚ tasks_on st target_date
       ∧ StronglySorted task_le (r_tasks r)
       ∧ r_tasks_total r = Z.of_nat (length (tasks_on st target_date))
       ∧ r_tasks_completed r
         = Z.of_nat (length (filter (λ t, t_completed t ≠ 0) (tasks_on st target_date)))
       ∧ 0 ≤ r_tasks_completed r ≤ r_tasks_total r.
Proof.
  intros Hu.
  destruct (get_daily_report_rates st target_date) as (r & Hr & _).
  exists r. split; [done|].
  unfold get_daily_report in Hr.
  rewrite habits_left_join_unique in Hr by done.
  set (joined := (λ h, (h, if is_complete st (h_id h) target_date then 1 else 0))
                   <$> get_all_habits st) in *.
  set (sorted := merge_sort task_le (tasks_on st target_date)) in *.
  destruct (match joined with [] => _ | _ => _ end) as [habit_rate|]; [|done].
  cbn [mbind option_bind] in Hr.
  destruct (match sorted with [] => _ | _ => _ end) as [task_rate|]; [|done].
  cbn [mbind option_bind] in Hr.
  destruct (match joined with [] => _ | _ => _ end) as [score|]; [|done].
  cbn [mbind option_bind] in Hr. injection Hr as <-.
  cbn [r_date r_habits r_habits_total r_habits_completed r_tasks r_tasks_total
       r_tasks_completed].
  assert (Hlen : length joined = length (habits st)).
  { unfold joined. by rewrite length_fmap, get_all_habits_perm. }
  assert (Hflag : filter (λ p : habit * Z, p.2 ≠ 0) joined
                  = (λ h, (h, if is_complete st (h_id h) target_date then 1 else 0))
                      <$> filter (λ h, is_complete st (h_id h) target_date = true)
                            (get_all_habits st)).
  { apply (filter_flagged (λ h, is_complete st (h_id h) target_date)). }
  assert (Hperm : sorted ≡ₚ tasks_on st target_date)
    by apply merge_sort_Permutation.
  split_and!; try done.
  - unfold count_habits. by rewrite Hlen.
  - by rewrite Hflag, length_fmap.
  - lia.
  - rewrite Hlen. apply inj_le. rewrite <-Hlen. apply length_filter.
  - apply StronglySorted_merge_sort; apply _.
  - by rewrite Hperm.
  - by rewrite Hperm.
  - lia.
  - apply inj_le, length_filter.
Qed.

End Dashboard.

(** ** Streak entries and the analytics summary *)

Section StreakEntries.

Lemma run_completions (st : store) (habit_id start : Z) (n : nat) :
  run (completed_on st habit_id) start (Z.of_nat n) →
  ∃ l, length l = n ∧ NoDup l
       ∧ ∀ c, c ∈ l →
           c ∈ filter (λ c, hc_habit_id c = habit_id) (completions st)
           ∧ ∃ dt, strptime (hc_date c) = Some dt
                   ∧ start ≤ toordinal dt < start + Z.of_nat n.
Proof.
  induction n as [|n IH]; intros Hrun.
  { exists []. split_and!; [done|constructor|]. intros c Hc.
    by apply elem_of_nil in Hc. }
  destruct IH as (l & Hlen & Hnd & Hl).
  { intros i Hi. apply Hrun. lia. }
  destruct (Hrun (Z.of_nat n)) as (c & dt & Hc & Hid & Hdt & Hord); [lia|].
  exists (c :: l). split_and!.
  - cbn. by rewrite Hlen.
  - constructor; [|done]. intros Hin.
    destruct (Hl c Hin) as (_ & dt' & Hdt' & Hord').
    rewrite Hdt in Hdt'. injection Hdt' as <-. lia.
  - intros c' [->|Hc']%elem_of_cons.
    + split; [by apply list_elem_of_filter|]. exists dt. split; [done|lia].
    + destruct (Hl c' Hc') as (Hf & dt' & Hdt' & Hord').
      split; [done|]. exists dt'. split; [done|lia].
Qed.

Lemma streak_entry_ordered (st : store) (today : Z) (h : habit) (e : habit_streak) :
  streak_entry_ok st today h e →
  0 ≤ hs_current_streak e ≤ hs_best_streak e
  ∧ hs_best_streak e ≤ hs_total_completions e.
Proof.
  intros (_ & _ & _ & _ & Hcur & Hrun & _ & _ & Hbest & (start & Hwit) & Hupper & Htotal).
  split; [split; [done|by apply (Hupper _ _ Hrun)]|].
  rewrite Htotal.
  rewrite <-(Z2Nat.id (hs_best_streak e)) in Hwit by done.
  destruct (run_completions _ _ _ _ Hwit) as (l & Hlen & Hnd & Hl).
  rewrite <-(Z2Nat.id (hs_best_streak e)), <-Hlen by done.
  apply inj_le, submseteq_length, NoDup_submseteq; [done|].
  intros c Hc. by apply Hl.
Qed.

(** X22.  With one completion per habit and date, dates stored in ISO
    form, and for every habit a day up to today without a completion,
    [get_habit_streaks] returns one entry for each habit, in listing order,
    and in every entry the current streak is at most the best streak, which
    is at most the number of completions of the habit. *)
Theorem habit_streaks_ordered (st : store) (today : Z) :
  unique_completions st → iso_store st →
  1 ≤ today ≤ MAXORDINAL →
  (∀ h, h ∈ habits st → ∃ j, 1 ≤ j ≤ today ∧ ¬ completed_on st (h_id h) j) →
  ∃ result,
    get_habit_streaks st today = Some result
    ∧ hs_id <$> result = h_id <$> get_all_habits st
    ∧ ∀ e, e ∈ result →
        0 ≤ hs_current_streak e ≤ hs_best_streak e
        ∧ hs_best_streak e ≤ hs_total_completions e
        ∧ hs_total_completions e
          = Z.of_nat (length (filter (λ c, hc_habit_id c = hs_id e) (completions st))).
Proof.
  intros Hu Hiso Htoday Hgap. unfold get_habit_streaks.
  assert (Hall : ∀ h, h ∈ get_all_habits st →
            ∃ e, habit_streak_of st today h = Some e ∧ streak_entry_ok st today h e).
  { intros h Hh. apply habit_streak_of_spec; try done.
    apply Hgap. by rewrite <-get_all_habits_perm. }
  destruct (mapM (habit_streak_of st today) (get_all_habits st)) as [result|]
    eqn:Hres.
  2:{ apply mapM_None, Exists_exists in Hres as (h & Hh & Hnone).
      destruct (Hall h Hh) as (e & He & _). by rewrite He in Hnone. }
  exists result. split; [done|]. apply mapM_Some in Hres.
  assert (Hok : Forall2 (streak_entry_ok st today) (get_all_habits st) result).
  { clear Hgap. induction Hres as [|h e l k Hhe _ IH]; [constructor|].
    constructor.
    - destruct (Hall h) as (e' & He' & Hok); [left|]. congruence.
    - apply IH. intros h' Hh'. apply Hall. by right. }
  split.
  - clear Hres Hall. induction Hok as [|h e l k (Hid & _) _ IH]; [done|].
    by rewrite !fmap_cons, Hid, IH.
  - intros e He. apply list_elem_of_lookup_1 in He as [i Hi].
    destruct (Forall2_lookup_r _ _ _ _ _ Hok Hi) as (h & _ & Hhe).
    destruct (streak_entry_ordered _ _ _ _ Hhe) as (H1 & H2).
    destruct Hhe as (Hid & _ & _ & _ & _ & _ & _ & _ & _ & _ & _ & Htotal).
    split_and!; [lia|lia|done|]. by rewrite Hid.
Qed.

End StreakEntries.

Section Summary.
Context `{Floats}.

Lemma foldl_max_spec (x : Z) (xs : list Z) :
  (∀ y, y ∈ x :: xs → y ≤ foldl Z.max x xs) ∧ foldl Z.max x xs ∈ x :: xs.
Proof.
  revert x. induction xs as [|z xs IH]; intros x; cbn [foldl].
  { split; [|left]. intros y ->%list_elem_of_singleton. lia. }
  destruct (IH (Z.max x z)) as [Hle Hin]. split.
  - intros y [->|[->|Hy]%elem_of_cons]%elem_of_cons.
    + specialize (Hle (Z.max x z) ltac:(left)). lia.
    + specialize (Hle (Z.max x z) ltac:(left)). lia.
    + apply Hle. by right.
  - apply elem_of_cons in Hin as [->|Hin].
    + destruct (Z.max_spec x z) as [[_ ->]|[_ ->]]; [right; left|left].
    + by do 2 right.
Qed.

Lemma head_filter_split {A} (P : A → Prop) `{!∀ x, Decision (P x)} (l : list A) :
  match head (filter P l) with
  | Some e => ∃ l1 l2, l = l1 ++ e :: l2 ∧ P e ∧ ∀ y, y ∈ l1 → ¬ P y
  | None => ∀ y, y ∈ l → ¬ P y
  end.
Proof.
  induction l as [|x l IH].
  { cbn. intros y Hy. by apply elem_of_nil in Hy. }
  rewrite filter_cons. destruct (decide (P x)) as [Hx|Hx].
  - cbn. exists [], l. split_and!; [done|done|].
    intros y Hy. by apply elem_of_nil in Hy.
  - destruct (head (filter P l)) as [e|].
    + destruct IH as (l1 & l2 & -> & He & Hl1). exists (x :: l1), l2.
      split_and!; [done|done|]. intros y [->|Hy]%elem_of_cons; [done|by apply Hl1].
    + intros y [->|Hy]%elem_of_cons; [done|by apply IH].
Qed.

Lemma max_by_from (key : habit_streak → Z) (xs : list habit_streak)
    (b : habit_streak) :
  ∃ b', foldl (λ best x,
                 match best with
                 | None => Some x
                 | Some b => if key b <? key x then Some x else Some b
                 end) (Some b) xs = Some b'
        ∧ key b ≤ key b'
        ∧ (∀ e, e ∈ xs → key e ≤ key b')
        ∧ (b' = b
           ∨ ∃ l1 l2, xs = l1 ++ b' :: l2 ∧ key b < key b'
                      ∧ ∀ e, e ∈ l1 → key e < key b').
Proof.
  revert b. induction xs as [|x xs IH]; intros b; cbn [foldl].
  { exists b. split_and!; [done|lia| |by left].
    intros e He. by apply elem_of_nil in He. }
  destruct (Z.ltb_spec (key b) (key x)) as [Hlt|Hge].
  - destruct (IH x) as (b' & -> & Hle & Hall & Hcase). exists b'.
    split_and!; [done|lia| |].
    + intros e [->|He]%elem_of_cons; [done|by apply Hall].
    + right. destruct Hcase as [->|(l1 & l2 & -> & Hlt' & Hl1)].
      * exists [], xs. split_and!; [done|done|].
        intros e He. by apply elem_of_nil in He.
      * exists (x :: l1), l2. split_and!; [done|lia|].
        intros e [->|He]%elem_of_cons; [done|by apply Hl1].
  - destruct (IH b) as (b' & -> & Hle & Hall & Hcase). exists b'.
    split_and!; [done|done| |].
    + intros e [->|He]%elem_of_cons; [lia|by apply Hall].
    + destruct Hcase as [->|(l1 & l2 & -> & Hlt' & Hl1)]; [by left|].
      right. exists (x :: l1), l2. split_and!; [done|done|].
      intros e [->|He]%elem_of_cons; [lia|by apply Hl1].
Qed.

Lemma max_by_spec (key : habit_streak → Z) (xs : list habit_streak) :
  match max_by key xs with
  | Some b => ∃ l1 l2, xs = l1 ++ b :: l2
                       ∧ (∀ e, e ∈ l1 → key e < key b)
                       ∧ (∀ e, e ∈ xs → key e ≤ key b)
  | None => xs = []
  end.
Proof.
  destruct xs as [|x xs]; [done|]. unfold max_by. cbn [foldl].
  destruct (max_by_from key xs x) as (b' & -> & Hle & Hall & Hcase).
  destruct Hcase as [->|(l1 & l2 & -> & Hlt & Hl1)].
  - exists [], xs. split_and!; [done| |].
    + intros e He. by apply elem_of_nil in He.
    + intros e [->|He]%elem_of_cons; [done|by apply Hall].
  - exists (x :: l1), l2. split_and!; [done| |].
    + intros e [->|He]%elem_of_cons; [done|by apply Hl1].
    + intros e [->|He]%elem_of_cons; [lia|by apply Hall].
Qed.

(** X23.  When the streaks can be computed, for a day from ordinal 7 on,
    [get_analytics_summary] returns them together with the number of all
    completions.  Its best streak is the largest best streak of a habit and
    is credited to the first habit of the listing that reaches it; the most
    consistent habit is the first one with the largest number of
    completions; without habits the best streak and the completions of the
    most consistent habit are 0 and no habit is named. *)
Theorem analytics_summary_picks (st : store) (today : Z)
    (streaks : list habit_streak) :
  7 ≤ today ≤ MAXORDINAL →
  get_habit_streaks st today = Some streaks →
  ∃ a, get_analytics_summary st today = Some a
       ∧ a_habit_streaks a = streaks
       ∧ a_total_habit_completions a = Z.of_nat (length (completions st))
       ∧ (∀ e, e ∈ streaks →
               hs_best_streak e ≤ a_best_streak a
               ∧ hs_total_completions e ≤ a_most_consistent_completions a)
       ∧ (streaks = [] →
          a_best_streak a = 0 ∧ a_best_streak_habit a = None
          ∧ a_most_consistent_habit a = None
          ∧ a_most_consistent_completions a = 0)
       ∧ (streaks ≠ [] →
          (∃ l1 e l2, streaks = l1 ++ e :: l2
                      ∧ a_best_streak_habit a = Some (hs_name e)
                      ∧ hs_best_streak e = a_best_streak a
                      ∧ ∀ e', e' ∈ l1 → hs_best_streak e' < a_best_streak a)
          ∧ (∃ l1 e l2, streaks = l1 ++ e :: l2
                        ∧ a_most_consistent_habit a = Some (hs_name e)
                        ∧ hs_total_completions e = a_most_consistent_completions a
                        ∧ ∀ e', e' ∈ l1 →
                            hs_total_completions e'
                            < a_most_consistent_completions a)).
Proof.
  intros Htoday Hstreaks. unfold get_analytics_summary.
  rewrite (fromordinal_in_range today) by lia. cbn [mbind option_bind].
  rewrite Hstreaks. cbn [mbind option_bind].
  assert (0 ≤ weekday today < 7) by (apply Z.mod_pos_bound; lia).
  rewrite (fromordinal_in_range (today - weekday today)) by lia.
  cbn [mbind option_bind]. rewrite rate_value_eq. cbn [mbind option_bind].
  eexists. split; [done|].
  cbn [a_habit_streaks a_total_habit_completions a_best_streak
       a_best_streak_habit a_most_consistent_habit a_most_consistent_completions].
  set (best := match hs_best_streak <$> streaks with
               | [] => 0
               | x :: xs => foldl Z.max x xs
               end).
  assert (Hbest : (∀ e, e ∈ streaks → hs_best_streak e ≤ best)
                  ∧ (streaks ≠ [] → ∃ e, e ∈ streaks ∧ hs_best_streak e = best)).
  { unfold best. destruct streaks as [|e0 rest]; [split; [|done]|].
    { intros e He. by apply elem_of_nil in He. }
    rewrite fmap_cons.
    destruct (foldl_max_spec (hs_best_streak e0) (hs_best_streak <$> rest))
      as [Hle Hin].
    rewrite <-fmap_cons in Hle, Hin. split.
    - intros e He. apply Hle. by apply list_elem_of_fmap_2.
    - intros _. apply list_elem_of_fmap in Hin as (e & He & Hin). by exists e. }
  destruct Hbest as [Hbest_le Hbest_in].
  pose proof (head_filter_split (λ h, hs_best_streak h = best) streaks) as Hhead.
  pose proof (max_by_spec hs_total_completions streaks) as Hmax.
  split_and!; try done.
  - intros e He. split; [by apply Hbest_le|].
    destruct (max_by hs_total_completions streaks) as [b|].
    + destruct Hmax as (_ & _ & _ & _ & Hall). by apply Hall.
    + subst streaks. by apply elem_of_nil in He.
  - intros ->. done.
  - intros Hne. split.
    + destruct (head (filter (λ h, hs_best_streak h = best) streaks)) as [e|].
      * destruct Hhead as (l1 & l2 & Heq & He & Hl1). exists l1, e, l2.
        split_and!; try done. intros e' He'.
        assert (hs_best_streak e' ≤ best)
          by (apply Hbest_le; rewrite Heq; apply elem_of_app; by left).
        specialize (Hl1 e' He'). lia.
      * destruct (Hbest_in Hne) as (e & He & Heq). by apply Hhead in He.
    + destruct (max_by hs_total_completions streaks) as [b|]; [|done].
      destruct Hmax as (l1 & l2 & Heq & Hl1 & _). by exists l1, b, l2.
Qed.

(** X24.  A completion whose date string is not a date makes the streak
    computation fail for its habit, and with it [get_habit_streaks] and
    [get_analytics_summary] as a whole, on every day. *)
Theorem habit_streaks_fail_on_bad_date (st : store) (today : Z) (h : habit)
    (c : completion) :
  h ∈ habits st → c ∈ completions st → hc_habit_id c = h_id h →
  strptime (hc_date c) = None →
  get_habit_streaks st today = None ∧ get_analytics_summary st today = None.
Proof.
  intros Hh Hc Hid Hbad.
  assert (Hnone : get_habit_streaks st today = None).
  { apply mapM_None, Exists_exists. exists h.
    split; [by rewrite get_all_habits_perm|].
    unfold habit_streak_of.
    destruct (fromordinal today); [|done]. cbn [mbind option_bind].
    destruct (current_streak_loop _ _ _); [|done]. cbn [mbind option_bind].
    assert (hc_date c ∈ completion_dates st (h_id h)) as Hin
      by (apply completion_dates_elem; by exists c).
    assert (mapM strptime (completion_dates st (h_id h)) = None) as Hm.
    { apply mapM_None, Exists_exists. by exists (hc_date c). }
    unfold best_streak_of.
    destruct (completion_dates st (h_id h)) as [|s l]; [by apply elem_of_nil in Hin|].
    by rewrite Hm. }
  split; [done|]. unfold get_analytics_summary.
  destruct (fromordinal today); [|done]. cbn [mbind option_bind].
  by rewrite Hnone.
Qed.

End Summary.

Section MonthQuery.



End MonthQuery.

(** ** The theorems at concrete stores *)

Section Instances.

Lemma january_unique : unique_completions january.
Proof. apply (bool_decide_unpack _). by vm_compute. Defined.

Lemma january_iso : iso_store january.
Proof.
  intros c Hc.
  assert (forallb (λ c, is_iso_date (hc_date c)) (completions january) = true)
    as Hall by (by vm_compute).
  rewrite forallb_forall in Hall. by apply Hall, list_elem_of_In.
Defined.

Lemma toggle_twice_round_trip_witness :
  unique_completions january
  ∧ sqlite_int 1 = true
  ∧ ∃ st1 st2,
      toggle_habit_completion january 1 "2024-01-04" = Some (st1, true)
      ∧ toggle_habit_completion st1 1 "2024-01-04" = Some (st2, false)
      ∧ completions st2 = completions january
      ∧ habits st2 = habits january
      ∧ completions_seq st2 = completions_seq january + 1.
Proof.
  split; [exact january_unique|]. split; [reflexivity|].
  destruct (proj2 (toggle_twice_round_trip january 1 "2024-01-04" january_unique)
              eq_refl)
    as (st1 & b1 & st2 & b2 & H1 & H2 & Hb1 & _ & _ & Hb2 & Hsame & _ & Hh & _
        & _ & _ & _ & Hnone & Hseq & _).
  assert (is_complete january 1 "2024-01-04" = false) as Hinc by (by vm_compute).
  rewrite Hinc in Hb1, Hsame. rewrite Hsame in Hb2. cbn in Hb1. subst b1 b2.
  exists st1, st2.
  split_and!; [exact H1|exact H2|by apply Hnone|exact Hh|exact Hseq].
Defined.

(** C1 as stated fails: two toggles do not give back the store.  Habit 1 of
    [january] is complete on 2024-01-01 through record 1, the first of five;
    after two toggles the record for that day is number 6 and stands last.
    And a habit id of 64 bits and more makes the call raise. *)
Lemma toggle_twice_not_identity :
  reachable january
  ∧ (∃ st1 st2,
       toggle_habit_completion january 1 "2024-01-01" = Some (st1, false)
       ∧ toggle_habit_completion st1 1 "2024-01-01" = Some (st2, true)
       ∧ st2 ≠ january
       ∧ (λ c, (hc_id c, hc_date c)) <$> completions january
         = [(1, "2024-01-01"); (2, "2024-01-02"); (3, "2024-01-03");
            (4, "2024-01-05"); (5, "2024-01-06")]
       ∧ (λ c, (hc_id c, hc_date c)) <$> completions st2
         = [(2, "2024-01-02"); (3, "2024-01-03"); (4, "2024-01-05");
            (5, "2024-01-06"); (6, "2024-01-01")]
       ∧ completions_seq january = 5 ∧ completions_seq st2 = 6)
  ∧ toggle_habit_completion january (2 ^ 63) "2024-01-01" = None.
Proof.
  split_and!.
  - unfold january. cbv zeta.
    apply toggle_all_reachable, reach_create_habit, reach_first_start.
  - destruct (toggle_habit_completion january 1 "2024-01-01") as [[st1 b1]|]
      eqn:H1; [|by vm_compute in H1].
    destruct (toggle_habit_completion st1 1 "2024-01-01") as [[st2 b2]|]
      eqn:H2; [|by vm_compute in H1; injection H1 as <- <-; vm_compute in H2].
    vm_compute in H1. injection H1 as <- <-.
    vm_compute in H2. injection H2 as <- <-.
    eexists _, _. split_and!; try reflexivity.
    intros Heq. apply (f_equal completions_seq) in Heq. vm_compute in Heq.
    discriminate Heq.
  - by vm_compute.
Qed.

Lemma habit_streaks_correct_witness :
  unique_completions january ∧ iso_store january
  ∧ 1 ≤ january_6 ≤ MAXORDINAL
  ∧ ∃ result,
      get_habit_streaks january january_6 = Some result
      ∧ Forall2 (streak_entry_ok january january_6) (get_all_habits january) result.
Proof.
  assert (1 ≤ january_6 ≤ MAXORDINAL) as Htoday by (by vm_compute).
  split_and!; [exact january_unique|exact january_iso|exact (proj1 Htoday)
              |exact (proj2 Htoday)|].
  apply (proj1 habit_streaks_correct january january_6 january_unique january_iso Htoday).
  intros h Hh. exists 738885. split; [by vm_compute|].
  assert (habits january
          = [mk_habit 1 "Read" "R" "#6366F1" "2024-01-01 08:00:00" (Some 0)])
    as Hhs by (by vm_compute).
  rewrite Hhs in Hh. apply list_elem_of_singleton in Hh as ->.
  rewrite <-completed_onb_spec. by vm_compute.
Defined.

Lemma month_completions_exact_witness :
  iso_store january
  ∧ ∃ res, get_habit_completions january 2024 1 = Some res
           ∧ ∀ d, d ∈ default [] (res !! 1)
                  ↔ ∃ c, c ∈ completions january ∧ hc_habit_id c = 1
                         ∧ strptime (hc_date c) = Some (mk_date 2024 1 d).
Proof.
  split; [exact january_iso|].
  destruct (month_completions_exact january 2024 1 january_iso) as (res & Hres & Hspec).
  exists res. split; [exact Hres|].
  destruct (Hspec 1) as [Hkey Hdays]. clear Hspec Hres.
  generalize dependent january. intros st Hkey Hdays.
  destruct (res !! 1) as [days|] eqn:E.
  - cbn [default]. exact (proj1 (Hdays days eq_refl)).
  - intros d. cbn [default]. split.
    + intros Hd. apply elem_of_nil in Hd. destruct Hd.
    + intros (c & Hc & Hid & Hs). exfalso.
      assert (is_Some (@None (list Z))) as [x Hx].
      { apply Hkey. exists c, d. split_and!; assumption. }
      discriminate Hx.
Defined.

Lemma rates_resolve_to_zero_witness :
  habits (init_database empty_store) = []
  ∧ tasks_on (init_database empty_store) "2024-01-06" = []
  ∧ 30 ≤ january_6 ≤ MAXORDINAL
  ∧ (∃ r, get_daily_report (init_database empty_store) "2024-01-06" = Some r
          ∧ r_overall_score r = Int 0)
  ∧ (∃ s, get_statistics (init_database empty_store) january_6 = Some s
          ∧ s_completion_rate s = Int 0).
Proof.
  assert (30 ≤ january_6 ≤ MAXORDINAL) as Htoday by (by vm_compute).
  destruct (rates_resolve_to_zero (init_database empty_store))
    as (_ & Hdaily & Hstats & _).
  split_and!; [reflexivity|reflexivity|exact (proj1 Htoday)|exact (proj2 Htoday)| |].
  - destruct (Hdaily "2024-01-06") as (r & Hr & _ & _ & _ & Hzero).
    exists r. split; [done|]. by apply Hzero.
  - destruct (Hstats january_6 Htoday) as (s & Hs & Hzero).
    exists s. split; [done|]. by apply Hzero.
Defined.

Lemma reorder_then_list_witness :
  NoDup (h_id <$> habits three_habits)
  ∧ 3 ∈ h_id <$> habits three_habits
  ∧ 1 ∈ h_id <$> habits three_habits
  ∧ 2 ∈ h_id <$> habits three_habits
  ∧ ∃ st', update_habits_order three_habits [3; 1; 2] = Some (st', true)
           ∧ h_id <$> get_all_habits st' = [3; 1; 2].
Proof.
  assert (NoDup (h_id <$> habits three_habits)) as Hnd
    by (apply (bool_decide_unpack _); by vm_compute).
  assert (3 ∈ h_id <$> habits three_habits) as H3
    by (apply (bool_decide_unpack _); by vm_compute).
  assert (1 ∈ h_id <$> habits three_habits) as H1
    by (apply (bool_decide_unpack _); by vm_compute).
  assert (2 ∈ h_id <$> habits three_habits) as H2
    by (apply (bool_decide_unpack _); by vm_compute).
  split_and!; [exact Hnd|exact H3|exact H1|exact H2|].
  destruct (reorder_then_list three_habits Hnd H3 H1 H2)
    as (st' & Hcall & _ & _ & _ & _ & _ & _ & Hexact & _).
  exists st'. split; [exact Hcall|].
  apply Hexact. intros h Hh.
  assert (Forall (λ h, h_id h ∈ [3; 1; 2]) (habits three_habits)) as Hall
    by (apply (bool_decide_unpack _); by vm_compute).
  rewrite Forall_forall in Hall. by apply Hall.
Defined.

Lemma delete_habit_cascades_witness :
  sqlite_int 1 = true
  ∧ (∃ h, h ∈ habits january ∧ h_id h = 1)
  ∧ ∃ st', delete_habit january 1 = Some (st', true)
           ∧ completion_dates st' 1 = []
           ∧ delete_habit st' 1 = Some (st', false).
Proof.
  assert (∃ h, h ∈ habits january ∧ h_id h = 1) as Hex.
  { exists (mk_habit 1 "Read" "R" "#6366F1" "2024-01-01 08:00:00" (Some 0)).
    split; [|done].
    assert (habits january
            = [mk_habit 1 "Read" "R" "#6366F1" "2024-01-01 08:00:00" (Some 0)])
      as -> by (by vm_compute).
    by left. }
  destruct (proj2 (delete_habit_cascades january 1) eq_refl)
    as (st' & deleted & Hcall & _ & _ & _ & _ & _ & Hdates & _ & Hdeleted
        & Hagain & _).
  apply Hdeleted in Hex as Htrue. rewrite Htrue in Hcall.
  split_and!; [reflexivity|exact Hex|].
  exists st'. split_and!; [exact Hcall|exact Hdates|exact Hagain].
Defined.

Lemma update_habits_order_always_true_witness :
  (∀ hid, hid ∈ [7; 8] → sqlite_int hid = true)
  ∧ (∀ hid h, hid ∈ [7; 8] → h ∈ habits three_habits → h_id h ≠ hid)
  ∧ update_habits_order three_habits [7; 8] = Some (three_habits, true).
Proof.
  assert (∀ hid, hid ∈ [7; 8] → sqlite_int hid = true) as Hrange.
  { intros hid Hhid.
    assert (Forall (λ hid, sqlite_int hid = true) [7; 8]) as Hall
      by (apply (bool_decide_unpack _); by vm_compute).
    rewrite Forall_forall in Hall. by apply Hall. }
  assert (∀ hid h, hid ∈ [7; 8] → h ∈ habits three_habits → h_id h ≠ hid) as Hne.
  { intros hid h Hhid Hh.
    assert (Forall (λ h, h_id h ∉ [7; 8]) (habits three_habits)) as Hall
      by (apply (bool_decide_unpack _); by vm_compute).
    rewrite Forall_forall in Hall. intros Heq. apply (Hall h Hh). by rewrite Heq. }
  split_and!; [exact Hrange|exact Hne|].
  destruct (update_habits_order_always_true three_habits [7; 8])
    as (_ & _ & Hreturns).
  destruct (Hreturns Hrange) as (st' & Hcall & _ & _ & _ & _ & _ & _ & Hskip).
  rewrite Hcall. f_equal. f_equal. exact (Hskip Hne).
Defined.

(** C10 as stated fails: not every list is answered with [true].  A list
    that holds an id of 64 bits and more makes the call raise, whatever else
    it lists, and no habit is reordered. *)
Lemma update_habits_order_raises :
  reachable three_habits
  ∧ h_id <$> habits three_habits = [1; 2; 3]
  ∧ update_habits_order three_habits [3; 2 ^ 63; 1] = None
  ∧ update_habits_order three_habits [2 ^ 63] = None
  ∧ update_habits_order three_habits [- 2 ^ 63 - 1] = None.
Proof.
  split_and!; [exact three_habits_reachable|by vm_compute..].
Qed.

End Instances.

(** ** The further properties on concrete stores *)

Section FurtherInstances.

(** Three tasks for one day, one of each priority, entered in the order
    high, medium, low. *)
Definition chores : store :=
  let st := init_database empty_store in
  let st := (create_task st "2024-06-01 09:00:00" "Call" "2024-06-01" "high"
               None None).1 in
  let st := (create_task st "2024-06-01 09:01:00" "Shop" "2024-06-01" "medium"
               (Some "10:00") (Some "11:00")).1 in
  (create_task st "2024-06-01 09:02:00" "Tidy" "2024-06-01" "low" None None).1.

(** A database written before the sort order column existed. *)
Definition legacy : store :=
  mk_store (mk_schema true true true false false false false)
    [mk_habit 1 "Read" "R" "#6366F1" "2023-01-01 08:00:00" None;
     mk_habit 2 "Run" "U" "#6366F1" "2023-01-02 08:00:00" None]
    2 [] 0 [] 0 ∅.

Lemma chores_reachable : reachable chores.
Proof.
  unfold chores. cbv zeta.
  apply reach_create_task, reach_create_task, reach_create_task, reach_first_start.
Defined.

Lemma january_integrity : referential_integrity january.
Proof.
  intros c Hc.
  assert (Forall (λ c, hc_habit_id c = 1) (completions january)) as Hall
    by (apply (bool_decide_unpack _); by vm_compute).
  rewrite Forall_forall in Hall.
  exists (mk_habit 1 "Read" "R" "#6366F1" "2024-01-01 08:00:00" (Some 0)).
  split; [|by rewrite (Hall c Hc)].
  assert (habits january
          = [mk_habit 1 "Read" "R" "#6366F1" "2024-01-01 08:00:00" (Some 0)])
    as -> by (by vm_compute).
  by left.
Defined.

Lemma priority_order_is_alphabetical_witness :
  (∃ a b, get_tasks_for_date chores "2024-06-01" !! 0%nat = Some a
          ∧ get_tasks_for_date chores "2024-06-01" !! 2%nat = Some b
          ∧ t_priority a = "medium" ∧ t_priority b = "high")
  ∧ t_priority <$> get_tasks_for_date chores "2024-06-01" = ["medium"; "low"; "high"].
Proof.
  assert (Hlist : t_priority <$> get_tasks_for_date chores "2024-06-01"
                  = ["medium"; "low"; "high"]) by (by vm_compute).
  split; [|exact Hlist].
  destruct (get_tasks_for_date chores "2024-06-01") as [|a [|m [|b rest]]] eqn:E;
    try discriminate Hlist.
  exists a, b. injection Hlist as Ha _ Hb _.
  pose proof (priority_order_is_alphabetical chores "2024-06-01" 0 2 a b) as Hord.
  rewrite E in Hord. specialize (Hord eq_refl eq_refl ltac:(lia)).
  split_and!; [reflexivity|reflexivity|exact Ha|exact Hb].
Defined.

Lemma toggle_task_twice_witness :
  tasks_wf chores
  ∧ (∃ t, t ∈ tasks chores ∧ t_id t = 2 ∧ sqlite_int (t_id t) = true)
  ∧ ∃ st1, toggle_task chores 2 = Some (st1, true)
           ∧ toggle_task st1 2 = Some (chores, false).
Proof.
  pose proof (reachable_tasks_wf chores chores_reachable) as Hwf.
  set (t := mk_task 2 "Shop" "2024-06-01" 0 "medium" (Some "10:00") (Some "11:00")
              "2024-06-01 09:01:00").
  assert (t ∈ tasks chores) as Ht.
  { assert (tasks chores !! 1%nat = Some t) as Hl by (by vm_compute).
    by apply list_elem_of_lookup_2 in Hl. }
  destruct (toggle_task_twice chores t Hwf Ht eq_refl)
    as (st1 & st2 & H1 & H2 & Hback & _).
  rewrite Hback in H2.
  split_and!; [exact Hwf|by exists t|]. exists st1. split; [exact H1|exact H2].
Defined.

Lemma toggle_task_missing_witness :
  (∀ t, t ∈ tasks chores → t_id t ≠ 9)
  ∧ toggle_task chores 9 = Some (chores, false)
  ∧ (∀ t, t ∈ tasks chores → t_id t ≠ 2 ^ 63)
  ∧ toggle_task chores (2 ^ 63) = None.
Proof.
  assert (∀ n, n = 9 ∨ n = 2 ^ 63 → ∀ t, t ∈ tasks chores → t_id t ≠ n) as Hne.
  { intros n Hn t Ht.
    assert (Forall (λ t, t_id t ≠ 9 ∧ t_id t ≠ 2 ^ 63) (tasks chores)) as Hall
      by (apply (bool_decide_unpack _); by vm_compute).
    rewrite Forall_forall in Hall. destruct (Hall t Ht) as [H9 Hbig].
    by destruct Hn as [-> | ->]. }
  split_and!.
  - apply Hne. by left.
  - exact (toggle_task_missing chores 9 (Hne 9 (or_introl eq_refl))).
  - apply Hne. by right.
  - exact (toggle_task_missing chores (2 ^ 63) (Hne (2 ^ 63) (or_intror eq_refl))).
Defined.

Lemma create_task_lifecycle_witness :
  tasks_wf chores
  ∧ let st1 := (create_task chores "2024-06-01 09:03:00" "Cook" "2024-06-02"
                  "medium" None None).1 in
    get_tasks_for_date st1 "2024-06-01" = get_tasks_for_date chores "2024-06-01"
    ∧ (∃ st2, toggle_task st1 4 = Some (st2, true))
    ∧ (∃ st3, delete_task st1 4 = Some (st3, true) ∧ tasks st3 = tasks chores).
Proof.
  pose proof (reachable_tasks_wf chores chores_reachable) as Hwf.
  split; [exact Hwf|]. cbv zeta.
  destruct (create_task_lifecycle chores "2024-06-01 09:03:00" "Cook" "2024-06-02"
              "medium" None None Hwf)
    as (_ & _ & _ & Hother & Hlife).
  destruct (Hlife eq_refl) as [Htoggle Hdel].
  split_and!; [by apply Hother|exact Htoggle|exact Hdel].
Defined.

Lemma reachable_invariants_witness :
  reachable january
  ∧ sch january = full_schema
  ∧ unique_completions january
  ∧ NoDup (h_id <$> habits january).
Proof.
  assert (reachable january) as Hr.
  { unfold january. cbv zeta.
    apply toggle_all_reachable, reach_create_habit, reach_first_start. }
  destruct (reachable_invariants january Hr) as (Hsch & Hnd & _ & Hu & _).
  split_and!; [exact Hr|exact Hsch|exact Hu|exact Hnd].
Defined.

Lemma create_habit_fresh_witness :
  store_wf three_habits
  ∧ (create_habit three_habits "2024-01-02 08:00:00" "Walk" "W" "#10B981").2
    = (4, "Walk", "W", "#10B981")
  ∧ ∀ h, h ∈ habits three_habits → h_id h < 4.
Proof.
  pose proof (reachable_store_wf three_habits three_habits_reachable) as Hwf.
  destruct (create_habit_fresh three_habits "2024-01-02 08:00:00" "Walk" "W"
              "#10B981" Hwf) as (Hret & Hlt & _).
  split_and!; [exact Hwf|exact Hret|exact Hlt].
Defined.

Lemma new_habit_first_then_last_witness :
  store_wf three_habits
  ∧ sch three_habits = full_schema
  ∧ (∀ h, h ∈ habits three_habits →
          ∃ o, h_sort_order h = Some o ∧ 0 < o ≤ habits_seq three_habits)
  ∧ let st1 := (create_habit three_habits "2024-01-02 08:00:00" "Walk" "W"
                  "#10B981").1 in
    h_id <$> get_all_habits st1
    = 4 :: (h_id <$> get_all_habits three_habits)
    ∧ h_id <$> get_all_habits (init_database st1)
      = (h_id <$> get_all_habits three_habits) ++ [4].
Proof.
  pose proof (reachable_store_wf three_habits three_habits_reachable) as Hwf.
  assert (sch three_habits = full_schema) as Hsch by reflexivity.
  assert (∀ h, h ∈ habits three_habits →
               ∃ o, h_sort_order h = Some o ∧ 0 < o ≤ habits_seq three_habits)
    as Horders.
  { intros h Hh.
    assert (Forall (λ h, h_sort_order h = Some (h_id h) ∧ 0 < h_id h ≤ 3)
              (habits three_habits)) as Hall
      by (apply (bool_decide_unpack _); by vm_compute).
    rewrite Forall_forall in Hall. destruct (Hall h Hh) as [Ho Hb].
    exists (h_id h). split; [exact Ho|exact Hb]. }
  destruct (new_habit_first_then_last three_habits "2024-01-02 08:00:00" "Walk" "W"
              "#10B981" Hwf Hsch Horders) as [Hfirst Hlast].
  split_and!; [exact Hwf|exact Hsch|exact Horders|]. cbv zeta. split.
  - rewrite Hfirst. reflexivity.
  - rewrite Hlast, fmap_app. reflexivity.
Defined.

Lemma update_habits_order_last_wins_witness :
  (∀ hid, hid ∈ [1; 2; 1] → sqlite_int hid = true)
  ∧ ∃ st', update_habits_order three_habits [1; 2; 1] = Some (st', true)
           ∧ (λ h, (h_id h, h_sort_order h)) <$> habits st'
             = [(1, Some 2); (2, Some 1); (3, Some 3)]
           ∧ update_habits_order st' [1; 2; 1] = Some (st', true).
Proof.
  assert (∀ hid, hid ∈ [1; 2; 1] → sqlite_int hid = true) as Hrange.
  { intros hid Hhid.
    assert (Forall (λ hid, sqlite_int hid = true) [1; 2; 1]) as Hall
      by (apply (bool_decide_unpack _); by vm_compute).
    rewrite Forall_forall in Hall. by apply Hall. }
  split; [exact Hrange|].
  destruct (update_habits_order_last_wins three_habits [1; 2; 1] Hrange)
    as (st' & Hcall & _ & _ & _ & Hagain).
  exists st'. split_and!; [exact Hcall| |exact Hagain].
  assert (Hreal : update_habits_order three_habits [1; 2; 1]
                  = Some ((update_habits_order_bound three_habits [1; 2; 1]).1, true))
    by (vm_compute; reflexivity).
  rewrite Hreal in Hcall.
  assert (st' = (update_habits_order_bound three_habits [1; 2; 1]).1) as ->
    by congruence.
  by vm_compute.
Defined.

Lemma reorder_all_then_list_witness :
  NoDup (h_id <$> habits three_habits)
  ∧ (∀ h, h ∈ habits three_habits → sqlite_int (h_id h) = true)
  ∧ [2; 3; 1] ≡ₚ h_id <$> habits three_habits
  ∧ ∃ st', update_habits_order three_habits [2; 3; 1] = Some (st', true)
           ∧ h_id <$> get_all_habits st' = [2; 3; 1].
Proof.
  assert (NoDup (h_id <$> habits three_habits)) as Hnd
    by (apply (bool_decide_unpack _); by vm_compute).
  assert (∀ h, h ∈ habits three_habits → sqlite_int (h_id h) = true) as Hrange.
  { intros h Hh.
    assert (Forall (λ h, sqlite_int (h_id h) = true) (habits three_habits)) as Hall
      by (apply (bool_decide_unpack _); by vm_compute).
    rewrite Forall_forall in Hall. by apply Hall. }
  assert ([2; 3; 1] ≡ₚ h_id <$> habits three_habits) as Hperm.
  { assert (h_id <$> habits three_habits = [1; 2; 3]) as -> by (by vm_compute).
    apply Permutation_sym. etrans; [apply Permutation_swap|].
    apply Permutation_skip, Permutation_swap. }
  split_and!; [exact Hnd|exact Hrange|exact Hperm|].
  exact (reorder_all_then_list three_habits [2; 3; 1] Hnd Hrange Hperm).
Defined.

Lemma delete_habit_keeps_order_witness :
  NoDup (h_id <$> habits three_habits)
  ∧ sqlite_int 2 = true
  ∧ ∃ st' deleted,
      delete_habit three_habits 2 = Some (st', deleted)
      ∧ get_all_habits st'
        = filter (λ h, h_id h ≠ 2) (get_all_habits three_habits).
Proof.
  assert (NoDup (h_id <$> habits three_habits)) as Hnd
    by (apply (bool_decide_unpack _); by vm_compute).
  split; [exact Hnd|]. split; [reflexivity|].
  exact (delete_habit_keeps_order three_habits 2 Hnd eq_refl).
Defined.

Lemma integrity_kept_witness :
  referential_integrity january
  ∧ (∃ st', delete_habit january 1 = Some (st', true)
            ∧ referential_integrity st')
  ∧ referential_integrity (init_database january).
Proof.
  destruct (integrity_kept january january_integrity) as (Hinit & _ & Hdel & _).
  assert (Hcall : delete_habit january 1
                  = Some ((delete_habit_bound january 1).1, true))
    by (vm_compute; reflexivity).
  split_and!; [exact january_integrity| |exact Hinit].
  eexists. split; [exact Hcall|]. exact (Hdel _ _ _ Hcall).
Defined.

Lemma startup_orders_legacy_habits_by_id_witness :
  col_sort_order (sch legacy) = false
  ∧ (λ h, (h_id h, h_sort_order h)) <$> habits legacy = [(1, None); (2, None)]
  ∧ habits (init_database legacy)
    = (λ h, set_sort_order h (Some (h_id h))) <$> habits legacy.
Proof.
  split_and!; [reflexivity|reflexivity|].
  exact (proj1 (startup_orders_legacy_habits_by_id legacy eq_refl)).
Defined.

Lemma get_statistics_shape_witness :
  30 ≤ january_6 ≤ MAXORDINAL
  ∧ ∃ s, get_statistics january january_6 = Some s
         ∧ 0 ≤ s_streak s ≤ 30
         ∧ length (s_weekly_data s) = 7%nat.
Proof.
  assert (30 ≤ january_6 ≤ MAXORDINAL) as Htoday by (by vm_compute).
  split; [exact Htoday|].
  destruct (get_statistics_shape january january_6 Htoday)
    as (s & Hs & _ & _ & Hstreak & _ & _ & Hlen & _).
  exists s. split_and!; [exact Hs|exact (proj1 Hstreak)|exact (proj2 Hstreak)
                        |exact Hlen].
Defined.

Lemma get_daily_report_rows_witness :
  unique_completions january
  ∧ ∃ r, get_daily_report january "2024-01-05" = Some r
         ∧ r_habits_total r = 1
         ∧ r_habits r
           = (λ h, (h, if is_complete january (h_id h) "2024-01-05" then 1 else 0))
               <$> get_all_habits january.
Proof.
  split; [exact january_unique|].
  destruct (get_daily_report_rows january "2024-01-05" january_unique)
    as (r & Hr & _ & Hrows & Htotal & _).
  exists r. split_and!; [exact Hr| |exact Hrows].
  rewrite Htotal. by vm_compute.
Defined.

Lemma habit_streaks_ordered_witness :
  unique_completions january ∧ iso_store january
  ∧ 1 ≤ january_6 ≤ MAXORDINAL
  ∧ ∃ result,
      get_habit_streaks january january_6 = Some result
      ∧ ∀ e, e ∈ result →
          hs_current_streak e ≤ hs_best_streak e
          ∧ hs_best_streak e ≤ hs_total_completions e.
Proof.
  assert (1 ≤ january_6 ≤ MAXORDINAL) as Htoday by (by vm_compute).
  split_and!; [exact january_unique|exact january_iso|exact (proj1 Htoday)
              |exact (proj2 Htoday)|].
  destruct (habit_streaks_ordered january january_6 january_unique january_iso
              Htoday) as (result & Hres & _ & Hord).
  { intros h Hh. exists 738885. split; [by vm_compute|].
    assert (habits january
            = [mk_habit 1 "Read" "R" "#6366F1" "2024-01-01 08:00:00" (Some 0)])
      as Hhs by (by vm_compute).
    rewrite Hhs in Hh. apply list_elem_of_singleton in Hh as ->.
    rewrite <-completed_onb_spec. by vm_compute. }
  exists result. split; [exact Hres|].
  intros e He. destruct (Hord e He) as ([_ H1] & H2 & _). by split.
Defined.

Lemma analytics_summary_picks_witness :
  7 ≤ january_6 ≤ MAXORDINAL
  ∧ get_habit_streaks january january_6
    = Some [mk_habit_streak 1 "Read" "R" "#6366F1" 2 3 5]
  ∧ ∃ a, get_analytics_summary january january_6 = Some a
         ∧ a_total_habit_completions a = 5.
Proof.
  assert (7 ≤ january_6 ≤ MAXORDINAL) as Htoday by (by vm_compute).
  assert (get_habit_streaks january january_6
          = Some [mk_habit_streak 1 "Read" "R" "#6366F1" 2 3 5]) as Hstreaks
    by (by vm_compute).
  split_and!; [exact (proj1 Htoday)|exact (proj2 Htoday)|exact Hstreaks|].
  destruct (analytics_summary_picks january january_6 _ Htoday Hstreaks)
    as (a & Ha & _ & Htotal & _).
  exists a. split; [exact Ha|]. rewrite Htotal. by vm_compute.
Defined.

Lemma habit_streaks_fail_on_bad_date_witness :
  (∃ h c, h ∈ habits undated ∧ c ∈ completions undated
          ∧ hc_habit_id c = h_id h ∧ strptime (hc_date c) = None)
  ∧ get_habit_streaks undated january_6 = None
  ∧ get_analytics_summary undated january_6 = None.
Proof.
  set (h := mk_habit 1 "Read" "R" "#6366F1" "2024-01-01 08:00:00" (Some 0)).
  set (c := mk_completion 1 1 "someday" 1).
  assert (h ∈ habits undated) as Hh.
  { assert (habits undated !! 0%nat = Some h) as Hl by (by vm_compute).
    by apply list_elem_of_lookup_2 in Hl. }
  assert (c ∈ completions undated) as Hc.
  { assert (completions undated !! 0%nat = Some c) as Hl by (by vm_compute).
    by apply list_elem_of_lookup_2 in Hl. }
  assert (strptime (hc_date c) = None) as Hbad by (by vm_compute).
  pose proof (habit_streaks_fail_on_bad_date undated january_6 h c Hh Hc eq_refl
                Hbad) as Hfail.
  split; [|exact Hfail].
  exists h, c. split_and!; [exact Hh|exact Hc|reflexivity|exact Hbad].
Defined.

End FurtherInstances.
